(** * Shallow embedding of thegigup-backend: cache store, OTP ledger,
    project lifecycle, application workflow and rating aggregation. *)

From Stdlib Require Import String Ascii List ZArith QArith Qround Qabs Bool Lia Lqa.
Import ListNotations.
Open Scope nat_scope.
Open Scope string_scope.

(** ** Cache store (src/utils/redis.js)

    Redis is a key/value store with a remaining time-to-live per key.
    [setCache] is [setEx] (overwrite with a fresh TTL), [deleteCache] is
    [del]. The store is polymorphic in the stored value: the OTP ledger
    stores OTP records, the handlers store opaque JSON. Redis failures,
    which the helpers catch and log, are not modelled: every call succeeds. *)
Module Cache.

Definition Store (V : Type) := list (string * (V * nat)).

Section Ops.
Context {V : Type}.

Fixpoint lookup (s : Store V) (k : string) : option (V * nat) :=
  match s with
  | [] => None
  | (k', e) :: s' => if String.eqb k k' then Some e else lookup s' k
  end.

(** getCache: the stored value, or null. *)
Definition getCache (s : Store V) (k : string) : option V :=
  option_map fst (lookup s k).

(** [ttl] of a key as Redis reports it. *)
Definition ttl (s : Store V) (k : string) : option nat :=
  option_map snd (lookup s k).

(** deleteCache: client.del(key). *)
Definition deleteCache (s : Store V) (k : string) : Store V :=
  filter (fun e => negb (String.eqb k (fst e))) s.

(** setCache: client.setEx(key, ttl, value), replacing any previous entry. *)
Definition setCache (s : Store V) (k : string) (v : V) (t : nat) : Store V :=
  (k, (v, t)) :: deleteCache s k.

(** Promise.all(keys.map(deleteCache)). *)
Definition deleteAll (s : Store V) (ks : list string) : Store V :=
  fold_left deleteCache ks s.

(** [n] seconds elapse: every TTL decreases, expired keys disappear. *)
Definition elapse (s : Store V) (n : nat) : Store V :=
  map (fun e => (fst e, (fst (snd e), (snd (snd e) - n)%nat)))
      (filter (fun e => (n <? snd (snd e))%nat) s).

End Ops.
End Cache.

(** ** OTP ledger (src/utils/passwordReset.js, src/utils/emailVerification.js) *)
Module Otp.
Import Cache.

(** The OTP record [{otp, email, createdAt, attempts, verified}]; the
    email and timestamps are carried along unchanged and are left out. *)
Record OtpData := mkOtp { otp : string; attempts : nat; verified : bool }.

Inductive VerifyResult :=
| Valid (d : OtpData)
| Invalid (error : string).

Definition err_missing := "OTP expired or invalid".
Definition err_exhausted := "Too many failed attempts. Please request a new OTP.".
Definition err_wrong := "Invalid OTP".

Definition reset_key (email userType : string) : string :=
  "password_reset_otp:" ++ userType ++ ":" ++ email.

Definition email_key (email : string) : string :=
  "email_verification_otp:" ++ email.

(** storeOTP: a fresh record, 600 seconds. *)
Definition storeOTP (s : Store OtpData) (email code userType : string)
  : Store OtpData :=
  setCache s (reset_key email userType) (mkOtp code 0 false) 600.

(** verifyOTP (password reset). *)
Definition verifyOTP (s : Store OtpData) (email code userType : string)
  : VerifyResult * Store OtpData :=
  let key := reset_key email userType in
  match getCache s key with
  | None => (Invalid err_missing, s)
  | Some data =>
      if negb (String.eqb (otp data) code) then
        let data' := mkOtp (otp data) (attempts data + 1)%nat (verified data) in
        if (3 <=? attempts data')%nat then
          (Invalid err_exhausted, deleteCache s key)
        else
          (Invalid err_wrong, setCache s key data' 600)
      else
        let data' := mkOtp (otp data) (attempts data) true in
        (Valid data', setCache s key data' 900)
  end.

(** verifyEmailVerificationOTP. *)
Definition verifyEmailVerificationOTP (s : Store OtpData) (email code : string)
  : VerifyResult * Store OtpData :=
  let key := email_key email in
  match getCache s key with
  | None => (Invalid err_missing, s)
  | Some data =>
      if negb (String.eqb (otp data) code) then
        let data' := mkOtp (otp data) (attempts data + 1)%nat (verified data) in
        if (3 <=? attempts data')%nat then
          (Invalid err_exhausted, deleteCache s key)
        else
          (Invalid err_wrong, setCache s key data' 600)
      else
        let data' := mkOtp (otp data) (attempts data) true in
        (Valid data', setCache s key data' 1800)
  end.

(** The two OTP purposes and their check functions. *)
Inductive Purpose := PasswordReset (userType : string) | EmailVerification.

Definition purpose_key (pu : Purpose) (email : string) : string :=
  match pu with
  | PasswordReset userType => reset_key email userType
  | EmailVerification => email_key email
  end.

Definition check (pu : Purpose) (s : Store OtpData) (email code : string)
  : VerifyResult * Store OtpData :=
  match pu with
  | PasswordReset userType => verifyOTP s email code userType
  | EmailVerification => verifyEmailVerificationOTP s email code
  end.

(** The TTL a correct code extends the entry to. *)
Definition verified_ttl (pu : Purpose) : nat :=
  match pu with
  | PasswordReset _ => 900
  | EmailVerification => 1800
  end.

(** A sequence of checks of one (purpose, subject) entry. *)
Fixpoint runChecks (pu : Purpose) (s : Store OtpData) (email : string)
  (codes : list string) : list VerifyResult * Store OtpData :=
  match codes with
  | [] => ([], s)
  | c :: cs =>
      let (r, s') := check pu s email c in
      let (rs, s'') := runChecks pu s' email cs in
      (r :: rs, s'')
  end.

End Otp.

(** ** Data model (prisma schema as used by the handlers) *)
Module Model.

Inductive Role := CLIENT | FREELANCER | ADMIN.

Inductive ProjectStatus :=
| ADMIN_VERIFICATION | OPEN | ASSIGNED | PENDING_COMPLETION | COMPLETED | CANCELLED.

Inductive ApplicationStatus := PENDING | APPROVED | REJECTED.

Inductive RaterType := CLIENT_TO_FREELANCER | FREELANCER_TO_CLIENT.

Scheme Equality for ProjectStatus.
Scheme Equality for ApplicationStatus.
Scheme Equality for RaterType.

Record User := mkUser { u_id : string; u_role : Role; u_isActive : bool }.

Record Freelancer := mkFreelancer {
  f_id : string; f_userId : string; f_availability : bool;
  f_skills : list string; f_ratings : Q; f_projectsCompleted : nat }.

Record Client := mkClient {
  c_id : string; c_userId : string; c_ratings : Q; c_projectsPosted : nat }.

Record Project := mkProject {
  p_id : string; p_clientId : string; p_assignedTo : option string;
  p_status : ProjectStatus; p_rejectedReason : option string }.

Record Application := mkApplication {
  a_id : string; a_projectId : string; a_freelancerId : string;
  a_status : ApplicationStatus }.

Record Rating := mkRating {
  r_id : string; r_projectId : string; r_raterId : string; r_ratedId : string;
  r_raterType : RaterType; r_rating : Z }.

(** The database tables and the Redis cache of the entity views. *)
Record World := mkWorld {
  users : list User; freelancers : list Freelancer; clients : list Client;
  projects : list Project; applications : list Application;
  ratings : list Rating; cache : Cache.Store string }.

Definition set_freelancers w fs :=
  mkWorld (users w) fs (clients w) (projects w) (applications w) (ratings w) (cache w).
Definition set_clients w cs :=
  mkWorld (users w) (freelancers w) cs (projects w) (applications w) (ratings w) (cache w).
Definition set_projects w ps :=
  mkWorld (users w) (freelancers w) (clients w) ps (applications w) (ratings w) (cache w).
Definition set_applications w as_ :=
  mkWorld (users w) (freelancers w) (clients w) (projects w) as_ (ratings w) (cache w).
Definition set_ratings w rs :=
  mkWorld (users w) (freelancers w) (clients w) (projects w) (applications w) rs (cache w).
Definition set_cache w c :=
  mkWorld (users w) (freelancers w) (clients w) (projects w) (applications w) (ratings w) c.

(** *** The handler monad

    A handler reads and writes the world; it finishes by answering
    ([res.status(code).json(...)], possibly as an early [return]) or by
    throwing (a Prisma error, a TypeError), which the route's [catch]
    turns into a 500 answer. *)
Record Response := Resp { code : nat; message : string }.

Inductive Outcome (A : Type) :=
| Done (a : A)
| Respond (r : Response)
| Throw (e : string).
Arguments Done {A}. Arguments Respond {A}. Arguments Throw {A}.

Definition M (A : Type) := World -> Outcome A * World.

Definition ret {A} (a : A) : M A := fun w => (Done a, w).
Definition bind {A B} (m : M A) (k : A -> M B) : M B :=
  fun w => match m w with
           | (Done a, w') => k a w'
           | (Respond r, w') => (Respond r, w')
           | (Throw e, w') => (Throw e, w')
           end.
Definition respond {A} (c : nat) (msg : string) : M A :=
  fun w => (Respond (Resp c msg), w).
Definition throw {A} (e : string) : M A := fun w => (Throw e, w).
Definition gets {A} (f : World -> A) : M A := fun w => (Done (f w), w).
Definition modify (f : World -> World) : M unit := fun w => (Done tt, f w).

Notation "x <- m ;; k" := (bind m (fun x => k))
  (at level 61, m at next level, right associativity).
Notation "m ;;; k" := (bind m (fun _ => k))
  (at level 61, right associativity).

(** [prisma.$transaction(fn)]: a thrown error rolls every write back. *)
Definition transaction {A} (m : M A) : M A :=
  fun w => match m w with
           | (Throw e, _) => (Throw e, w)
           | o => o
           end.

(** The route's [try { ... } catch (error) { res.status(500) ... }]. *)
Definition route (m : M Response) : M Response :=
  fun w => match m w with
           | (Done r, w') => (Done r, w')
           | (Respond r, w') => (Done r, w')
           | (Throw _, w') => (Done (Resp 500 "Internal server error"), w')
           end.

(** A relation field of a query result: absent when the query did not
    [include] it (JavaScript [undefined]), else the related row or null. *)
Inductive Rel (A : Type) := NotIncluded | Included (x : option A).
Arguments NotIncluded {A}. Arguments Included {A}.

(** Reading a property through a relation: TypeError on undefined/null. *)
Definition deref {A} (r : Rel A) : M A :=
  match r with
  | Included (Some x) => ret x
  | _ => throw "TypeError: Cannot read properties of undefined"
  end.

(** *** Prisma queries *)
Definition find_user (w : World) (id : string) : option User :=
  find (fun u => String.eqb (u_id u) id) (users w).
Definition find_freelancer (w : World) (id : string) : option Freelancer :=
  find (fun f => String.eqb (f_id f) id) (freelancers w).
Definition find_freelancer_by_user (w : World) (uid : string) : option Freelancer :=
  find (fun f => String.eqb (f_userId f) uid) (freelancers w).
Definition find_client (w : World) (id : string) : option Client :=
  find (fun c => String.eqb (c_id c) id) (clients w).
Definition find_client_by_user (w : World) (uid : string) : option Client :=
  find (fun c => String.eqb (c_userId c) uid) (clients w).
Definition find_project (w : World) (id : string) : option Project :=
  find (fun p => String.eqb (p_id p) id) (projects w).
Definition find_application (w : World) (id : string) : option Application :=
  find (fun a => String.eqb (a_id a) id) (applications w).

(** [prisma.project.findFirst({ where })] *)
Definition findFirstProject (pred : Project -> bool) : M (option Project) :=
  gets (fun w => find pred (projects w)).
Definition findFirstApplication (pred : Application -> bool)
  : M (option Application) :=
  gets (fun w => find pred (applications w)).

(** [update({ where: { id } })] throws when no row has that id. *)
Definition updateProject (id : string) (f : Project -> Project) : M Project :=
  fun w =>
    match find_project w id with
    | None => (Throw "Record to update not found.", w)
    | Some p =>
        (Done (f p), set_projects w
           (map (fun q => if String.eqb (p_id q) id then f q else q) (projects w)))
    end.

Definition updateManyProjects (pred : Project -> bool) (f : Project -> Project)
  : M nat :=
  fun w => (Done (length (filter pred (projects w))),
            set_projects w (map (fun q => if pred q then f q else q) (projects w))).

Definition updateApplication (id : string) (f : Application -> Application)
  : M Application :=
  fun w =>
    match find_application w id with
    | None => (Throw "Record to update not found.", w)
    | Some a =>
        (Done (f a), set_applications w
           (map (fun b => if String.eqb (a_id b) id then f b else b)
                (applications w)))
    end.

Definition updateManyApplications (pred : Application -> bool)
  (f : Application -> Application) : M nat :=
  fun w => (Done (length (filter pred (applications w))),
            set_applications w
              (map (fun b => if pred b then f b else b) (applications w))).

Definition updateFreelancer (id : string) (f : Freelancer -> Freelancer)
  : M unit :=
  fun w =>
    match find_freelancer w id with
    | None => (Throw "Record to update not found.", w)
    | Some _ =>
        (Done tt, set_freelancers w
           (map (fun g => if String.eqb (f_id g) id then f g else g)
                (freelancers w)))
    end.

Definition updateClient (id : string) (f : Client -> Client) : M unit :=
  fun w =>
    match find_client w id with
    | None => (Throw "Record to update not found.", w)
    | Some _ =>
        (Done tt, set_clients w
           (map (fun g => if String.eqb (c_id g) id then f g else g) (clients w)))
    end.

(** Deleting a batch of cache keys (Promise.all of deleteCache). *)
Definition deleteKeys (ks : list string) : M unit :=
  modify (fun w => set_cache w (Cache.deleteAll (cache w) ks)).

End Model.

(** ** Cache keys: template literals and the page/limit loops *)
Module Keys.

Fixpoint digits (fuel n : nat) (acc : string) : string :=
  match fuel with
  | O => acc
  | S fuel' =>
      let acc' := String (ascii_of_nat (48 + n mod 10)) acc in
      if (n <? 10)%nat then acc' else digits fuel' (n / 10) acc'
  end.

(** [`${n}`] for a natural number. *)
Definition string_of_nat (n : nat) : string := digits (S n) n "".

(** [for (let page = 1; page <= bound; page++) for (let limit of [10, 20, 50])
    cacheKeysToDelete.push(...keys(page, limit))]. *)
Definition grid (bound : nat) (keys : string -> string -> list string)
  : list string :=
  flat_map (fun page =>
    flat_map (fun limit => keys (string_of_nat page) (string_of_nat limit))
             [10; 20; 50]%nat)
    (seq 1 bound).

(** [`${prefix}:status:${status}:page:${page}:limit:${limit}`] *)
Definition paged (prefix status page limit : string) : string :=
  prefix ++ ":status:" ++ status ++ ":page:" ++ page ++ ":limit:" ++ limit.

End Keys.

(** ** Route handlers *)
Module Handlers.
Import Model Keys.

Definition is_status (s : ProjectStatus) (p : Project) : bool :=
  ProjectStatus_beq (p_status p) s.

(** *** Middlewares (middleware/auth.js). The JWT is abstracted to the
    [userId] it decodes to. *)
Definition authenticateToken (userId : string) : M User :=
  u <- gets (fun w => find_user w userId) ;;
  match u with
  | None => respond 401 "Invalid token. User not found."
  | Some u =>
      if negb (u_isActive u) then respond 403 "Your account has been suspended."
      else ret u
  end.

Definition user_isActive (w : World) (uid : string) : option bool :=
  option_map u_isActive (find_user w uid).

Definition checkClientActive (userId : string) : M Client :=
  c <- gets (fun w => find_client_by_user w userId) ;;
  match c with
  | None => respond 404 "Client profile not found"
  | Some c =>
      act <- gets (fun w => user_isActive w (c_userId c)) ;;
      match act with
      | Some true => ret c
      | Some false => respond 403 "Your account has been suspended."
      | None => throw "TypeError: Cannot read properties of null"
      end
  end.

Definition checkFreelancerActive (userId : string) : M Freelancer :=
  f <- gets (fun w => find_freelancer_by_user w userId) ;;
  match f with
  | None => respond 404 "Freelancer profile not found"
  | Some f =>
      act <- gets (fun w => user_isActive w (f_userId f)) ;;
      match act with
      | Some true => ret f
      | Some false => respond 403 "Your account has been suspended."
      | None => throw "TypeError: Cannot read properties of null"
      end
  end.

(** The admin perimeter (authenticateAdmin, requirePermission(['MODERATOR']))
    is abstracted to whether it lets the request through. *)
Definition authenticateAdmin (authorized : bool) : M unit :=
  if authorized then ret tt else respond 403 "Access denied.".

(** [xs.map(x => x.rel.field)]: a TypeError as soon as one is missing. *)
Fixpoint all_some {A} (xs : list (option A)) : option (list A) :=
  match xs with
  | [] => Some []
  | None :: _ => None
  | Some x :: xs => option_map (cons x) (all_some xs)
  end.

Definition is_blank (c : ascii) : bool :=
  match nat_of_ascii c with 32 | 9 | 10 | 13 => true | _ => false end%nat.

Fixpoint trim_start (s : string) : string :=
  match s with
  | EmptyString => EmptyString
  | String c s' => if is_blank c then trim_start s' else s
  end.

Fixpoint rev_string (s : string) (acc : string) : string :=
  match s with
  | EmptyString => acc
  | String c s' => rev_string s' (String c acc)
  end.

(** [String.prototype.trim] over ASCII white space. *)
Definition trim (s : string) : string :=
  rev_string (trim_start (rev_string (trim_start s) "")) "".

(** [if (rejectedReason && rejectedReason.trim().length < 10)] *)
Definition reason_too_short (r : option string) : bool :=
  match r with
  | Some r => negb (String.eqb r "") && (String.length (trim r) <? 10)%nat
  | None => false
  end.

(** *** PATCH /api/admin/projects/:projectId/status *)
Inductive Action := approve | reject.

Definition updateProjectStatus (authorized : bool) (projectId : string)
  (action : option Action) (rejectedReason : option string) : M Response :=
  route (
  authenticateAdmin authorized ;;;
  match action with
  | None => respond 400 "Action must be either approve or reject"
  | Some action =>
  match action, rejectedReason with
  | reject, None => respond 400 "Rejection reason is required when rejecting a project"
  | reject, Some "" => respond 400 "Rejection reason is required when rejecting a project"
  | _, _ =>
  if reason_too_short rejectedReason then
    respond 400 "Rejection reason must be at least 10 characters long"
  else
  project <- gets (fun w => find_project w projectId) ;;
  match project with
  | None => respond 404 "Project not found"
  | Some project =>
  client <- gets (fun w => find_client w (p_clientId project)) ;;
  if negb (is_status ADMIN_VERIFICATION project) then
    respond 400 "Cannot update status."
  else
  let upd := fun p =>
    match action with
    | approve => mkProject (p_id p) (p_clientId p) (p_assignedTo p) OPEN None
    | reject => mkProject (p_id p) (p_clientId p) (p_assignedTo p) CANCELLED
                          (option_map trim rejectedReason)
    end in
  _ <- updateProject projectId upd ;;
  c <- deref (Included client) ;;
  deleteKeys [ "admin:dashboard:stats"; "public:projects:recent";
               "public:featured:projects"; "project:" ++ projectId;
               "client:projects:" ++ p_clientId project;
               "client:dashboard:" ++ c_userId c ] ;;;
  respond 200 "Project status updated successfully"
  end
  end
  end).

(** *** PATCH /api/admin/projects/bulk-status *)
Definition bulkStatus (authorized : bool) (projectIds : list string)
  (action : option Action) (rejectedReason : option string) : M Response :=
  route (
  authenticateAdmin authorized ;;;
  if (length projectIds =? 0)%nat then respond 400 "Project IDs array is required"
  else if (50 <? length projectIds)%nat then
    respond 400 "Cannot update more than 50 projects at once"
  else
  match action with
  | None => respond 400 "Action must be either approve or reject"
  | Some action =>
  match action, rejectedReason with
  | reject, None => respond 400 "Rejection reason is required when rejecting projects"
  | reject, Some "" => respond 400 "Rejection reason is required when rejecting projects"
  | _, _ =>
  if reason_too_short rejectedReason then
    respond 400 "Rejection reason must be at least 10 characters long"
  else
  projects <- gets (fun w => filter (fun p =>
                 existsb (String.eqb (p_id p)) projectIds
                 && is_status ADMIN_VERIFICATION p) (projects w)) ;;
  if (length projects =? 0)%nat then
    respond 400 "No projects found in ADMIN_VERIFICATION status"
  else
  let validProjectIds := map p_id projects in
  let upd := fun p =>
    match action with
    | approve => mkProject (p_id p) (p_clientId p) (p_assignedTo p) OPEN None
    | reject => mkProject (p_id p) (p_clientId p) (p_assignedTo p) CANCELLED
                          (option_map trim rejectedReason)
    end in
  _ <- updateManyProjects
         (fun p => existsb (String.eqb (p_id p)) validProjectIds) upd ;;
  client_users <- gets (fun w =>
     map (fun p => option_map c_userId (find_client w (p_clientId p))) projects) ;;
  client_users <- deref (Included (all_some client_users)) ;;
  deleteKeys ([ "admin:dashboard:stats"; "public:projects:recent";
                "public:featured:projects" ]
              ++ map (fun id => "project:" ++ id) validProjectIds
              ++ map (fun p => "client:projects:" ++ p_clientId p) projects
              ++ map (fun u => "client:dashboard:" ++ u) client_users) ;;;
  respond 200 "Projects updated successfully"
  end
  end).

(** *** POST /api/client/projects *)
Definition createProject (userId : string) (title : option string)
  (newId : string) : M Response :=
  route (
  _ <- authenticateToken userId ;;
  _ <- checkClientActive userId ;;
  match title with
  | None => respond 400 "Project title is required"
  | Some _ =>
  client <- gets (fun w => find_client_by_user w userId) ;;
  match client with
  | None => respond 404 "Client not found"
  | Some client =>
  (* the schema default of [status] is ADMIN_VERIFICATION; the id is the
     one the database generates, a primary key *)
  dup <- gets (fun w => find_project w newId) ;;
  match dup with
  | Some _ => throw "Unique constraint failed on the fields: (`id`)"
  | None =>
  modify (fun w => set_projects w (projects w ++
            [mkProject newId (c_id client) None ADMIN_VERIFICATION None])) ;;;
  updateClient (c_id client) (fun c =>
    mkClient (c_id c) (c_userId c) (c_ratings c) (S (c_projectsPosted c))) ;;;
  deleteKeys ([ "client:profile:" ++ userId; "client:dashboard:" ++ userId;
                "client:projects:" ++ userId; "public:projects:available";
                "public:projects:recent"; "public:featured:projects";
                "admin:dashboard:stats" ]
              ++ map (fun i => "client:projects:" ++ userId ++ ":page:"
                               ++ string_of_nat i) (seq 1 10)
              ++ map (fun i => "public:projects:page:" ++ string_of_nat i)
                     (seq 1 10)) ;;;
  (* deleteCache of the literal keys `client:projects:${userId}:*` and
     `public:projects:*` (Redis DEL does not expand patterns) *)
  deleteKeys [ "client:projects:" ++ userId ++ ":*"; "public:projects:*" ] ;;;
  respond 201 "Project created successfully"
  end
  end
  end).

(** [invalidateClientCaches(userId)]: the key list it deletes. *)
Definition invalidateClientCaches_keys (userId : string) : list string :=
  [ "client:profile:" ++ userId; "client:dashboard:" ++ userId;
    "public:projects:available"; "public:projects:recent";
    "public:featured:projects"; "admin:dashboard:stats" ]
  ++ flat_map (fun status =>
       flat_map (fun page =>
         map (fun limit =>
           paged ("client:projects:" ++ userId) status
                 (string_of_nat page) (string_of_nat limit))
           [10; 20; 50]%nat)
         (seq 1 5))
       ["all"; "OPEN"; "ASSIGNED"; "COMPLETED"].

(** *** PUT /api/client/projects/:projectId/applications/:applicationId/approve

    Split at the transaction: [approveApplication_guard] is everything the
    handler reads and checks before [prisma.$transaction], and
    [approveApplication_commit] the transaction and the cache invalidation. *)
Definition approveApplication_guard (userId projectId applicationId : string)
  : M (Application * string) :=
  _ <- authenticateToken userId ;;
  _ <- checkClientActive userId ;;
  client <- gets (fun w => find_client_by_user w userId) ;;
  match client with
  | None => respond 404 "Client not found"
  | Some client =>
  project <- findFirstProject (fun p =>
               String.eqb (p_id p) projectId && String.eqb (p_clientId p) (c_id client)) ;;
  match project with
  | None => respond 404 "Project not found or you do not have permission to modify it"
  | Some project =>
  if negb (is_status OPEN project) then
    respond 400 "Project is not available for assignment"
  else
  application <- findFirstApplication (fun a =>
                   String.eqb (a_id a) applicationId && String.eqb (a_projectId a) projectId) ;;
  match application with
  | None => respond 404 "Application not found"
  | Some application =>
  if negb (ApplicationStatus_beq (a_status application) PENDING) then
    respond 400 "Application has already been processed"
  else
  (* include: { freelancer: { include: { user } } } *)
  fl <- gets (fun w => find_freelancer w (a_freelancerId application)) ;;
  fl <- deref (Included fl) ;;
  ret (application, f_userId fl)
  end
  end
  end.

Definition approve_keys (userId freelancerUserId : string) : list string :=
  [ "client:dashboard:" ++ userId; "freelancer:dashboard:" ++ freelancerUserId;
    "public:projects:available"; "admin:dashboard:stats" ]
  ++ grid 10 (fun page limit =>
       [ paged ("client:projects:" ++ userId) "all" page limit;
         paged ("client:projects:" ++ userId) "OPEN" page limit;
         paged ("client:projects:" ++ userId) "ASSIGNED" page limit;
         paged ("client:applications:" ++ userId) "all" page limit;
         paged ("client:applications:" ++ userId) "PENDING" page limit;
         paged ("client:applications:" ++ userId) "APPROVED" page limit;
         paged ("client:applications:" ++ userId) "REJECTED" page limit;
         paged ("freelancer:applications:" ++ freelancerUserId) "all" page limit;
         paged ("freelancer:applications:" ++ freelancerUserId) "PENDING" page limit;
         paged ("freelancer:applications:" ++ freelancerUserId) "APPROVED" page limit;
         paged ("freelancer:projects:" ++ freelancerUserId) "all" page limit;
         paged ("freelancer:projects:" ++ freelancerUserId) "ASSIGNED" page limit;
         "freelancer:available:projects:" ++ freelancerUserId
           ++ ":skills:default:budgetMin:any:budgetMax:any:page:" ++ page
           ++ ":limit:" ++ limit ]).

Definition set_app_status (s : ApplicationStatus) (a : Application) : Application :=
  mkApplication (a_id a) (a_projectId a) (a_freelancerId a) s.

Definition assign_to (freelancerId : string) (p : Project) : Project :=
  mkProject (p_id p) (p_clientId p) (Some freelancerId) ASSIGNED (p_rejectedReason p).

Definition approveApplication_commit (userId projectId applicationId : string)
  (application : Application) (freelancerUserId : string) : M Response :=
  _ <- transaction (
         approved <- updateApplication applicationId (set_app_status APPROVED) ;;
         updated <- updateProject projectId (assign_to (a_freelancerId application)) ;;
         _ <- updateManyApplications (fun b =>
                String.eqb (a_projectId b) projectId
                && negb (String.eqb (a_id b) applicationId)
                && ApplicationStatus_beq (a_status b) PENDING)
              (set_app_status REJECTED) ;;
         ret (approved, updated)) ;;
  deleteKeys (approve_keys userId freelancerUserId) ;;;
  respond 200 "Application approved and project assigned successfully".

Definition approveApplication (userId projectId applicationId : string)
  : M Response :=
  route (
  g <- approveApplication_guard userId projectId applicationId ;;
  approveApplication_commit userId projectId applicationId (fst g) (snd g)).

(** *** PUT /api/client/projects/:projectId/applications/:applicationId/reject *)
Definition rejectApplication (userId projectId applicationId : string)
  : M Response :=
  route (
  _ <- authenticateToken userId ;;
  client <- gets (fun w => find_client_by_user w userId) ;;
  match client with
  | None => respond 404 "Client not found"
  | Some client =>
  project <- findFirstProject (fun p =>
               String.eqb (p_id p) projectId && String.eqb (p_clientId p) (c_id client)) ;;
  match project with
  | None => respond 404 "Project not found or you do not have permission to modify it"
  | Some project =>
  application <- findFirstApplication (fun a =>
                   String.eqb (a_id a) applicationId && String.eqb (a_projectId a) projectId) ;;
  match application with
  | None => respond 404 "Application not found"
  | Some application =>
  if negb (ApplicationStatus_beq (a_status application) PENDING) then
    respond 400 "Application has already been processed"
  else
  fl <- gets (fun w => find_freelancer w (a_freelancerId application)) ;;
  fl <- deref (Included fl) ;;
  _ <- updateApplication applicationId (set_app_status REJECTED) ;;
  let freelancerUserId := f_userId fl in
  deleteKeys ([ "client:dashboard:" ++ userId;
                "freelancer:dashboard:" ++ freelancerUserId;
                "admin:dashboard:stats" ]
    ++ grid 10 (fun page limit =>
       [ paged ("client:applications:" ++ userId) "all" page limit;
         paged ("client:applications:" ++ userId) "PENDING" page limit;
         paged ("client:applications:" ++ userId) "REJECTED" page limit;
         paged ("client:project:" ++ projectId ++ ":applications") "all" page limit;
         paged ("client:project:" ++ projectId ++ ":applications") "PENDING" page limit;
         paged ("client:project:" ++ projectId ++ ":applications") "REJECTED" page limit;
         paged ("freelancer:applications:" ++ freelancerUserId) "all" page limit;
         paged ("freelancer:applications:" ++ freelancerUserId) "PENDING" page limit;
         paged ("freelancer:applications:" ++ freelancerUserId) "REJECTED" page limit ]))
  ;;;
  respond 200 "Application rejected successfully"
  end
  end
  end).

(** *** PUT /api/client/projects/:projectId/approve-completion *)
Definition approveCompletion (userId projectId : string) : M Response :=
  route (
  _ <- authenticateToken userId ;;
  client <- gets (fun w => find_client_by_user w userId) ;;
  match client with
  | None => respond 404 "Client not found"
  | Some client =>
  project <- findFirstProject (fun p =>
               String.eqb (p_id p) projectId && String.eqb (p_clientId p) (c_id client)
               && is_status PENDING_COMPLETION p) ;;
  match project with
  | None => respond 404 "Project not found or not pending completion"
  | Some project =>
  (* include: { freelancer: { include: { user } } } *)
  fl <- gets (fun w => match p_assignedTo project with
                       | Some fid => find_freelancer w fid
                       | None => None end) ;;
  _ <- transaction (
         completed <- updateProject projectId (fun p =>
           mkProject (p_id p) (p_clientId p) (p_assignedTo p) COMPLETED
                     (p_rejectedReason p)) ;;
         match p_assignedTo project with
         | None => throw "Argument `where` of type FreelancerWhereUniqueInput needs an id"
         | Some fid =>
             updateFreelancer fid (fun f =>
               mkFreelancer (f_id f) (f_userId f) (f_availability f) (f_skills f)
                            (f_ratings f) (S (f_projectsCompleted f)))
         end ;;;
         ret completed) ;;
  fl <- deref (Included fl) ;;
  let freelancerUserId := f_userId fl in
  deleteKeys ([ "client:dashboard:" ++ userId; "client:profile:" ++ userId;
                "freelancer:dashboard:" ++ freelancerUserId;
                "freelancer:profile:" ++ freelancerUserId;
                "public:featured:freelancers"; "admin:dashboard:stats" ]
    ++ grid 10 (fun page limit =>
       [ paged ("client:projects:" ++ userId) "all" page limit;
         paged ("client:projects:" ++ userId) "PENDING_COMPLETION" page limit;
         paged ("client:projects:" ++ userId) "COMPLETED" page limit;
         paged ("client:projects:" ++ userId) "ASSIGNED" page limit;
         paged ("freelancer:projects:" ++ freelancerUserId) "all" page limit;
         paged ("freelancer:projects:" ++ freelancerUserId) "PENDING_COMPLETION" page limit;
         paged ("freelancer:projects:" ++ freelancerUserId) "COMPLETED" page limit;
         paged ("freelancer:projects:" ++ freelancerUserId) "ASSIGNED" page limit ]))
  ;;;
  respond 200 "Project completion approved successfully."
  end
  end).

Definition rejectCompletion_keys (userId freelancerUserId : string)
  : list string :=
  [ "client:dashboard:" ++ userId; "freelancer:dashboard:" ++ freelancerUserId;
    "admin:dashboard:stats" ]
  ++ grid 10 (fun page limit =>
       [ paged ("client:projects:" ++ userId) "all" page limit;
         paged ("client:projects:" ++ userId) "PENDING_COMPLETION" page limit;
         paged ("client:projects:" ++ userId) "ASSIGNED" page limit;
         paged ("freelancer:projects:" ++ freelancerUserId) "all" page limit;
         paged ("freelancer:projects:" ++ freelancerUserId) "PENDING_COMPLETION" page limit;
         paged ("freelancer:projects:" ++ freelancerUserId) "ASSIGNED" page limit ]).

(** *** PUT /api/client/projects/:projectId/reject-completion

    The project is read by [findFirst] without [include], so its
    [freelancer] relation is [undefined] when the handler builds the cache
    keys from [project.freelancer.user.id]. *)
Definition rejectCompletion (userId projectId : string)
  (rejectionReason : option string) : M Response :=
  route (
  _ <- authenticateToken userId ;;
  match rejectionReason with
  | None | Some "" => respond 400 "Rejection reason is required"
  | Some _ =>
  client <- gets (fun w => find_client_by_user w userId) ;;
  match client with
  | None => respond 404 "Client not found"
  | Some client =>
  project <- findFirstProject (fun p =>
               String.eqb (p_id p) projectId && String.eqb (p_clientId p) (c_id client)
               && is_status PENDING_COMPLETION p) ;;
  match project with
  | None => respond 404 "Project not found or not pending completion"
  | Some project =>
  let project_freelancer : Rel Freelancer := NotIncluded in
  _ <- updateProject projectId (fun p =>
         mkProject (p_id p) (p_clientId p) (p_assignedTo p) ASSIGNED
                   (p_rejectedReason p)) ;;
  fl <- deref project_freelancer ;;
  let freelancerUserId := f_userId fl in
  deleteKeys (rejectCompletion_keys userId freelancerUserId) ;;;
  respond 200 "Project completion request rejected. Freelancer has been notified."
  end
  end
  end).

(** *** PUT /api/freelancer/projects/:projectId/request-completion *)
Definition requestCompletion (userId projectId : string) : M Response :=
  route (
  _ <- authenticateToken userId ;;
  freelancer <- checkFreelancerActive userId ;;
  project <- findFirstProject (fun p =>
               String.eqb (p_id p) projectId
               && match p_assignedTo p with
                  | Some a => String.eqb a (f_id freelancer) | None => false end
               && is_status ASSIGNED p) ;;
  match project with
  | None => respond 404 "Project not found, not assigned to you, or not in correct status"
  | Some project =>
  (* include: { client: { include: { user } } } *)
  client <- gets (fun w => find_client w (p_clientId project)) ;;
  client <- deref (Included client) ;;
  act <- gets (fun w => user_isActive w (c_userId client)) ;;
  act <- deref (Included act) ;;
  if negb act then
    respond 400 "Cannot request completion. Client account is inactive."
  else
  _ <- updateProject projectId (fun p =>
         mkProject (p_id p) (p_clientId p) (p_assignedTo p) PENDING_COMPLETION
                   (p_rejectedReason p)) ;;
  let clientUserId := c_userId client in
  deleteKeys ([ "freelancer:dashboard:" ++ userId; "client:dashboard:" ++ clientUserId;
                "admin:dashboard:stats" ]
    ++ grid 10 (fun page limit =>
       [ paged ("freelancer:projects:" ++ userId) "all" page limit;
         paged ("freelancer:projects:" ++ userId) "ASSIGNED" page limit;
         paged ("freelancer:projects:" ++ userId) "PENDING_COMPLETION" page limit;
         paged ("client:projects:" ++ clientUserId) "all" page limit;
         paged ("client:projects:" ++ clientUserId) "ASSIGNED" page limit;
         paged ("client:projects:" ++ clientUserId) "PENDING_COMPLETION" page limit ]))
  ;;;
  respond 200 "Completion request submitted. Awaiting client approval."
  end).

(** [Array.prototype.join(',')] *)
Fixpoint join (sep : string) (xs : list string) : string :=
  match xs with
  | [] => ""
  | [x] => x
  | x :: xs => x ++ sep ++ join sep xs
  end.

(** [prisma.application.create]: the id is the one the database generates;
    [id] and [(projectId, freelancerId)] are unique. *)
Definition createApplication (a : Application) : M Application :=
  fun w =>
    if existsb (fun b => String.eqb (a_id b) (a_id a)
                         || (String.eqb (a_projectId b) (a_projectId a)
                             && String.eqb (a_freelancerId b) (a_freelancerId a)))
               (applications w)
    then (Throw "Unique constraint failed", w)
    else (Done a, set_applications w (applications w ++ [a])).

Definition find_application_pair (w : World) (projectId freelancerId : string)
  : option Application :=
  find (fun b => String.eqb (a_projectId b) projectId
                 && String.eqb (a_freelancerId b) freelancerId) (applications w).

(** *** POST /api/freelancer/projects/:projectId/apply *)
Definition apply (userId projectId newId : string) : M Response :=
  route (
  _ <- authenticateToken userId ;;
  freelancer <- checkFreelancerActive userId ;;
  if negb (f_availability freelancer) then
    respond 400 "You must be available to apply for projects"
  else
  project <- gets (fun w => find_project w projectId) ;;
  match project with
  | None => respond 404 "Project not found"
  | Some project =>
  (* include: { client: { include: { user: { select: { isActive } } } } } *)
  client <- gets (fun w => find_client w (p_clientId project)) ;;
  client <- deref (Included client) ;;
  act <- gets (fun w => user_isActive w (c_userId client)) ;;
  act <- deref (Included act) ;;
  if negb act then respond 400 "This project is no longer available"
  else if negb (is_status OPEN project) then
    respond 400 "Project is not available for applications"
  else if match p_assignedTo project with Some _ => true | None => false end then
    respond 400 "Project is already assigned"
  else
  existing <- gets (fun w => find_application_pair w projectId (f_id freelancer)) ;;
  match existing with
  | Some _ => respond 400 "You have already applied for this project"
  | None =>
  _ <- createApplication (mkApplication newId projectId (f_id freelancer) PENDING) ;;
  let clientUserId := c_userId client in
  deleteKeys ([ "freelancer:dashboard:" ++ userId; "client:dashboard:" ++ clientUserId;
                "client:projects:" ++ clientUserId;
                "project:" ++ projectId ++ ":applications";
                "public:projects:available"; "admin:dashboard:stats" ]
    ++ grid 10 (fun page limit =>
       [ paged ("freelancer:applications:" ++ userId) "all" page limit;
         paged ("freelancer:applications:" ++ userId) "PENDING" page limit;
         paged ("freelancer:applications:" ++ userId) "APPROVED" page limit;
         paged ("freelancer:applications:" ++ userId) "REJECTED" page limit;
         "freelancer:available:projects:" ++ userId
           ++ ":skills:default:budgetMin:any:budgetMax:any:page:" ++ page
           ++ ":limit:" ++ limit;
         paged ("client:projects:" ++ clientUserId) "all" page limit;
         paged ("client:projects:" ++ clientUserId) "OPEN" page limit;
         paged ("client:applications:" ++ clientUserId) "all" page limit;
         paged ("client:applications:" ++ clientUserId) "PENDING" page limit ])
    ++ (if (0 <? length (f_skills freelancer))%nat then
          grid 5 (fun page limit =>
            [ "freelancer:available:projects:" ++ userId ++ ":skills:"
                ++ join "," (f_skills freelancer)
                ++ ":budgetMin:any:budgetMax:any:page:" ++ page
                ++ ":limit:" ++ limit ])
        else [])) ;;;
  respond 201 "Application submitted successfully"
  end
  end).

(** *** Rating aggregation *)

(** JavaScript numbers are IEEE 754 binary64 values, held here as the
    rationals they denote. [pow2 k] is 2^k. *)
Definition pow2 (k : Z) : Q :=
  if (0 <=? k)%Z then inject_Z (2 ^ k) else 1 # Z.to_pos (2 ^ (- k)).

(** The integer nearest to [x], halves to the even one. *)
Definition round_half_even (x : Q) : Z :=
  let f := Qfloor x in
  match ((x - inject_Z f) ?= (1 # 2))%Q with
  | Lt => f
  | Gt => (f + 1)%Z
  | Eq => if Z.even f then f else (f + 1)%Z
  end.

(** [floor(log2 x)] for [x > 0]. *)
Definition ilog2 (x : Q) : Z :=
  let e := (Z.log2 (Qnum x) - Z.log2 (Zpos (Qden x)))%Z in
  if Qle_bool (pow2 e) x then e else (e - 1)%Z.

(** Rounding of [x > 0] to a 53-bit significand, to nearest, ties to even. *)
Definition round_binary64_pos (x : Q) : Q :=
  let e := (ilog2 x - 52)%Z in
  (inject_Z (round_half_even (x / pow2 e)) * pow2 e)%Q.

(** The binary64 value of an exact result, as every arithmetic operation
    and [parseFloat] of a decimal string return it (round to nearest, ties
    to even). The exponent range is not bounded: the values met here (means
    of integer ratings, two-decimal strings) lie far inside the normal range
    [2^-1022, 2^1024) where this is the IEEE rounding. *)
Definition to_double (x : Q) : Q :=
  match Qnum x with
  | Z0 => 0
  | Zpos _ => round_binary64_pos x
  | Zneg _ => (- round_binary64_pos (- x))%Q
  end.

(** [parseFloat(x.toFixed(2))] for a number [x]. [toFixed(2)] takes the
    integer [n] with [n / 100 - x] closest to zero, the larger one on a tie,
    after moving the sign out ([x < 0] gives ["-"] and [-x]); for
    [|x| >= 10^21] it returns [ToString(x)], which [parseFloat] reads back
    as [x]. [parseFloat] then gives the number nearest to [n / 100]. *)
Definition toFixed2 (x : Q) : Q :=
  if Qle_bool (inject_Z (10 ^ 21)) (Qabs x) then x
  else
    let n := if (Qnum x <? 0)%Z then (- Qfloor (- x * 100 + (1 # 2))%Q)%Z
             else Qfloor (x * 100 + (1 # 2))%Q in
    to_double (n # 100).

(** The sum of the integer ratings: its partial sums are integers, exact
    as numbers (ratings are 1 to 5, far from 2^53). *)
Definition sum_ratings (rs : list Rating) : Z :=
  fold_left (fun sum r => (sum + r_rating r)%Z) rs 0%Z.

(** [rs.reduce((sum, r) => sum + r.rating, 0) / rs.length]: the division
    of two numbers, rounded to binary64. On a well-formed database the list
    holds the Rating row just written, so it is not empty (JavaScript would
    give NaN for [0 / 0], which this model does not represent). *)
Definition average (rs : list Rating) : Q :=
  to_double (inject_Z (sum_ratings rs) / inject_Z (Z.of_nat (length rs)))%Q.

(** [tx.rating.findMany({ where: { ratedId, raterType } })] *)
Definition ratings_of (rs : list Rating) (ratedId : string) (t : RaterType)
  : list Rating :=
  filter (fun r => String.eqb (r_ratedId r) ratedId
                   && RaterType_beq (r_raterType r) t) rs.

Definition findManyRatings (ratedId : string) (t : RaterType) : M (list Rating) :=
  gets (fun w => ratings_of (ratings w) ratedId t).

(** [tx.rating.create]; [id] and [(projectId, raterId, ratedId)] are unique. *)
Definition createRating (r : Rating) : M Rating :=
  fun w =>
    if existsb (fun q => String.eqb (r_id q) (r_id r)
                         || (String.eqb (r_projectId q) (r_projectId r)
                             && String.eqb (r_raterId q) (r_raterId r)
                             && String.eqb (r_ratedId q) (r_ratedId r)))
               (ratings w)
    then (Throw "Unique constraint failed", w)
    else (Done r, set_ratings w (ratings w ++ [r])).

Definition updateRating (id : string) (value : option Z) : M Rating :=
  fun w =>
    match find (fun q => String.eqb (r_id q) id) (ratings w) with
    | None => (Throw "Record to update not found.", w)
    | Some q =>
        let f := fun q => match value with
                          | Some v => mkRating (r_id q) (r_projectId q) (r_raterId q)
                                               (r_ratedId q) (r_raterType q) v
                          | None => q end in
        (Done (f q), set_ratings w
           (map (fun q => if String.eqb (r_id q) id then f q else q) (ratings w)))
    end.

Definition set_f_ratings (v : Q) (f : Freelancer) : Freelancer :=
  mkFreelancer (f_id f) (f_userId f) (f_availability f) (f_skills f) v
               (f_projectsCompleted f).

Definition set_c_ratings (v : Q) (c : Client) : Client :=
  mkClient (c_id c) (c_userId c) v (c_projectsPosted c).

(** The rating in the body, after [parseInt]; 0 stands for a falsy value. *)
Definition rating_out_of_range (rating : Z) : bool :=
  (rating <? 1)%Z || (5 <? rating)%Z.

Definition find_rating_triple (w : World) (projectId raterId ratedId : string)
  : option Rating :=
  find (fun q => String.eqb (r_projectId q) projectId
                 && String.eqb (r_raterId q) raterId
                 && String.eqb (r_ratedId q) ratedId) (ratings w).

Definition assignee (w : World) (p : Project) : option Freelancer :=
  match p_assignedTo p with
  | Some fid => find_freelancer w fid
  | None => None
  end.

(** [update({ where: { id: project.assignedTo } })]: Prisma refuses a null id. *)
Definition updateAssignee (p : Project) (f : Freelancer -> Freelancer) : M unit :=
  match p_assignedTo p with
  | Some fid => updateFreelancer fid f
  | None => throw "Argument `where` of type FreelancerWhereUniqueInput needs an id"
  end.

(** *** POST /api/client/projects/:projectId/rate-freelancer *)
Definition rateFreelancer (userId projectId : string) (rating : Z)
  (newId : string) : M Response :=
  route (
  _ <- authenticateToken userId ;;
  client <- checkClientActive userId ;;
  if rating_out_of_range rating then
    respond 400 "Rating must be between 1 and 5 stars"
  else
  project <- findFirstProject (fun p =>
               String.eqb (p_id p) projectId && String.eqb (p_clientId p) (c_id client)
               && is_status COMPLETED p) ;;
  match project with
  | None => respond 404 "Project not found, not completed, or does not belong to you"
  | Some project =>
  fl <- gets (fun w => assignee w project) ;;
  match fl with
  | None => respond 400 "No freelancer assigned to this project"
  | Some fl =>
  existing <- gets (fun w => find_rating_triple w projectId userId (f_userId fl)) ;;
  match existing with
  | Some _ => respond 400 "You have already rated this freelancer for this project"
  | None =>
  _ <- transaction (
         newRating <- createRating (mkRating newId projectId userId (f_userId fl)
                                             CLIENT_TO_FREELANCER rating) ;;
         freelancerRatings <- findManyRatings (f_userId fl) CLIENT_TO_FREELANCER ;;
         let averageRating := average freelancerRatings in
         updateAssignee project (set_f_ratings (toFixed2 averageRating)) ;;;
         ret newRating) ;;
  deleteKeys ["freelancer:profile:" ++ f_userId fl] ;;;
  deleteKeys ["public:featured:freelancers"] ;;;
  respond 201 "Freelancer rated successfully"
  end
  end
  end).

(** *** PUT /api/client/ratings/:ratingId *)
Definition updateRatingClient (userId ratingId : string) (rating : Z)
  : M Response :=
  route (
  _ <- authenticateToken userId ;;
  _ <- checkClientActive userId ;;
  if negb (rating =? 0)%Z && rating_out_of_range rating then
    respond 400 "Rating must be between 1 and 5 stars"
  else
  existingRating <- gets (fun w => find (fun q =>
                      String.eqb (r_id q) ratingId && String.eqb (r_raterId q) userId
                      && RaterType_beq (r_raterType q) CLIENT_TO_FREELANCER) (ratings w)) ;;
  match existingRating with
  | None => respond 404 "Rating not found or you do not have permission to update it"
  | Some existingRating =>
  (* include: { project: { include: { freelancer: true } } } *)
  project <- gets (fun w => find_project w (r_projectId existingRating)) ;;
  project <- deref (Included project) ;;
  fl <- gets (fun w => assignee w project) ;;
  _ <- transaction (
         updatedRating <- updateRating ratingId
                            (if (rating =? 0)%Z then None else Some rating) ;;
         fl <- deref (Included fl) ;;
         freelancerRatings <- findManyRatings (f_userId fl) CLIENT_TO_FREELANCER ;;
         let averageRating := average freelancerRatings in
         updateAssignee project (set_f_ratings (toFixed2 averageRating)) ;;;
         ret updatedRating) ;;
  fl <- deref (Included fl) ;;
  deleteKeys ["freelancer:profile:" ++ f_userId fl] ;;;
  respond 200 "Rating updated successfully"
  end).

Definition rating_page_keys (freelancerUserId clientUserId : string)
  : list string :=
  grid 10 (fun page limit =>
    [ "freelancer:ratings:" ++ freelancerUserId ++ ":all:page:" ++ page ++ ":limit:" ++ limit;
      "freelancer:ratings:" ++ freelancerUserId ++ ":given:page:" ++ page ++ ":limit:" ++ limit;
      "freelancer:ratings:" ++ freelancerUserId ++ ":received:page:" ++ page ++ ":limit:" ++ limit;
      "client:ratings:" ++ clientUserId ++ ":all:page:" ++ page ++ ":limit:" ++ limit;
      "client:ratings:" ++ clientUserId ++ ":given:page:" ++ page ++ ":limit:" ++ limit;
      "client:ratings:" ++ clientUserId ++ ":received:page:" ++ page ++ ":limit:" ++ limit ]).

(** *** POST /api/freelancer/projects/:projectId/rate-client *)
Definition rateClient (userId projectId : string) (rating : Z) (newId : string)
  : M Response :=
  route (
  _ <- authenticateToken userId ;;
  freelancer <- checkFreelancerActive userId ;;
  if rating_out_of_range rating then
    respond 400 "Rating must be between 1 and 5 stars"
  else
  project <- findFirstProject (fun p =>
               String.eqb (p_id p) projectId
               && match p_assignedTo p with
                  | Some a => String.eqb a (f_id freelancer) | None => false end
               && is_status COMPLETED p) ;;
  match project with
  | None => respond 404 "Project not found, not completed, or not assigned to you"
  | Some project =>
  (* include: { client: { include: { user } } } *)
  client <- gets (fun w => find_client w (p_clientId project)) ;;
  client <- deref (Included client) ;;
  existing <- gets (fun w => find_rating_triple w projectId userId (c_userId client)) ;;
  match existing with
  | Some _ => respond 400 "You have already rated this client for this project"
  | None =>
  _ <- transaction (
         newRating <- createRating (mkRating newId projectId userId (c_userId client)
                                             FREELANCER_TO_CLIENT rating) ;;
         clientRatings <- findManyRatings (c_userId client) FREELANCER_TO_CLIENT ;;
         let averageRating := average clientRatings in
         updateClient (p_clientId project) (set_c_ratings (toFixed2 averageRating)) ;;;
         ret newRating) ;;
  let cu := c_userId client in
  deleteKeys ([ "client:profile:" ++ cu; "client:ratings:" ++ cu ++ ":all";
                "client:ratings:" ++ cu ++ ":received"; "client:ratings:" ++ cu ++ ":given";
                "freelancer:ratings:" ++ userId ++ ":all";
                "freelancer:ratings:" ++ userId ++ ":given";
                "freelancer:ratings:" ++ userId ++ ":received";
                "public:user:" ++ cu ++ ":ratings"; "public:featured:freelancers";
                "public:featured:clients"; "admin:dashboard:stats" ]
              ++ rating_page_keys userId cu) ;;;
  respond 201 "Client rated successfully"
  end
  end).

(** *** PUT /api/freelancer/ratings/:ratingId *)
Definition updateRatingFreelancer (userId ratingId : string) (rating : Z)
  : M Response :=
  route (
  _ <- authenticateToken userId ;;
  _ <- checkFreelancerActive userId ;;
  if negb (rating =? 0)%Z && rating_out_of_range rating then
    respond 400 "Rating must be between 1 and 5 stars"
  else
  existingRating <- gets (fun w => find (fun q =>
                      String.eqb (r_id q) ratingId && String.eqb (r_raterId q) userId
                      && RaterType_beq (r_raterType q) FREELANCER_TO_CLIENT) (ratings w)) ;;
  match existingRating with
  | None => respond 404 "Rating not found or you do not have permission to update it"
  | Some existingRating =>
  (* include: { project: { include: { client: true } } } *)
  project <- gets (fun w => find_project w (r_projectId existingRating)) ;;
  project <- deref (Included project) ;;
  client <- gets (fun w => find_client w (p_clientId project)) ;;
  _ <- transaction (
         updatedRating <- updateRating ratingId
                            (if (rating =? 0)%Z then None else Some rating) ;;
         client <- deref (Included client) ;;
         clientRatings <- findManyRatings (c_userId client) FREELANCER_TO_CLIENT ;;
         let averageRating := average clientRatings in
         updateClient (p_clientId project) (set_c_ratings (toFixed2 averageRating)) ;;;
         ret updatedRating) ;;
  client <- deref (Included client) ;;
  let cu := c_userId client in
  deleteKeys ([ "client:profile:" ++ cu; "public:user:" ++ cu ++ ":ratings";
                "public:featured:freelancers"; "public:featured:clients" ]
              ++ rating_page_keys userId cu) ;;;
  respond 200 "Rating updated successfully"
  end).

End Handlers.

(** ** Requests in flight

    Node runs many requests at once; the awaits of a handler are the points
    where another request's database work can come in between. The
    approve-application handler is modelled at the grain of its two parts:
    the reads and checks before [prisma.$transaction], then the transaction
    with the cache invalidation. Any schedule of these steps is a schedule
    of the finer-grained awaits. *)
Module Concurrency.
Import Model Handlers.

Inductive Thread :=
| T_start (userId projectId applicationId : string)
| T_guarded (userId projectId applicationId : string) (g : Application * string)
| T_done (r : Response).

Definition finish (o : Outcome Response) : Response :=
  match o with
  | Done r | Respond r => r
  | Throw _ => Resp 500 "Internal server error"
  end.

Definition step_thread (t : Thread) (w : World) : Thread * World :=
  match t with
  | T_start u p a =>
      match approveApplication_guard u p a w with
      | (Done g, w') => (T_guarded u p a g, w')
      | (Respond r, w') => (T_done r, w')
      | (Throw _, w') => (T_done (Resp 500 "Internal server error"), w')
      end
  | T_guarded u p a g =>
      let (o, w') := approveApplication_commit u p a (fst g) (snd g) w in
      (T_done (finish o), w')
  | T_done _ => (t, w)
  end.

Definition replace_nth {A} (i : nat) (x : A) (xs : list A) : list A :=
  firstn i xs ++ x :: skipn (S i) xs.

(** Run a schedule: the i-th entry says which request moves next. *)
Fixpoint run (sched : list nat) (ts : list Thread) (w : World)
  : list Thread * World :=
  match sched with
  | [] => (ts, w)
  | i :: sched' =>
      match nth_error ts i with
      | None => run sched' ts w
      | Some t => let (t', w') := step_thread t w in
                  run sched' (replace_nth i t' ts) w'
      end
  end.

End Concurrency.

(** ** The operations that write projects or applications

    Together with the rating operations these are all the handlers that
    write the Project or Application tables; the meeting, profile and
    featured-flag handlers write neither. *)
Module System.
Import Model Handlers.

Inductive Op :=
| OpCreateProject (userId : string) (title : option string) (newId : string)
| OpUpdateProjectStatus (authorized : bool) (projectId : string)
    (action : option Action) (reason : option string)
| OpBulkStatus (authorized : bool) (projectIds : list string)
    (action : option Action) (reason : option string)
| OpApply (userId projectId newId : string)
| OpRejectApplication (userId projectId applicationId : string)
| OpApproveApplication (userId projectId applicationId : string)
| OpRequestCompletion (userId projectId : string)
| OpApproveCompletion (userId projectId : string)
| OpRejectCompletion (userId projectId : string) (reason : option string)
| OpRateFreelancer (userId projectId : string) (rating : Z) (newId : string)
| OpUpdateRatingClient (userId ratingId : string) (rating : Z)
| OpRateClient (userId projectId : string) (rating : Z) (newId : string)
| OpUpdateRatingFreelancer (userId ratingId : string) (rating : Z).

Definition exec (op : Op) : M Response :=
  match op with
  | OpCreateProject u t n => createProject u t n
  | OpUpdateProjectStatus a p act r => updateProjectStatus a p act r
  | OpBulkStatus a ps act r => bulkStatus a ps act r
  | OpApply u p n => apply u p n
  | OpRejectApplication u p a => rejectApplication u p a
  | OpApproveApplication u p a => approveApplication u p a
  | OpRequestCompletion u p => requestCompletion u p
  | OpApproveCompletion u p => approveCompletion u p
  | OpRejectCompletion u p r => rejectCompletion u p r
  | OpRateFreelancer u p r n => rateFreelancer u p r n
  | OpUpdateRatingClient u i r => updateRatingClient u i r
  | OpRateClient u p r n => rateClient u p r n
  | OpUpdateRatingFreelancer u i r => updateRatingFreelancer u i r
  end.

(** The number of APPROVED applications of a project. *)
Definition approved_count (w : World) (projectId : string) : nat :=
  length (filter (fun a => String.eqb (a_projectId a) projectId
                           && ApplicationStatus_beq (a_status a) APPROVED)
                 (applications w)).

Definition assigned_or_later (s : ProjectStatus) : bool :=
  match s with
  | ASSIGNED | PENDING_COMPLETION | COMPLETED => true
  | _ => false
  end.

(** At most one APPROVED application per project, and one exists iff the
    project is ASSIGNED, PENDING_COMPLETION or COMPLETED. *)
Definition approved_inv (w : World) : Prop :=
  forall p, In p (projects w) ->
    approved_count w (p_id p) <= 1 /\
    (approved_count w (p_id p) = 1 <-> assigned_or_later (p_status p) = true).

(** The database's own guarantees the invariant rests on: primary keys are
    unique and every application references an existing project. *)
Definition db_wf (w : World) : Prop :=
  NoDup (map p_id (projects w)) /\ NoDup (map a_id (applications w)) /\
  Forall (fun a => In (a_projectId a) (map p_id (projects w))) (applications w).

(** The invariant and the database guarantees over the two tables alone. *)
Definition count_l (l : list Application) (projectId : string) : nat :=
  length (filter (fun a => String.eqb (a_projectId a) projectId
                           && ApplicationStatus_beq (a_status a) APPROVED) l).

Definition inv_l (ps : list Project) (l : list Application) : Prop :=
  (forall p, In p ps ->
     count_l l (p_id p) <= 1 /\
     (count_l l (p_id p) = 1 <-> assigned_or_later (p_status p) = true)) /\
  NoDup (map p_id ps) /\ NoDup (map a_id l) /\
  Forall (fun a => In (a_projectId a) (map p_id ps)) l.

(** The project a lifecycle transition targets (every row with its id) is
    not in the status the transition requires. *)
Definition project_status_is_not (w : World) (projectId : string)
  (s : ProjectStatus) : Prop :=
  forall q, In q (projects w) -> p_id q = projectId -> p_status q <> s.

Definition application_status_is_not (w : World) (applicationId : string)
  (s : ApplicationStatus) : Prop :=
  forall b, In b (applications w) -> a_id b = applicationId -> a_status b <> s.

(** The lifecycle transitions and the status each one requires: admin
    approve/reject (ADMIN_VERIFICATION), approve application (an OPEN
    project and a PENDING application), request completion (ASSIGNED),
    approve and reject completion (PENDING_COMPLETION). *)
Definition status_mismatch (w : World) (op : Op) : Prop :=
  match op with
  | OpUpdateProjectStatus _ projectId _ _ =>
      project_status_is_not w projectId ADMIN_VERIFICATION
  | OpApproveApplication _ projectId applicationId =>
      project_status_is_not w projectId OPEN
      \/ application_status_is_not w applicationId PENDING
  | OpRequestCompletion _ projectId => project_status_is_not w projectId ASSIGNED
  | OpApproveCompletion _ projectId =>
      project_status_is_not w projectId PENDING_COMPLETION
  | OpRejectCompletion _ projectId _ =>
      project_status_is_not w projectId PENDING_COMPLETION
  | _ => False
  end.

(** The conditions under which the specification lets a freelancer apply
    to a project, read from its text, together with the calling
    freelancer's own account being active: available, the project exists,
    is OPEN and unassigned, its client's account is active, and no
    application of the same (projectId, freelancerId) pair exists. *)
Definition apply_allowed (w : World) (userId projectId : string) : bool :=
  match find_user w userId, find_freelancer_by_user w userId with
  | Some u, Some f =>
      u_isActive u && f_availability f &&
      match find_project w projectId with
      | Some p =>
          is_status OPEN p
          && match p_assignedTo p with None => true | Some _ => false end
          && match find_client w (p_clientId p) with
             | Some c => match user_isActive w (c_userId c) with
                         | Some b => b
                         | None => false
                         end
             | None => false
             end
          && match find_application_pair w projectId (f_id f) with
             | None => true
             | Some _ => false
             end
      | None => false
      end
  | _, _ => false
  end.

(** The Rating row a rating operation creates or updates. *)
Definition rating_op_id (op : Op) : option string :=
  match op with
  | OpRateFreelancer _ _ _ newId | OpRateClient _ _ _ newId => Some newId
  | OpUpdateRatingClient _ ratingId _ | OpUpdateRatingFreelancer _ ratingId _ =>
      Some ratingId
  | _ => None
  end.

(** The [ratings] field of the profile of user [uid] the direction [t]
    rates: the freelancer's for CLIENT_TO_FREELANCER, the client's for
    FREELANCER_TO_CLIENT. *)
Definition stored_rating (w : World) (t : RaterType) (uid : string) : option Q :=
  match t with
  | CLIENT_TO_FREELANCER => option_map f_ratings (find_freelancer_by_user w uid)
  | FREELANCER_TO_CLIENT => option_map c_ratings (find_client_by_user w uid)
  end.

(** What the database holds for the ratings: one profile per user
    ([userId] is unique on both profile tables), and every rating names as
    its rated user the assignee (client to freelancer) or the client
    (freelancer to client) of its project, as [rate-freelancer] and
    [rate-client] create them. *)
Definition rating_wf (w : World) : Prop :=
  NoDup (map f_userId (freelancers w)) /\ NoDup (map c_userId (clients w)) /\
  forall rt, In rt (ratings w) ->
    exists p, find_project w (r_projectId rt) = Some p /\
      match r_raterType rt with
      | CLIENT_TO_FREELANCER =>
          exists g, assignee w p = Some g /\ f_userId g = r_ratedId rt
      | FREELANCER_TO_CLIENT =>
          exists c, find_client w (p_clientId p) = Some c /\ c_userId c = r_ratedId rt
      end.

(** The database after the approval transaction. *)
Definition approved_apps (projectId applicationId : string) (l : list Application)
  : list Application :=
  map (fun b => if String.eqb (a_id b) applicationId then set_app_status APPROVED b
                else if String.eqb (a_projectId b) projectId
                        && ApplicationStatus_beq (a_status b) PENDING
                     then set_app_status REJECTED b
                     else b) l.

Definition assigned_projects (projectId freelancerId : string) (l : list Project)
  : list Project :=
  map (fun q => if String.eqb (p_id q) projectId then assign_to freelancerId q else q) l.

(** The answers of the approve-application handler. *)
Definition approved_ok :=
  Resp 200 "Application approved and project assigned successfully".
Definition not_open := Resp 400 "Project is not available for assignment".

End System.

(** ** Concrete worlds used by the examples below *)
Module Scenarios.
Import Model Otp.

Definition otp_fresh : Cache.Store OtpData :=
  storeOTP [] "dev@example.com" "123456" "client".

(** The entry after two wrong codes. *)
Definition otp_two_wrong : Cache.Store OtpData :=
  snd (runChecks (PasswordReset "client") otp_fresh "dev@example.com"
                 ["000000"; "111111"]).

(** The fresh entry 500 seconds later: 100 seconds left. *)
Definition otp_aged : Cache.Store OtpData := Cache.elapse otp_fresh 500.

Definition uClient := mkUser "uc" CLIENT true.
Definition uClientSuspended := mkUser "uc" CLIENT false.
Definition uF1 := mkUser "u1" FREELANCER true.
Definition uF2 := mkUser "u2" FREELANCER true.
Definition uF2Suspended := mkUser "u2" FREELANCER false.
Definition fl1 := mkFreelancer "f1" "u1" true [] 0%Q 0.
Definition fl2 := mkFreelancer "f2" "u2" true ["rocq"] 0%Q 0.
Definition cl1 := mkClient "c1" "uc" 0%Q 1.

Definition app1 := mkApplication "a1" "p1" "f1" PENDING.
Definition app2 := mkApplication "a2" "p1" "f2" PENDING.

(** An OPEN project with two PENDING applications. *)
Definition w_open : World :=
  mkWorld [uClient; uF1; uF2] [fl1; fl2] [cl1]
          [mkProject "p1" "c1" None OPEN None] [app1; app2] [] [].

(** The same world with the client's account suspended. *)
Definition w_open_suspended : World :=
  mkWorld [uClientSuspended; uF1; uF2] [fl1; fl2] [cl1]
          [mkProject "p1" "c1" None OPEN None] [app1; app2] [] [].

(** An OPEN project without applications yet; freelancer u2 is suspended. *)
Definition w_apply : World :=
  mkWorld [uClient; uF1; uF2Suspended] [fl1; fl2] [cl1]
          [mkProject "p1" "c1" None OPEN None] [] [] [].

Definition key_listed := "client:projects:uc:status:ASSIGNED:page:1:limit:10".
Definition key_beyond := "client:projects:uc:status:ASSIGNED:page:11:limit:10".

(** Project p1 assigned to f1 and waiting for the client's decision on
    completion; two list pages of the client are cached. *)
Definition w_pending_completion : World :=
  mkWorld [uClient; uF1; uF2] [fl1; fl2] [cl1]
          [mkProject "p1" "c1" (Some "f1") PENDING_COMPLETION None]
          [mkApplication "a1" "p1" "f1" APPROVED; mkApplication "a2" "p1" "f2" REJECTED]
          [] [(key_listed, ("[]", 120)); (key_beyond, ("[]", 120))].

(** p1 COMPLETED, rated 4 by its client earlier; the rating r1 exists. *)
Definition w_completed : World :=
  mkWorld [uClient; uF1; uF2] [fl1; fl2] [cl1]
          [mkProject "p1" "c1" (Some "f1") COMPLETED None]
          [mkApplication "a1" "p1" "f1" APPROVED]
          [mkRating "r1" "p1" "uc" "u1" CLIENT_TO_FREELANCER 4] [].

(** Forty completed projects of client [c1], all assigned to [f1]; the
    first thirty-nine already carry a rating 1 of [f1] by the client. *)
Definition forty_projects : list Project :=
  map (fun n => mkProject ("q" ++ Keys.string_of_nat n) "c1" (Some "f1")
                          COMPLETED None) (seq 1 40).
Definition thirty_nine_ones : list Rating :=
  map (fun n => mkRating ("r" ++ Keys.string_of_nat n)
                         ("q" ++ Keys.string_of_nat n) "uc" "u1"
                         CLIENT_TO_FREELANCER 1) (seq 1 39).
Definition w_forty : World :=
  mkWorld [uClient; uF1] [fl1] [cl1] forty_projects [] thirty_nine_ones [].

End Scenarios.

(** ** The validators' regular expressions

    A regular expression anchored at both ends is run as a backtracking
    matcher in continuation style: each piece consumes a prefix of the
    input and hands the rest to its continuation [k]; the pattern matches
    when some way of splitting the input lets every piece succeed.
    Strings are sequences of 8-bit characters read as Latin-1 code points. *)
Module Regex.

(** [X+]: one or more characters satisfying [f], then [k]. *)
Fixpoint plus_then (f : ascii -> bool) (k : string -> bool) (s : string) : bool :=
  match s with
  | EmptyString => false
  | String c s' => f c && (k s' || plus_then f k s')
  end.

(** A literal character, then [k]. *)
Definition char_then (c0 : ascii) (k : string -> bool) (s : string) : bool :=
  match s with
  | String c s' => Ascii.eqb c c0 && k s'
  | EmptyString => false
  end.

(** [X{n}]: exactly [n] characters satisfying [f], then [k]. *)
Fixpoint times_then (n : nat) (f : ascii -> bool) (k : string -> bool)
  (s : string) : bool :=
  match n with
  | O => k s
  | S n' =>
      match s with
      | String c s' => f c && times_then n' f k s'
      | EmptyString => false
      end
  end.

(** [$] *)
Definition end_of_input (s : string) : bool :=
  match s with EmptyString => true | _ => false end.

(** [\s] on Latin-1: tab, line feed, vertical tab, form feed, carriage
    return, space and no-break space. *)
Definition is_space (c : ascii) : bool :=
  let n := nat_of_ascii c in
  (((9 <=? n) && (n <=? 13)) || (n =? 32) || (n =? 160))%nat.

(** [\d] *)
Definition is_digit (c : ascii) : bool :=
  let n := nat_of_ascii c in ((48 <=? n) && (n <=? 57))%nat.

(** [[^\s@]] *)
Definition not_space_at (c : ascii) : bool :=
  negb (is_space c) && negb (Ascii.eqb c "@"%char).

(** isValidEmail: /^[^\s@]+@[^\s@]+\.[^\s@]+$/.test(email). *)
Definition isValidEmail (email : string) : bool :=
  plus_then not_space_at
    (char_then "@"%char
      (plus_then not_space_at
        (char_then "."%char
          (plus_then not_space_at end_of_input)))) email.

(** /^\d{6}$/.test(otp) *)
Definition six_digits (s : string) : bool :=
  times_then 6 is_digit end_of_input s.

End Regex.

(** ** OTP generation (generateOTP, generateEmailVerificationOTP)

    [rnd] is the value Math.random() returned, a number in [0, 1); the
    arithmetic on it is exact. *)
Module OtpCode.

(** Decimal digits of a non-negative integer, most significant first. *)
Fixpoint digitsZ (fuel : nat) (z : Z) (acc : string) : string :=
  match fuel with
  | O => acc
  | S fuel' =>
      let acc' := String (ascii_of_nat (48 + Z.to_nat (z mod 10))) acc in
      if (z <? 10)%Z then acc' else digitsZ fuel' (z / 10) acc'
  end.

(** Number.prototype.toString() of an integral value (a decimal numeral
    has at most as many digits as the binary one). *)
Definition string_of_Z (z : Z) : string :=
  if (z <? 0)%Z
  then "-" ++ digitsZ (S (Z.to_nat (Z.log2 (- z)))) (- z) ""
  else digitsZ (S (Z.to_nat (Z.log2 z))) z "".

(** Math.floor(100000 + Math.random() * 900000).toString() *)
Definition generateOTP (rnd : Q) : string :=
  string_of_Z (Qfloor (100000 + rnd * 900000)%Q).

Definition generateEmailVerificationOTP (rnd : Q) : string :=
  string_of_Z (Qfloor (100000 + rnd * 900000)%Q).

End OtpCode.

(** ** Accounts: signup, login and the password reset

    The client controller (src/client/client.js) and the freelancer
    controller (src/unnamed/part_002) have the same login, forgotPassword
    and verifyOTPEndpoint, up to the role, the userType of the OTP key,
    the login cache prefix and some messages: they are one definition
    here, indexed by the [Side]. The email verification controller of
    src/redis.config.js reads the same user table and Redis. *)
Module Accounts.
Import Cache Otp Model Regex OtpCode.

(** A bcrypt hash of the password [plain] ([bcrypt.hash(plain, 12)]);
    salt and cost are not observable by these handlers. *)
Inductive Secret := Hashed (plain : string).

(** The first [n] characters of the endless repetition of [full], the
    repetition having reached [rest]. *)
Fixpoint cycle_take (n : nat) (full rest : string) : string :=
  match n with
  | O => ""
  | S n' =>
      match rest with
      | String c r => String c (cycle_take n' full r)
      | EmptyString =>
          match full with
          | String c r => String c (cycle_take n' full r)
          | EmptyString => ""
          end
      end
  end.

(** The Blowfish key that bcryptjs derives from a password (a string
    stands for its UTF-8 bytes): the password with a terminating zero byte
    (hash versions 2a and 2b), read cyclically as 18 32-bit words, that is
    its first 72 bytes repeated. Two passwords with the same key have the
    same hashes. *)
Definition bcrypt_key (p : string) : string :=
  let k := (p ++ String Ascii.zero "")%string in cycle_take 72 k k.
Arguments bcrypt_key p : simpl never.

(** [bcrypt.compare(p, h)]: the hash of [p] under the salt and cost of [h]
    equals [h]. *)
Definition secret_eqb (a b : Secret) : bool :=
  match a, b with Hashed x, Hashed y => String.eqb (bcrypt_key x) (bcrypt_key y) end.

(** A user row as these handlers read and write it. *)
Record Account := mkAccount {
  ac_id : string; ac_email : string; ac_role : Role; ac_isActive : bool;
  ac_password : Secret }.

(** The user table, the userIds that have a client row, and Redis. The
    OTP records, the rate-limit flags (always [true] when present) and
    the login caches live under keys of distinct prefixes; each family
    is kept in its own store. *)
Record AuthWorld := mkAuthWorld {
  accounts : list Account; clientUsers : list string;
  otps : Store OtpData; flags : Store bool; logins : Store string }.

Definition set_accounts w a :=
  mkAuthWorld a (clientUsers w) (otps w) (flags w) (logins w).
Definition set_clientUsers w c :=
  mkAuthWorld (accounts w) c (otps w) (flags w) (logins w).
Definition set_otps w o :=
  mkAuthWorld (accounts w) (clientUsers w) o (flags w) (logins w).
Definition set_flags w f :=
  mkAuthWorld (accounts w) (clientUsers w) (otps w) f (logins w).
Definition set_logins w l :=
  mkAuthWorld (accounts w) (clientUsers w) (otps w) (flags w) l.

(** [n] seconds elapse for every Redis key. *)
Definition tick (w : AuthWorld) (n : nat) : AuthWorld :=
  mkAuthWorld (accounts w) (clientUsers w) (elapse (otps w) n)
              (elapse (flags w) n) (elapse (logins w) n).

(** prisma.user.findUnique({ where: { email } }) *)
Definition findByEmail (w : AuthWorld) (email : string) : option Account :=
  find (fun a => String.eqb (ac_email a) email) (accounts w).

Definition is_role (r : Role) (a : Account) : bool :=
  match ac_role a, r with
  | CLIENT, CLIENT | FREELANCER, FREELANCER | ADMIN, ADMIN => true
  | _, _ => false
  end.

(** A request body field: [None] is undefined; [!v] holds for [None]
    and for the empty string. *)
Definition blank (v : string) : bool := String.eqb v "".

Inductive Side := ClientSide | FreelancerSide.

Definition side_role (s : Side) : Role :=
  match s with ClientSide => CLIENT | FreelancerSide => FREELANCER end.

Definition side_userType (s : Side) : string :=
  match s with ClientSide => "CLIENT" | FreelancerSide => "FREELANCER" end.

Definition side_login_key (s : Side) (email : string) : string :=
  match s with
  | ClientSide => "client:login:" ++ email
  | FreelancerSide => "freelancer:login:" ++ email
  end.

Definition side_generic (s : Side) : string :=
  match s with
  | ClientSide =>
      "If a client account with this email exists, you will receive an OTP shortly."
  | FreelancerSide =>
      "If a freelancer account with this email exists, you will receive an OTP shortly."
  end.

Definition side_not_found (s : Side) : string :=
  match s with
  | ClientSide => "Client account not found"
  | FreelancerSide => "Freelancer account not found"
  end.

Definition side_bad_login (s : Side) : string :=
  match s with
  | ClientSide => "Invalid credentials or not a client account"
  | FreelancerSide => "Invalid credentials or not a freelancer account"
  end.

Definition rate_limit_key (s : Side) (email : string) : string :=
  "password_reset_rate_limit:" ++ side_userType s ++ ":" ++ email.

Definition msg_invalid_email := "Please provide a valid email address".
Definition msg_suspended := "Account is suspended. Please contact support.".
Definition msg_rate :=
  "OTP already sent. Please wait 2 minutes before requesting again.".
Definition msg_500 := "Internal server error. Please try again later.".
Definition msg_required4 :=
  "Email, OTP, new password, and confirm password are required".
Definition msg_six := "OTP must be 6 digits".
Definition msg_reset_ok :=
  "OTP verified and password reset successfully. You are now logged in.".

(** isOTPVerified: [data && data.verified === true]. *)
Definition isOTPVerified (s : Store OtpData) (email userType : string) : bool :=
  match getCache s (reset_key email userType) with
  | Some d => verified d
  | None => false
  end.

(** invalidateOTP *)
Definition invalidateOTP (s : Store OtpData) (email userType : string)
  : Store OtpData :=
  deleteCache s (reset_key email userType).

(** storeEmailVerificationOTP: a fresh record, 600 seconds. *)
Definition storeEmailVerificationOTP (s : Store OtpData) (email code : string)
  : Store OtpData :=
  setCache s (email_key email) (mkOtp code 0 false) 600.

(** isEmailOTPVerified *)
Definition isEmailOTPVerified (s : Store OtpData) (email : string) : bool :=
  match getCache s (email_key email) with
  | Some d => verified d
  | None => false
  end.

(** invalidateEmailVerificationOTP *)
Definition invalidateEmailVerificationOTP (s : Store OtpData) (email : string)
  : Store OtpData :=
  deleteCache s (email_key email).

(** *** POST /api/client/signup, for a request without a profile image
    file. The new user row gets the id [newId] and isActive [true] (the
    column default); the client row is recorded by its userId. *)
Definition signup (name email password : option string) (newId : string)
  (w : AuthWorld) : Response * AuthWorld :=
  match name, email, password with
  | Some name, Some email, Some password =>
    if blank name || blank email || blank password then
      (Resp 400 "Name, email, and password are required", w)
    else if negb (isValidEmail email) then (Resp 400 msg_invalid_email, w)
    else if (String.length password <? 6)%nat then
      (Resp 400 "Password must be at least 6 characters long", w)
    else
    match findByEmail w email with
    | Some _ => (Resp 400 "User with this email already exists", w)
    | None =>
        let user := mkAccount newId email CLIENT true (Hashed password) in
        (Resp 201 "Client account created successfully",
         set_clientUsers (set_accounts w (accounts w ++ [user]))
                         (clientUsers w ++ [newId]))
    end
  | _, _, _ => (Resp 400 "Name, email, and password are required", w)
  end.

(** *** POST /api/{client,freelancer}/login. The answer carries, besides
    the response, the id of the user whose login data (user and token)
    it returns; the login cache stores that data under the email. *)
Definition login (side : Side) (email password : string) (w : AuthWorld)
  : (Response * option string) * AuthWorld :=
  let cacheKey := side_login_key side email in
  match getCache (logins w) cacheKey with
  | Some cachedUser => ((Resp 200 "Login successful", Some cachedUser), w)
  | None =>
    match findByEmail w email with
    | None => ((Resp 401 (side_bad_login side), None), w)
    | Some user =>
      if negb (is_role (side_role side) user) then
        ((Resp 401 (side_bad_login side), None), w)
      else if negb (secret_eqb (Hashed password) (ac_password user)) then
        ((Resp 401 "Invalid credentials", None), w)
      else
        ((Resp 200 "Login successful", Some (ac_id user)),
         set_logins w (setCache (logins w) cacheKey (ac_id user) 600))
    end
  end.

(** *** POST /api/{client,freelancer}/forgot-password. [rnd] is the value
    of Math.random() in generateOTP; [mailOk] whether sendOTPEmail's
    transporter.sendMail succeeded (a rejection reaches the catch, which
    answers 500; the writes before it stay). *)
Definition forgotPassword (side : Side) (email : option string) (rnd : Q)
  (mailOk : bool) (w : AuthWorld) : Response * AuthWorld :=
  match email with
  | None => (Resp 400 "Email is required", w)
  | Some email =>
  if blank email then (Resp 400 "Email is required", w) else
  if negb (isValidEmail email) then (Resp 400 msg_invalid_email, w) else
  match findByEmail w email with
  | None => (Resp 200 (side_generic side), w)
  | Some user =>
  if negb (is_role (side_role side) user) then (Resp 200 (side_generic side), w)
  else if negb (ac_isActive user) then (Resp 400 msg_suspended, w)
  else
  let rateLimitKey := rate_limit_key side email in
  match getCache (flags w) rateLimitKey with
  | Some true => (Resp 429 msg_rate, w)
  | _ =>
      let otp := generateOTP rnd in
      let w1 := set_otps w (storeOTP (otps w) email otp (side_userType side)) in
      let w2 := set_flags w1 (setCache (flags w1) rateLimitKey true 120) in
      if mailOk then (Resp 200 (side_generic side), w2) else (Resp 500 msg_500, w2)
  end
  end
  end.

(** *** POST /api/{client,freelancer}/verify-otp. The confirmation mail
    is sent without waiting for it; its failure is only logged. *)
Definition verifyOTPEndpoint (side : Side)
  (email otp newPassword confirmPassword : option string) (w : AuthWorld)
  : Response * AuthWorld :=
  match email, otp, newPassword, confirmPassword with
  | Some email, Some otp, Some newPassword, Some confirmPassword =>
    if blank email || blank otp || blank newPassword || blank confirmPassword
    then (Resp 400 msg_required4, w)
    else if negb (isValidEmail email) then (Resp 400 msg_invalid_email, w)
    else if negb (String.length otp =? 6)%nat || negb (six_digits otp)
    then (Resp 400 msg_six, w)
    else if negb (String.eqb newPassword confirmPassword)
    then (Resp 400 "Passwords do not match", w)
    else if (String.length newPassword <? 6)%nat
    then (Resp 400 "Password must be at least 6 characters long", w)
    else
    let (verification, s1) := verifyOTP (otps w) email otp (side_userType side) in
    let w1 := set_otps w s1 in
    match verification with
    | Invalid error => (Resp 400 error, w1)
    | Valid _ =>
      match findByEmail w1 email with
      | None => (Resp 404 (side_not_found side), w1)
      | Some user =>
        if negb (is_role (side_role side) user) then (Resp 404 (side_not_found side), w1)
        else if negb (ac_isActive user) then (Resp 400 msg_suspended, w1)
        else
        let w2 := set_accounts w1
                    (map (fun a => if String.eqb (ac_id a) (ac_id user)
                                   then mkAccount (ac_id a) (ac_email a) (ac_role a)
                                                  (ac_isActive a) (Hashed newPassword)
                                   else a) (accounts w1)) in
        let w3 := set_otps w2 (invalidateOTP (otps w2) email (side_userType side)) in
        let w4 := set_logins w3 (deleteCache (logins w3) (side_login_key side email)) in
        (Resp 200 msg_reset_ok, w4)
      end
    end
  | _, _, _, _ => (Resp 400 msg_required4, w)
  end.

(** *** Email verification before registration (src/redis.config.js) *)

(** checkEmailRegistration: the userType of the registered email, if any. *)
Definition registration_userType (r : Role) : string :=
  match r with
  | CLIENT => "client"
  | FREELANCER => "freelancer"
  | ADMIN => "admin"
  end.

Definition checkEmailRegistration (w : AuthWorld) (email : string) : option string :=
  option_map (fun u => registration_userType (ac_role u)) (findByEmail w email).

Definition registered_message (userType : string) : string :=
  "Email is already registered as " ++ userType.

Definition email_rate_key (email : string) : string :=
  "email_verification_rate_limit:" ++ email.

(** POST /api/email/send-verification-otp *)
Definition sendVerificationOTP (email : option string) (rnd : Q) (mailOk : bool)
  (w : AuthWorld) : Response * AuthWorld :=
  match email with
  | None => (Resp 400 "Email is required", w)
  | Some email =>
  if blank email then (Resp 400 "Email is required", w) else
  if negb (isValidEmail email) then (Resp 400 msg_invalid_email, w) else
  match checkEmailRegistration w email with
  | Some userType => (Resp 409 (registered_message userType), w)
  | None =>
    let rateLimitKey := email_rate_key email in
    match getCache (flags w) rateLimitKey with
    | Some true => (Resp 429 msg_rate, w)
    | _ =>
        let otp := generateEmailVerificationOTP rnd in
        let w1 := set_otps w (storeEmailVerificationOTP (otps w) email otp) in
        let w2 := set_flags w1 (setCache (flags w1) rateLimitKey true 120) in
        if mailOk
        then (Resp 200 "Verification OTP has been sent to your email address.", w2)
        else (Resp 500 msg_500, w2)
    end
  end
  end.

(** POST /api/email/verify-otp *)
Definition verifyEmailOTP (email otp : option string) (w : AuthWorld)
  : Response * AuthWorld :=
  match email, otp with
  | Some email, Some otp =>
    if blank email || blank otp then (Resp 400 "Email and OTP are required", w)
    else if negb (isValidEmail email) then (Resp 400 msg_invalid_email, w)
    else if negb (String.length otp =? 6)%nat || negb (six_digits otp)
    then (Resp 400 msg_six, w)
    else
    match checkEmailRegistration w email with
    | Some userType => (Resp 409 (registered_message userType), w)
    | None =>
      let (verification, s1) := verifyEmailVerificationOTP (otps w) email otp in
      let w1 := set_otps w s1 in
      match verification with
      | Invalid error => (Resp 400 error, w1)
      | Valid _ =>
          (Resp 200 "Email verified successfully. You can now proceed with registration.", w1)
      end
    end
  | _, _ => (Resp 400 "Email and OTP are required", w)
  end.

End Accounts.

(** ** Profile completeness (calculateClientProfileCompleteness) *)
Module Profile.

(** A nullable string column is truthy when set and non-empty. *)
Definition truthy (v : option string) : bool :=
  match v with Some s => negb (String.eqb s "") | None => false end.

Record ProfileUser := mkProfileUser {
  pu_name : option string; pu_bio : option string;
  pu_profileImage : option string; pu_location : option string;
  pu_phone : option string; pu_website : option string;
  pu_timezone : option string }.

Record ProfileClient := mkProfileClient {
  pc_companyName : option string; pc_companySize : option string;
  pc_industry : option string; pc_companyWebsite : option string;
  pc_preferredCategories : option (list string);
  pc_budgetRange : option string; pc_communicationPreference : option string }.

(** The [fields] object, in its key order. *)
Definition fields (user : ProfileUser) (client : ProfileClient)
  : list (string * nat) :=
  [ ("name", if truthy (pu_name user) then 10 else 0);
    ("bio", if truthy (pu_bio user) then 15 else 0);
    ("profileImage", if truthy (pu_profileImage user) then 10 else 0);
    ("location", if truthy (pu_location user) then 5 else 0);
    ("phone", if truthy (pu_phone user) then 10 else 0);
    ("website", if truthy (pu_website user) then 5 else 0);
    ("companyName", if truthy (pc_companyName client) then 10 else 0);
    ("companySize", if truthy (pc_companySize client) then 5 else 0);
    ("industry", if truthy (pc_industry client) then 10 else 0);
    ("companyWebsite", if truthy (pc_companyWebsite client) then 5 else 0);
    ("preferredCategories",
       match pc_preferredCategories client with
       | Some cats => if (0 <? length cats)%nat then 10 else 0
       | None => 0
       end);
    ("budgetRange", if truthy (pc_budgetRange client) then 5 else 0);
    ("communicationPreference",
       if truthy (pc_communicationPreference client) then 5 else 0);
    ("timezone", if truthy (pu_timezone user) then 5 else 0) ]%list.

Record Completeness := mkCompleteness {
  percentage : nat; missingFields : list string; completedSections : list string }.

Definition calculateClientProfileCompleteness (user : ProfileUser)
  (client : ProfileClient) : Completeness :=
  let fs := fields user client in
  let totalScore := fold_left (fun sum f => sum + snd f) fs 0 in
  let missing := map fst (filter (fun f => (snd f =? 0)%nat) fs) in
  mkCompleteness totalScore missing
    (if (80 <=? totalScore)%nat
     then ["personal_info"; "contact_info"; "company_info"; "preferences";
           "profile_image"]%list
     else []%list).

End Profile.

(** ** PATCH /api/admin/users/:userId/toggle-status *)
Module AdminUsers.
Import Model Handlers.

Definition set_users w us :=
  mkWorld us (freelancers w) (clients w) (projects w) (applications w)
          (ratings w) (cache w).

(** prisma.user.update({ where: { id }, data }) *)
Definition updateUser (id : string) (f : User -> User) : M User :=
  fun w =>
    match find_user w id with
    | None => (Throw "Record to update not found.", w)
    | Some u =>
        (Done (f u), set_users w
           (map (fun v => if String.eqb (u_id v) id then f v else v) (users w)))
    end.

Definition is_admin (r : Role) : bool :=
  match r with ADMIN => true | _ => false end.

(** [isSuperAdmin] is [req.admin.permissions.includes('SUPER_ADMIN')]. *)
Definition toggleUserStatus (authorized isSuperAdmin : bool) (userId : string)
  : M Response :=
  route (
  authenticateAdmin authorized ;;;
  user <- gets (fun w => find_user w userId) ;;
  match user with
  | None => respond 404 "User not found"
  | Some user =>
  if is_admin (u_role user) && negb isSuperAdmin then
    respond 403 "Cannot suspend admin users"
  else
  updatedUser <- updateUser userId
                   (fun u => mkUser (u_id u) (u_role u) (negb (u_isActive user))) ;;
  deleteKeys ["user:" ++ userId] ;;;
  respond 200 ("User " ++ (if u_isActive updatedUser then "activated" else "suspended")
               ++ " successfully")
  end).

End AdminUsers.

(** ** Auxiliary functions of the statements below *)
Module Helpers.
Import Profile.

(** Every character of [s] satisfies [f]. *)
Fixpoint all_chars (f : ascii -> bool) (s : string) : bool :=
  match s with
  | EmptyString => true
  | String c s' => f c && all_chars f s'
  end.

(** The number of occurrences of [c0] in [s]. *)
Fixpoint count_char (c0 : ascii) (s : string) : nat :=
  match s with
  | EmptyString => 0
  | String c s' => (if Ascii.eqb c c0 then 1 else 0) + count_char c0 s'
  end.

(** The last decimal digit of [z], as [digitsZ] writes it. *)
Definition dig (z : Z) : ascii := ascii_of_nat (48 + Z.to_nat (z mod 10)).

(** The score each key of [fields] carries when its value is truthy. *)
Definition field_weights : list (string * nat) :=
  [ ("name", 10); ("bio", 15); ("profileImage", 10); ("location", 5);
    ("phone", 10); ("website", 5); ("companyName", 10); ("companySize", 5);
    ("industry", 10); ("companyWebsite", 5); ("preferredCategories", 10);
    ("budgetRange", 5); ("communicationPreference", 5); ("timezone", 5) ]%list.
Definition field_weight (field : string) : nat :=
  match find (fun p => String.eqb (fst p) field) field_weights with
  | Some p => snd p
  | None => 0
  end.

(** The word of the toggle-status message. *)
Definition status_word (b : bool) : string := if b then "activated" else "suspended".

End Helpers.

(** ** Concrete worlds for the account and admin scenarios *)
Module AuthScenarios.
Import Model Accounts Scenarios.

Definition acc_ann := mkAccount "uc" "ann@example.com" CLIENT true (Hashed "secret1").
Definition acc_bob := mkAccount "u1" "bob@example.com" FREELANCER true (Hashed "hunter22").
Definition acc_eve := mkAccount "u2" "eve@example.com" FREELANCER false (Hashed "letmein").

(** Three accounts, empty caches. *)
Definition auth0 : AuthWorld :=
  mkAuthWorld [acc_ann; acc_bob; acc_eve] ["uc"] [] [] [].

(** After Ann asked for a reset code, the random draw being 1/2. *)
Definition auth_reset : AuthWorld :=
  snd (forgotPassword ClientSide (Some "ann@example.com") (1 # 2) true auth0).

(** A freelancer, an admin, and the cached view of the freelancer. *)
Definition admin_w : World :=
  mkWorld [uF1; mkUser "a1" ADMIN true] [] [] [] [] [] [("user:u1", ("{}", 3600))].

End AuthScenarios.

(** * Properties *)

(** ** Cache store *)
Module CacheFacts.
Import Cache.

Lemma lookup_deleteCache {V} (s : Store V) k k' :
  lookup (deleteCache s k) k' = if String.eqb k' k then None else lookup s k'.
Proof.
  induction s as [|[k0 e] s IH]; simpl.
  - destruct (String.eqb k' k); reflexivity.
  - destruct (String.eqb k k0) eqn:E; simpl.
    + apply String.eqb_eq in E; subst k0. rewrite IH.
      destruct (String.eqb k' k); reflexivity.
    + rewrite IH. destruct (String.eqb k' k0) eqn:E'; auto.
      apply String.eqb_eq in E'; subst k0.
      destruct (String.eqb k' k) eqn:E2; auto.
      apply String.eqb_eq in E2; subst k. rewrite String.eqb_refl in E. discriminate.
Qed.

Lemma lookup_setCache {V} (s : Store V) k v t k' :
  lookup (setCache s k v t) k' = if String.eqb k' k then Some (v, t) else lookup s k'.
Proof.
  unfold setCache; simpl. rewrite lookup_deleteCache.
  destruct (String.eqb k' k); reflexivity.
Qed.

Lemma lookup_deleteAll {V} (ks : list string) : forall (s : Store V) k,
  lookup (deleteAll s ks) k = if existsb (String.eqb k) ks then None else lookup s k.
Proof.
  induction ks as [|k0 ks IH]; intros s k; simpl; [reflexivity|].
  unfold deleteAll in *; simpl. rewrite IH, lookup_deleteCache.
  destruct (String.eqb k k0), (existsb (String.eqb k) ks); reflexivity.
Qed.

End CacheFacts.

Module OtpFacts.
Import Cache Otp CacheFacts.

Lemma check_missing pu s email code :
  getCache s (purpose_key pu email) = None ->
  check pu s email code = (Invalid err_missing, s).
Proof.
  destruct pu; simpl; unfold verifyOTP, verifyEmailVerificationOTP;
    intros H; rewrite H; reflexivity.
Qed.

Lemma runChecks_missing pu email codes : forall s,
  getCache s (purpose_key pu email) = None ->
  runChecks pu s email codes = (map (fun _ => Invalid err_missing) codes, s).
Proof.
  induction codes as [|c cs IH]; intros s H; simpl; [reflexivity|].
  rewrite (check_missing _ _ _ c H), (IH s H). reflexivity.
Qed.

Lemma check_wrong pu s email code d :
  getCache s (purpose_key pu email) = Some d -> String.eqb (otp d) code = false ->
  check pu s email code =
    (if (3 <=? attempts d + 1)%nat
     then (Invalid err_exhausted, deleteCache s (purpose_key pu email))
     else (Invalid err_wrong,
           setCache s (purpose_key pu email)
                    (mkOtp (otp d) (attempts d + 1) (verified d)) 600)).
Proof.
  destruct pu; simpl; unfold verifyOTP, verifyEmailVerificationOTP;
    intros H E; rewrite H, E; reflexivity.
Qed.

Lemma check_right pu s email code d :
  getCache s (purpose_key pu email) = Some d -> String.eqb (otp d) code = true ->
  check pu s email code =
    (Valid (mkOtp (otp d) (attempts d) true),
     setCache s (purpose_key pu email) (mkOtp (otp d) (attempts d) true)
              (verified_ttl pu)).
Proof.
  destruct pu; simpl; unfold verifyOTP, verifyEmailVerificationOTP;
    intros H E; rewrite H, E; reflexivity.
Qed.

(** C7: a wrong code below the limit stores [attempts + 1] and answers
    "Invalid OTP"; the wrong code that brings [attempts] to 3 deletes the
    entry and reports exhaustion, after which every check of the same key,
    whatever its code, answers with the missing-entry error. *)
Theorem otp_attempts_exhaust (pu : Purpose) (s : Store OtpData)
  (email code : string) (d : OtpData) :
  getCache s (purpose_key pu email) = Some d ->
  otp d <> code ->
  let (r, s') := check pu s email code in
  (attempts d + 1 < 3 ->
     r = Invalid err_wrong /\
     option_map attempts (getCache s' (purpose_key pu email))
       = Some (attempts d + 1)) /\
  (attempts d + 1 = 3 ->
     r = Invalid err_exhausted /\
     getCache s' (purpose_key pu email) = None /\
     forall later : list string,
       fst (runChecks pu s' email later)
         = map (fun _ => Invalid err_missing) later).
Proof.
  intros H Hne.
  assert (E : String.eqb (otp d) code = false) by (apply String.eqb_neq; exact Hne).
  rewrite (check_wrong _ _ _ _ _ H E).
  destruct (3 <=? attempts d + 1)%nat eqn:L; split; intros Ha.
  - apply Nat.leb_le in L; lia.
  - split; [reflexivity|].
    assert (G : getCache (deleteCache s (purpose_key pu email)) (purpose_key pu email) = None).
    { unfold getCache. rewrite lookup_deleteCache, String.eqb_refl. reflexivity. }
    split; [exact G|]. intros later. rewrite (runChecks_missing _ _ _ _ G). reflexivity.
  - split; [reflexivity|].
    unfold getCache. rewrite lookup_setCache, String.eqb_refl. reflexivity.
  - apply Nat.leb_gt in L; lia.
Qed.

End OtpFacts.

Module OtpExamples.
Import Cache Otp CacheFacts OtpFacts Scenarios.

Lemma otp_attempts_exhaust_witness :
  getCache otp_two_wrong (purpose_key (PasswordReset "client") "dev@example.com")
    = Some (mkOtp "123456" 2 false) /\
  (let (r, s') := check (PasswordReset "client") otp_two_wrong "dev@example.com" "999999" in
   (attempts (mkOtp "123456" 2 false) + 1 < 3 ->
      r = Invalid err_wrong /\
      option_map attempts (getCache s' (purpose_key (PasswordReset "client") "dev@example.com"))
        = Some (attempts (mkOtp "123456" 2 false) + 1)) /\
   (attempts (mkOtp "123456" 2 false) + 1 = 3 ->
      r = Invalid err_exhausted /\
      getCache s' (purpose_key (PasswordReset "client") "dev@example.com") = None /\
      forall later : list string,
        fst (runChecks (PasswordReset "client") s' "dev@example.com" later)
          = map (fun _ => Invalid err_missing) later)).
Proof.
  split; [vm_compute; reflexivity|].
  apply (otp_attempts_exhaust (PasswordReset "client") otp_two_wrong
           "dev@example.com" "999999" (mkOtp "123456" 2 false)).
  - vm_compute; reflexivity.
  - simpl; discriminate.
Defined.

(** C8, as stated, fails: 500 seconds after the code was issued (100
    seconds left) a wrong code rewrites the entry with 600 seconds, not
    with the 100 seconds it had left. *)
Lemma otp_wrong_code_keeps_ttl_counterexample :
  let key := purpose_key (PasswordReset "client") "dev@example.com" in
  let (r, s') := check (PasswordReset "client") otp_aged "dev@example.com" "000000" in
  r = Invalid err_wrong /\ ttl otp_aged key = Some 100 /\ ttl s' key = Some 600 /\
  ttl s' key <> ttl otp_aged key.
Proof. vm_compute. repeat split; discriminate. Qed.

(** C8, amended: a wrong code that leaves [attempts] below 3 rewrites the
    entry with a fresh TTL of 600 seconds, whatever was left; a correct
    code rewrites it with 900 seconds (password reset) or 1800 seconds
    (email verification). *)
Theorem otp_check_ttl (pu : Purpose) (s : Store OtpData) (email code : string)
  (d : OtpData) :
  getCache s (purpose_key pu email) = Some d ->
  (otp d <> code -> attempts d + 1 < 3 ->
     ttl (snd (check pu s email code)) (purpose_key pu email) = Some 600) /\
  (otp d = code ->
     ttl (snd (check pu s email code)) (purpose_key pu email)
       = Some (verified_ttl pu)).
Proof.
  intros H. split.
  - intros Hne Hlt.
    assert (E : String.eqb (otp d) code = false) by (apply String.eqb_neq; exact Hne).
    rewrite (check_wrong _ _ _ _ _ H E).
    destruct (3 <=? attempts d + 1)%nat eqn:L.
    + apply Nat.leb_le in L; lia.
    + unfold ttl; cbn [snd]. rewrite lookup_setCache, String.eqb_refl. reflexivity.
  - intros Heq.
    assert (E : String.eqb (otp d) code = true) by (apply String.eqb_eq; exact Heq).
    rewrite (check_right _ _ _ _ _ H E).
    unfold ttl; cbn [snd]. rewrite lookup_setCache, String.eqb_refl. reflexivity.
Qed.

Lemma otp_check_ttl_witness :
  getCache otp_aged (purpose_key EmailVerification "dev@example.com") = None /\
  getCache otp_aged (purpose_key (PasswordReset "client") "dev@example.com")
    = Some (mkOtp "123456" 0 false) /\
  ttl (snd (check (PasswordReset "client") otp_aged "dev@example.com" "000000"))
      (purpose_key (PasswordReset "client") "dev@example.com") = Some 600.
Proof.
  split; [vm_compute; reflexivity|]. split; [vm_compute; reflexivity|].
  apply (otp_check_ttl (PasswordReset "client") otp_aged "dev@example.com" "000000"
           (mkOtp "123456" 0 false)).
  - vm_compute; reflexivity.
  - simpl; discriminate.
  - simpl; lia.
Defined.

End OtpExamples.

Module CompletionExamples.
Import Model Handlers Scenarios.

(** C6 (failing input): the owning client rejects the completion of p1
    with reason "not yet done". The status write to ASSIGNED is kept, but
    the handler then reads [project.freelancer.user.id] from a project
    loaded without its freelancer and the route answers 500. *)
Lemma rejectCompletion_reports_failure :
  let (r, w') := rejectCompletion "uc" "p1" (Some "not yet done") w_pending_completion in
  r = Done (Resp 500 "Internal server error") /\
  find_project w' "p1" = Some (mkProject "p1" "c1" (Some "f1") ASSIGNED None) /\
  cache w' = cache w_pending_completion.
Proof. vm_compute. repeat split. Qed.

(** C9 (failing input): the same request deletes none of the 183 keys the
    reject-completion handler enumerates; the listed key
    [client:projects:uc:status:ASSIGNED:page:1:limit:10] stays cached. *)
Lemma rejectCompletion_deletes_no_listed_key :
  let (r, w') := rejectCompletion "uc" "p1" (Some "not yet done") w_pending_completion in
  length (rejectCompletion_keys "uc" "u1") = 183 /\
  In key_listed (rejectCompletion_keys "uc" "u1") /\
  Cache.lookup (cache w') key_listed = Some ("[]", 120) /\
  code (Concurrency.finish r) = 500.
Proof. vm_compute. repeat split. do 5 right. left. reflexivity. Qed.

End CompletionExamples.

(** ** Symbolic execution of the handlers *)
Module Symbolic.
Import Model Keys Handlers.

Lemma find_some_pred {A} (f : A -> bool) l x : find f l = Some x -> f x = true.
Proof. intros H. apply (find_some f l H). Qed.

Lemma find_some_in {A} (f : A -> bool) l x : find f l = Some x -> In x l.
Proof. intros H. apply (find_some f l H). Qed.

(** Unfold a handler down to the table reads and writes. *)
Ltac unfold_monad :=
  repeat progress unfold route, bind, ret, respond, throw, gets, modify, transaction, deref,
    authenticateToken, checkClientActive, checkFreelancerActive,
    authenticateAdmin, findFirstProject, findFirstApplication, updateProject,
    updateManyProjects, updateApplication, updateManyApplications,
    updateFreelancer, updateClient, deleteKeys, createApplication,
    createRating, updateRating, findManyRatings, updateAssignee, user_isActive,
    find_user, find_freelancer, find_freelancer_by_user, find_client,
    find_client_by_user, find_project, find_application,
    find_application_pair, find_rating_triple, assignee.

(** Reduce, keeping list functions, boolean tests and key lists folded. *)
Ltac red_goal :=
  cbn -[find filter map existsb length app andb orb negb String.eqb
        String.append Nat.eqb Nat.ltb Nat.leb Z.eqb Z.ltb is_status
        ApplicationStatus_beq ProjectStatus_beq RaterType_beq
        reason_too_short trim approve_keys rejectCompletion_keys grid
        invalidateClientCaches_keys rating_page_keys Cache.deleteAll join
        string_of_nat seq flat_map toFixed2 average ratings_of
        rating_out_of_range all_some].

Ltac head_is_match x :=
  lazymatch x with
  | match _ with _ => _ end => idtac
  | ?f _ => head_is_match f
  end.

Ltac split_step :=
  match goal with
  | |- context [match ?x with _ => _ end] =>
      tryif head_is_match x then fail else destruct x eqn:?
  end.

(** Case on every test the handler makes, one goal per path. *)
Ltac explore := repeat (red_goal; split_step); red_goal.

(** Turn what a path learned about its reads into plain facts. *)
Ltac find_facts :=
  repeat match goal with
  | H : find _ _ = Some _ |- _ =>
      let Hin := fresh "Hin" in let Hp := fresh "Hp" in
      pose proof (find_some_in _ _ _ H) as Hin;
      pose proof (find_some_pred _ _ _ H) as Hp; cbv beta in Hp; clear H
  | H : Some _ = Some _ |- _ => injection H as H; subst
  | H : (_ && _) = true |- _ => apply andb_prop in H; destruct H
  | H : negb _ = false |- _ => apply negb_false_iff in H
  | H : negb _ = true |- _ => apply negb_true_iff in H
  | H : String.eqb _ _ = true |- _ => apply String.eqb_eq in H
  | H : is_status _ _ = true |- _ =>
      unfold is_status in H; apply internal_ProjectStatus_dec_bl in H
  | H : ProjectStatus_beq _ _ = true |- _ =>
      apply internal_ProjectStatus_dec_bl in H
  | H : ApplicationStatus_beq _ _ = true |- _ =>
      apply internal_ApplicationStatus_dec_bl in H
  end.

End Symbolic.

(** ** Approving an application *)
Module ApproveFacts.
Import Model Handlers System Symbolic.

(** Reduce the monadic plumbing, keeping the table lookups folded. *)
Ltac cbn_lookups :=
  cbn -[find_user find_client_by_user user_isActive find_freelancer
        find_client find_project find_application find approve_keys
        Cache.deleteAll].

(** The request of an active client on its own OPEN project. *)
Section Guard.
Variables (w : World) (userId projectId applicationId : string).
Variables (u : User) (c : Client) (p : Project).
Hypothesis H_user : find_user w userId = Some u.
Hypothesis H_active : u_isActive u = true.
Hypothesis H_client : find_client_by_user w userId = Some c.
Hypothesis H_project : find (fun q => String.eqb (p_id q) projectId
                                      && String.eqb (p_clientId q) (c_id c))
                            (projects w) = Some p.

Lemma client_user_active : user_isActive w (c_userId c) = Some true.
Proof.
  apply find_some_pred in H_client. apply String.eqb_eq in H_client.
  unfold user_isActive. rewrite H_client, H_user. simpl. rewrite H_active. reflexivity.
Qed.

Lemma guard_prefix {A} (k : Project -> M A) :
  (_ <- authenticateToken userId ;;
   _ <- checkClientActive userId ;;
   client <- gets (fun w => find_client_by_user w userId) ;;
   match client with
   | None => respond 404 "Client not found"
   | Some client =>
       project <- findFirstProject (fun q =>
         String.eqb (p_id q) projectId && String.eqb (p_clientId q) (c_id client)) ;;
       match project with
       | None => respond 404 "Project not found or you do not have permission to modify it"
       | Some project => k project
       end
   end) w = k p w.
Proof.
  pose proof client_user_active as Hca.
  unfold authenticateToken, checkClientActive, findFirstProject, bind, gets, ret.
  rewrite H_user. cbn_lookups. rewrite H_active. cbn_lookups.
  rewrite H_client. cbn_lookups. rewrite Hca. cbn_lookups.
  rewrite H_client. cbn_lookups. rewrite H_project. reflexivity.
Qed.

Lemma guard_not_open :
  p_status p <> OPEN ->
  approveApplication_guard userId projectId applicationId w
    = (Respond (Resp 400 "Project is not available for assignment"), w).
Proof.
  intros Hs. unfold approveApplication_guard. rewrite guard_prefix.
  unfold is_status. destruct (p_status p); try reflexivity. congruence.
Qed.

Lemma guard_ok (a : Application) (f : Freelancer) :
  p_status p = OPEN ->
  find (fun b => String.eqb (a_id b) applicationId
                 && String.eqb (a_projectId b) projectId) (applications w) = Some a ->
  a_status a = PENDING ->
  find_freelancer w (a_freelancerId a) = Some f ->
  approveApplication_guard userId projectId applicationId w
    = (Done (a, f_userId f), w).
Proof.
  intros Hs Ha Hpend Hf. unfold approveApplication_guard. rewrite guard_prefix.
  unfold is_status. rewrite Hs. cbn_lookups.
  unfold findFirstApplication, bind, gets, ret, deref. rewrite Ha.
  cbn_lookups. rewrite Hpend. cbn_lookups. rewrite Hf. reflexivity.
Qed.

End Guard.

Lemma find_map_same {A} (f : A -> bool) (g : A -> A) l :
  (forall x, f (g x) = f x) -> find f (map g l) = option_map g (find f l).
Proof.
  intros Hg. induction l as [|x l IH]; simpl; [reflexivity|].
  rewrite Hg. destruct (f x); [reflexivity|exact IH].
Qed.

Lemma find_none_not_in {A} (f : A -> bool) l x :
  In x l -> f x = true -> find f l <> None.
Proof.
  intros Hin Hf Hn. pose proof (find_none f l Hn x Hin). congruence.
Qed.

Lemma found_project_by_id w projectId cid p :
  find (fun q => String.eqb (p_id q) projectId && String.eqb (p_clientId q) cid)
       (projects w) = Some p ->
  find_project w projectId <> None.
Proof.
  intros H. pose proof (find_some_in _ _ _ H) as Hin.
  apply find_some_pred, andb_prop in H. destruct H as [H _].
  exact (find_none_not_in _ _ _ Hin H).
Qed.

Lemma found_application_by_id w applicationId projectId a :
  find (fun b => String.eqb (a_id b) applicationId
                 && String.eqb (a_projectId b) projectId) (applications w) = Some a ->
  find_application w applicationId <> None.
Proof.
  intros H. pose proof (find_some_in _ _ _ H) as Hin.
  apply find_some_pred, andb_prop in H. destruct H as [H _].
  exact (find_none_not_in _ _ _ Hin H).
Qed.

Lemma commit_effect (w : World) (userId projectId applicationId : string)
  (a : Application) (fu : string) :
  find_application w applicationId <> None ->
  find_project w projectId <> None ->
  approveApplication_commit userId projectId applicationId a fu w =
  (Respond (Resp 200 "Application approved and project assigned successfully"),
   mkWorld (users w) (freelancers w) (clients w)
           (assigned_projects projectId (a_freelancerId a) (projects w))
           (approved_apps projectId applicationId (applications w))
           (ratings w)
           (Cache.deleteAll (cache w) (approve_keys userId fu))).
Proof.
  intros Ha Hp.
  destruct (find_application w applicationId) as [a0|] eqn:Ea; [|congruence].
  destruct (find_project w projectId) as [p0|] eqn:Ep; [|congruence].
  unfold approveApplication_commit, transaction, bind, updateApplication.
  rewrite Ea. cbv iota beta.
  unfold updateProject. unfold find_project at 1. simpl projects.
  fold (find_project w projectId). rewrite Ep. cbv iota beta.
  unfold updateManyApplications, ret, deleteKeys, modify, respond.
  cbn -[Cache.deleteAll approve_keys find_project find_application].
  f_equal. unfold set_cache. cbn -[Cache.deleteAll approve_keys]. f_equal.
  unfold approved_apps. rewrite map_map. apply map_ext. intros b.
  destruct (String.eqb (a_id b) applicationId) eqn:E; simpl.
  - rewrite E. rewrite !andb_false_r. reflexivity.
  - rewrite E. simpl. rewrite andb_true_r. reflexivity.
Qed.

End ApproveFacts.

(** ** The writes of an approval *)
Module ApproveWrites.
Import Model Handlers System ApproveFacts Scenarios.

(** A request whose caller is suspended is refused with 403 by
    [authenticateToken], before any read or write. *)
Lemma approve_suspended_refused (w : World) (userId projectId applicationId : string)
  (u : User) :
  find_user w userId = Some u -> u_isActive u = false ->
  approveApplication userId projectId applicationId w
    = (Done (Resp 403 "Your account has been suspended."), w).
Proof.
  intros Hu Ha. unfold approveApplication, route, approveApplication_guard,
    authenticateToken, bind, gets, respond.
  rewrite Hu, Ha. reflexivity.
Qed.

(** C1: on the client's own OPEN project, with a PENDING application of it
    whose freelancer exists (a foreign key of the Application row), a
    request of an active client (suspended users are blocked from every
    mutating action, spec section 3) answers 200 and the world afterwards
    differs only in: the application is APPROVED, the project rows with the
    id are ASSIGNED to the application's freelancer, every other PENDING
    application of the project is REJECTED, and the approval's cache keys
    are deleted; users, freelancers, clients and ratings are untouched.  A
    request of a suspended client is refused with 403 and writes nothing. *)
Theorem approveApplication_exact_writes (w : World)
  (userId projectId applicationId : string) (u : User) (c : Client)
  (p : Project) (a : Application) (f : Freelancer) :
  find_user w userId = Some u ->
  find_client_by_user w userId = Some c ->
  find (fun q => String.eqb (p_id q) projectId && String.eqb (p_clientId q) (c_id c))
       (projects w) = Some p ->
  p_status p = OPEN ->
  find (fun b => String.eqb (a_id b) applicationId
                 && String.eqb (a_projectId b) projectId) (applications w) = Some a ->
  a_status a = PENDING ->
  find_freelancer w (a_freelancerId a) = Some f ->
  (u_isActive u = true ->
   approveApplication userId projectId applicationId w =
   (Done (Resp 200 "Application approved and project assigned successfully"),
    mkWorld (users w) (freelancers w) (clients w)
            (assigned_projects projectId (a_freelancerId a) (projects w))
            (approved_apps projectId applicationId (applications w))
            (ratings w)
            (Cache.deleteAll (cache w) (approve_keys userId (f_userId f))))) /\
  (u_isActive u = false ->
   approveApplication userId projectId applicationId w
     = (Done (Resp 403 "Your account has been suspended."), w)).
Proof.
  intros Hu Hc Hp Hopen Ha Hpend Hf. split.
  - intros Hact. unfold approveApplication, route, bind.
    rewrite (guard_ok w userId projectId applicationId u c p Hu Hact Hc Hp a f
               Hopen Ha Hpend Hf).
    cbn [fst snd].
    rewrite (commit_effect w userId projectId applicationId a (f_userId f)
               (found_application_by_id _ _ _ _ Ha) (found_project_by_id _ _ _ _ Hp)).
    reflexivity.
  - intros Hact. exact (approve_suspended_refused w userId projectId applicationId u Hu Hact).
Qed.

Lemma approveApplication_exact_writes_witness :
  (u_isActive uClient = true ->
   approveApplication "uc" "p1" "a1" w_open =
   (Done (Resp 200 "Application approved and project assigned successfully"),
    mkWorld (users w_open) (freelancers w_open) (clients w_open)
            (assigned_projects "p1" "f1" (projects w_open))
            (approved_apps "p1" "a1" (applications w_open))
            (ratings w_open)
            (Cache.deleteAll (cache w_open) (approve_keys "uc" "u1")))) /\
  (u_isActive uClient = false ->
   approveApplication "uc" "p1" "a1" w_open
     = (Done (Resp 403 "Your account has been suspended."), w_open)).
Proof.
  apply (approveApplication_exact_writes w_open "uc" "p1" "a1" uClient cl1
           (mkProject "p1" "c1" None OPEN None) app1 fl1);
    vm_compute; reflexivity.
Defined.

(** The same request with the client suspended. *)
Lemma approve_suspended_client_example :
  approveApplication "uc" "p1" "a1" w_open_suspended
    = (Done (Resp 403 "Your account has been suspended."), w_open_suspended).
Proof. vm_compute. reflexivity. Qed.

End ApproveWrites.

(** ** Applying to a project *)
Module ApplyFacts.
Import Model Handlers System Symbolic ApproveFacts Scenarios.

Ltac bool_split :=
  match goal with
  | |- context [?a && _] =>
      lazymatch a with
      | true => fail | false => fail | _ && _ => fail
      | _ => destruct a
      end
  end.

(** Evaluate [apply_allowed] from what a path of the handler learned. *)
Ltac decide_allowed :=
  repeat progress unfold apply_allowed, find_user, find_freelancer_by_user,
    find_project, find_client, user_isActive, find_application_pair;
  repeat match goal with
         | E : negb _ = false |- _ => apply negb_false_iff in E
         | E : negb _ = true |- _ => apply negb_true_iff in E
         end;
  repeat (red_goal; match goal with E : ?x = _ |- context [?x] => rewrite E end);
  repeat (cbn; first [split_step | bool_split]); reflexivity.

Lemma existsb_fresh_pair (l : list Application) (newId projectId fid : string) :
  ~ In newId (map a_id l) ->
  find (fun b => String.eqb (a_projectId b) projectId
                 && String.eqb (a_freelancerId b) fid) l = None ->
  existsb (fun b => String.eqb (a_id b) newId
                    || (String.eqb (a_projectId b) projectId
                        && String.eqb (a_freelancerId b) fid)) l = false.
Proof.
  induction l as [|b l IH]; intros Hfresh Hnone; cbn in *; [reflexivity|].
  destruct (String.eqb (a_projectId b) projectId && String.eqb (a_freelancerId b) fid);
    [discriminate|].
  destruct (String.eqb (a_id b) newId) eqn:E.
  - apply String.eqb_eq in E. exfalso. apply Hfresh. left. exact E.
  - cbn. apply IH; [tauto | exact Hnone].
Qed.

Lemma apply_not_allowed_no_row (w : World) (userId projectId newId : string) :
  apply_allowed w userId projectId = false ->
  applications (snd (apply userId projectId newId w)) = applications w.
Proof.
  intros H.
  unfold apply. unfold_monad. explore.
  all: try reflexivity.
  all: exfalso; assert (apply_allowed w userId projectId = true) by decide_allowed;
    congruence.
Qed.

Lemma apply_not_allowed_refused (w : World) (userId projectId newId : string) :
  apply_allowed w userId projectId = false ->
  exists r, fst (apply userId projectId newId w) = Done r /\ (400 <= code r)%nat.
Proof.
  intros H.
  unfold apply. unfold_monad. explore.
  all: try (eexists; split; [reflexivity | cbn; lia]).
  all: exfalso; assert (apply_allowed w userId projectId = true) by decide_allowed;
    congruence.
Qed.

Lemma apply_allowed_row (w : World) (userId projectId newId : string)
  (f : Freelancer) :
  ~ In newId (map a_id (applications w)) ->
  apply_allowed w userId projectId = true ->
  find_freelancer_by_user w userId = Some f ->
  exists c', apply userId projectId newId w =
    (Done (Resp 201 "Application submitted successfully"),
     mkWorld (users w) (freelancers w) (clients w) (projects w)
             (applications w ++ [mkApplication newId projectId (f_id f) PENDING])
             (ratings w) c').
Proof.
  intros Hfresh H Hf.
  unfold find_freelancer_by_user in Hf.
  unfold apply. unfold_monad. explore.
  all: try discriminate.
  all: try (injection Hf as Hf; subst f0).
  all: try (eexists; reflexivity).
  all: try (exfalso; assert (apply_allowed w userId projectId = false) by decide_allowed;
            congruence).
  all: exfalso.
  - apply negb_false_iff in Heqb2, Heqb3.
    rewrite (existsb_fresh_pair _ _ _ _ Hfresh Heqo6) in Heqb4. discriminate.
  - pose proof (find_some_pred _ _ _ Heqo0) as Hfu; cbv beta in Hfu.
    apply String.eqb_eq in Hfu. rewrite Hfu, Heqo in Heqo1. cbn in Heqo1.
    apply negb_false_iff in Heqb. congruence.
  - pose proof (find_some_pred _ _ _ Heqo0) as Hfu; cbv beta in Hfu.
    apply String.eqb_eq in Hfu. rewrite Hfu, Heqo in Heqo1. cbn in Heqo1.
    discriminate.
Qed.

Lemma apply_allowed_pair_false (w : World) (userId projectId : string)
  (f : Freelancer) :
  find_freelancer_by_user w userId = Some f ->
  find_application_pair w projectId (f_id f) <> None ->
  apply_allowed w userId projectId = false.
Proof.
  intros Hf Hpair. unfold apply_allowed. rewrite Hf.
  destruct (find_application_pair w projectId (f_id f)); [|congruence].
  destruct (find_user w userId); [|reflexivity].
  destruct (find_project w projectId); [|apply andb_false_r].
  rewrite !andb_false_r. reflexivity.
Qed.

(** C5 as stated fails: freelancer f2 is available, p1 exists, is OPEN and
    unassigned, its client is active and f2 has not applied to it; but f2's
    own account is suspended and the request is refused with 403. *)
Lemma apply_suspended_freelancer_counterexample :
  find_freelancer_by_user w_apply "u2" = Some fl2 /\ f_availability fl2 = true /\
  find_project w_apply "p1" = Some (mkProject "p1" "c1" None OPEN None) /\
  user_isActive w_apply (c_userId cl1) = Some true /\
  find_application_pair w_apply "p1" "f2" = None /\
  apply "u2" "p1" "a9" w_apply
    = (Done (Resp 403 "Your account has been suspended."), w_apply).
Proof. vm_compute. repeat split. Qed.

(** C5, amended: with a fresh id for the new row, the apply operation
    creates an application exactly when [apply_allowed] holds (the
    specification's conditions and the caller's own account active): then
    it answers 201, the row [(newId, projectId, freelancer, PENDING)] is
    appended, and any later apply of the same pair is refused with an error
    code (400 or more) and creates nothing; otherwise the request is
    refused with an error code and the applications are left as they
    were. *)
Theorem apply_creates_row_iff_allowed (w : World) (userId projectId newId : string) :
  ~ In newId (map a_id (applications w)) ->
  let w' := snd (apply userId projectId newId w) in
  (apply_allowed w userId projectId = true ->
     fst (apply userId projectId newId w)
       = Done (Resp 201 "Application submitted successfully") /\
     exists f, find_freelancer_by_user w userId = Some f /\
       applications w'
         = (applications w ++ [mkApplication newId projectId (f_id f) PENDING])%list /\
       forall newId2 : string,
         (exists r, fst (apply userId projectId newId2 w') = Done r /\ (400 <= code r)%nat) /\
         applications (snd (apply userId projectId newId2 w')) = applications w') /\
  (apply_allowed w userId projectId = false ->
     (exists r, fst (apply userId projectId newId w) = Done r /\ (400 <= code r)%nat) /\
     applications w' = applications w).
Proof.
  intros Hfresh w'. split.
  - intros H.
    destruct (find_freelancer_by_user w userId) as [f|] eqn:Hf.
    2: { unfold apply_allowed in H. rewrite Hf in H.
         destruct (find_user w userId); discriminate. }
    destruct (apply_allowed_row w userId projectId newId f Hfresh H Hf) as [c' Hw].
    split; [rewrite Hw; reflexivity|].
    exists f. split; [reflexivity|].
    unfold w'. rewrite Hw. cbn [applications snd]. split; [reflexivity|].
    intros newId2.
    assert (Hno : apply_allowed
                    (mkWorld (users w) (freelancers w) (clients w) (projects w)
                       (applications w ++ [mkApplication newId projectId (f_id f) PENDING])
                       (ratings w) c') userId projectId = false).
    { apply (apply_allowed_pair_false _ _ _ f); [exact Hf|].
      unfold find_application_pair; cbn [applications].
      apply (find_none_not_in _ _ (mkApplication newId projectId (f_id f) PENDING)).
      + apply in_or_app. right. left. reflexivity.
      + cbn. rewrite !String.eqb_refl. reflexivity. }
    split; [exact (apply_not_allowed_refused _ _ _ newId2 Hno)|].
    exact (apply_not_allowed_no_row _ _ _ newId2 Hno).
  - intros H. split; [exact (apply_not_allowed_refused _ _ _ newId H)|].
    exact (apply_not_allowed_no_row _ _ _ newId H).
Qed.

Lemma apply_creates_row_iff_allowed_witness :
  apply_allowed w_apply "u1" "p1" = true /\
  (let w' := snd (apply "u1" "p1" "a9" w_apply) in
   (apply_allowed w_apply "u1" "p1" = true ->
      fst (apply "u1" "p1" "a9" w_apply)
        = Done (Resp 201 "Application submitted successfully") /\
      exists f, find_freelancer_by_user w_apply "u1" = Some f /\
        applications w'
          = (applications w_apply ++ [mkApplication "a9" "p1" (f_id f) PENDING])%list /\
        forall newId2 : string,
          (exists r, fst (apply "u1" "p1" newId2 w') = Done r /\ (400 <= code r)%nat) /\
          applications (snd (apply "u1" "p1" newId2 w')) = applications w') /\
   (apply_allowed w_apply "u1" "p1" = false ->
      (exists r, fst (apply "u1" "p1" "a9" w_apply) = Done r /\ (400 <= code r)%nat) /\
      applications w' = applications w_apply)).
Proof.
  split; [vm_compute; reflexivity|].
  apply (apply_creates_row_iff_allowed w_apply "u1" "p1" "a9").
  cbn. tauto.
Defined.

End ApplyFacts.

Module RatingFacts.
Import Model Handlers System Symbolic ApproveFacts.

Lemma find_unique_map {A} (key : A -> string) (g : A -> A) (l : list A) (x : A) :
  NoDup (map key l) -> In x l -> (forall y, key (g y) = key y) ->
  find (fun y => String.eqb (key y) (key x)) (map g l) = Some (g x).
Proof.
  intros Hnd Hin Hg. induction l as [|y l IH]; [destruct Hin|].
  cbn in Hnd |- *. inversion Hnd as [|? ? Hny Hnd']; subst.
  rewrite Hg. destruct Hin as [<-|Hin].
  - rewrite String.eqb_refl. reflexivity.
  - destruct (String.eqb (key y) (key x)) eqn:E.
    + apply String.eqb_eq in E. exfalso. apply Hny. rewrite E. apply in_map. exact Hin.
    + apply IH; assumption.
Qed.

(** The profile row of the rated freelancer after [update] of its id. *)
Lemma freelancer_rating_updated (l : list Freelancer) (f : Freelancer) (s : string)
  (v : Q) :
  NoDup (map f_userId l) -> In f l -> f_id f = s ->
  option_map f_ratings
    (find (fun g => String.eqb (f_userId g) (f_userId f))
          (map (fun g => if String.eqb (f_id g) s then set_f_ratings v g else g) l))
  = Some v.
Proof.
  intros Hnd Hin Hs.
  rewrite (find_unique_map f_userId _ l f Hnd Hin).
  - cbn. rewrite Hs, String.eqb_refl. reflexivity.
  - intros y. destruct (String.eqb (f_id y) s); reflexivity.
Qed.

Lemma client_rating_updated (l : list Client) (c : Client) (s : string) (v : Q) :
  NoDup (map c_userId l) -> In c l -> c_id c = s ->
  option_map c_ratings
    (find (fun g => String.eqb (c_userId g) (c_userId c))
          (map (fun g => if String.eqb (c_id g) s then set_c_ratings v g else g) l))
  = Some v.
Proof.
  intros Hnd Hin Hs.
  rewrite (find_unique_map c_userId _ l c Hnd Hin).
  - cbn. rewrite Hs, String.eqb_refl. reflexivity.
  - intros y. destruct (String.eqb (c_id y) s); reflexivity.
Qed.

Lemma rated_freelancer (w : World) (rt : Rating) (p : Project) (s : string)
  (f : Freelancer) :
  rating_wf w -> In rt (ratings w) -> r_raterType rt = CLIENT_TO_FREELANCER ->
  find_project w (r_projectId rt) = Some p -> p_assignedTo p = Some s ->
  find_freelancer w s = Some f -> r_ratedId rt = f_userId f.
Proof.
  intros (_ & _ & Hwf) Hin Ht Hp Hs Hf.
  destruct (Hwf rt Hin) as (p' & Hp' & Hm). rewrite Hp in Hp'.
  injection Hp' as <-. rewrite Ht in Hm. destruct Hm as (g & Hg & Hu).
  unfold assignee in Hg. rewrite Hs, Hf in Hg. injection Hg as <-. auto.
Qed.

Lemma rated_client (w : World) (rt : Rating) (p : Project) (c : Client) :
  rating_wf w -> In rt (ratings w) -> r_raterType rt = FREELANCER_TO_CLIENT ->
  find_project w (r_projectId rt) = Some p ->
  find_client w (p_clientId p) = Some c -> r_ratedId rt = c_userId c.
Proof.
  intros (_ & _ & Hwf) Hin Ht Hp Hc.
  destruct (Hwf rt Hin) as (p' & Hp' & Hm). rewrite Hp in Hp'.
  injection Hp' as <-. rewrite Ht in Hm. destruct Hm as (c' & Hc' & Hu).
  rewrite Hc in Hc'. injection Hc' as <-. auto.
Qed.

Ltac not_success :=
  let E := fresh "E" in let E1 := fresh "E" in
  intros E; pose proof (f_equal fst E) as E1; cbv beta iota delta [fst] in E1;
  injection E1 as <-; cbn [code]; intros [H|H]; discriminate H.

Ltac take_world :=
  let E := fresh "E" in let E1 := fresh "E" in
  intros E _; pose proof (f_equal snd E) as E1; cbv beta iota delta [snd] in E1;
  subst.

(** C3: after a rating create or update that answers 200 or 201, the
    Rating row it wrote is in the table and the [ratings] field of the
    rated user's profile (freelancer for CLIENT_TO_FREELANCER, client for
    FREELANCER_TO_CLIENT) is the mean of the values of all Rating rows of
    that user in that direction as the code computes it: the binary64
    quotient of the sum by the count, passed through [toFixed(2)] and
    [parseFloat]; the Rating write and the profile write are one
    [prisma.$transaction]. *)
Theorem rating_write_recomputes_average (op : Op) (w : World) (id : string)
  (r : Response) (w' : World) :
  rating_wf w ->
  rating_op_id op = Some id ->
  exec op w = (Done r, w') ->
  (code r = 200 \/ code r = 201) ->
  exists rt, In rt (ratings w') /\ r_id rt = id /\
    stored_rating w' (r_raterType rt) (r_ratedId rt)
      = Some (toFixed2 (average (ratings_of (ratings w') (r_ratedId rt)
                                             (r_raterType rt)))).
Proof.
  intros Hwf Hid E. revert E.
  pose proof Hwf as (Hndf & Hndc & _).
  destruct op; cbn [rating_op_id] in Hid; try discriminate Hid;
    injection Hid as <-; cbn [exec].
  - unfold rateFreelancer. unfold_monad. explore.
    all: try not_success.
    intros E _; injection E as <- <-. injection Heqo4 as ->.
    pose proof (find_some_in _ _ _ Heqo6) as Hin.
    pose proof (find_some_pred _ _ _ Heqo6) as Hs; cbv beta in Hs.
    apply String.eqb_eq in Hs.
    eexists. split; [cbn; apply in_or_app; right; left; reflexivity|].
    split; [reflexivity|].
    cbn [stored_rating r_raterType r_ratedId]. unfold find_freelancer_by_user.
    cbn [freelancers ratings set_cache set_freelancers set_ratings].
    rewrite (freelancer_rating_updated _ _ _ _ Hndf Hin Hs). reflexivity.
  - unfold updateRatingClient. unfold_monad. explore.
    all: try not_success.
    all: intros E _; injection E as <- <-; injection Heqo6 as ->.
    all: pose proof (find_some_in _ _ _ Heqo7) as Hin;
         pose proof (find_some_pred _ _ _ Heqo7) as Hs; cbv beta in Hs;
         apply String.eqb_eq in Hs.
    all: pose proof (find_some_in _ _ _ Heqo2) as Hinr;
         pose proof (find_some_pred _ _ _ Heqo2) as Hr; cbv beta in Hr;
         apply andb_prop in Hr as [Hr Ht]; apply andb_prop in Hr as [Hr _];
         apply internal_RaterType_dec_bl in Ht.
    all: pose proof (rated_freelancer w r0 p s f Hwf Hinr Ht Heqo3 Heqo5 Heqo7) as Hu.
    all: eexists; split; [apply in_map; exact Hinr|]; cbv beta; rewrite Hr.
    all: cbv beta iota; cbn [r_raterType r_ratedId r_id].
    all: split; [apply String.eqb_eq; exact Hr|].
    all: rewrite Ht, Hu; unfold stored_rating, find_freelancer_by_user;
         cbn [freelancers ratings set_cache set_freelancers set_ratings].
    all: rewrite (freelancer_rating_updated _ _ _ _ Hndf Hin Hs); reflexivity.
  - unfold rateClient. unfold_monad. explore.
    all: try not_success.
    take_world. injection Heqo3 as ->.
    pose proof (find_some_in _ _ _ Heqo5) as Hin.
    pose proof (find_some_pred _ _ _ Heqo5) as Hs; cbv beta in Hs.
    apply String.eqb_eq in Hs.
    eexists. split; [cbn; apply in_or_app; right; left; reflexivity|].
    split; [reflexivity|].
    cbn [stored_rating r_raterType r_ratedId]. unfold find_client_by_user.
    cbn [clients ratings set_cache set_clients set_ratings].
    rewrite (client_rating_updated _ _ _ _ Hndc Hin Hs). reflexivity.
  - unfold updateRatingFreelancer. unfold_monad. explore.
    all: try not_success.
    all: take_world; injection Heqo5 as ->.
    all: pose proof (find_some_in _ _ _ Heqo6) as Hin;
         pose proof (find_some_pred _ _ _ Heqo6) as Hs; cbv beta in Hs;
         apply String.eqb_eq in Hs.
    all: pose proof (find_some_in _ _ _ Heqo2) as Hinr;
         pose proof (find_some_pred _ _ _ Heqo2) as Hr; cbv beta in Hr;
         apply andb_prop in Hr as [Hr Ht]; apply andb_prop in Hr as [Hr _];
         apply internal_RaterType_dec_bl in Ht.
    all: pose proof (rated_client w r0 p c Hwf Hinr Ht Heqo3 Heqo6) as Hu.
    all: eexists; split; [apply in_map; exact Hinr|]; cbv beta; rewrite Hr.
    all: cbv beta iota; cbn [r_raterType r_ratedId r_id].
    all: split; [apply String.eqb_eq; exact Hr|].
    all: rewrite Ht, Hu; unfold stored_rating, find_client_by_user;
         cbn [clients ratings set_cache set_clients set_ratings].
    all: rewrite (client_rating_updated _ _ _ _ Hndc Hin Hs); reflexivity.
Qed.

Lemma rating_write_recomputes_average_witness :
  rating_wf Scenarios.w_completed /\
  exists rt, In rt (ratings (snd (exec (OpRateClient "u1" "p1" 5 "r2") Scenarios.w_completed))) /\
    r_id rt = "r2" /\
    stored_rating (snd (exec (OpRateClient "u1" "p1" 5 "r2") Scenarios.w_completed))
      (r_raterType rt) (r_ratedId rt)
      = Some (toFixed2 (average (ratings_of
          (ratings (snd (exec (OpRateClient "u1" "p1" 5 "r2") Scenarios.w_completed)))
          (r_ratedId rt) (r_raterType rt)))).
Proof.
  assert (Hwf : rating_wf Scenarios.w_completed).
  { split; [|split].
    - cbn. repeat constructor; cbn; intuition discriminate.
    - cbn. repeat constructor; cbn; intuition discriminate.
    - intros rt [<-|[]]. eexists. split; [reflexivity|].
      cbn. eexists. split; reflexivity. }
  split; [exact Hwf|].
  apply (rating_write_recomputes_average (OpRateClient "u1" "p1" 5 "r2")
           Scenarios.w_completed "r2"
           (Resp 201 "Client rated successfully")); [exact Hwf|reflexivity| |].
  - vm_compute. reflexivity.
  - right. reflexivity.
Defined.

(** C3 as stated fails: the mean is a binary64 quotient before [toFixed(2)]
    rounds it.  Forty CLIENT_TO_FREELANCER ratings of [f1] summing to 41
    have the exact mean 1.025, which rounded half up to 2 decimals is 1.03;
    the double nearest 41/40 lies below 1.025, so the stored value is the
    double 1.02. *)
Lemma rating_average_half_down_counterexample :
  fst (exec (OpRateFreelancer "uc" "q40" 2 "r40") Scenarios.w_forty)
    = Done (Resp 201 "Freelancer rated successfully") /\
  (sum_ratings (ratings_of (ratings (snd (exec (OpRateFreelancer "uc" "q40" 2 "r40")
                                               Scenarios.w_forty)))
                           "u1" CLIENT_TO_FREELANCER) = 41)%Z /\
  length (ratings_of (ratings (snd (exec (OpRateFreelancer "uc" "q40" 2 "r40")
                                          Scenarios.w_forty)))
                     "u1" CLIENT_TO_FREELANCER) = 40 /\
  (Qfloor ((41 # 40) * 100 + (1 # 2))%Q = 103)%Z /\
  stored_rating (snd (exec (OpRateFreelancer "uc" "q40" 2 "r40") Scenarios.w_forty))
    CLIENT_TO_FREELANCER "u1" = Some (to_double (102 # 100)) /\
  stored_rating (snd (exec (OpRateFreelancer "uc" "q40" 2 "r40") Scenarios.w_forty))
    CLIENT_TO_FREELANCER "u1" <> Some (to_double (103 # 100)).
Proof.
  vm_compute. repeat split; try reflexivity. discriminate.
Qed.

End RatingFacts.

(** ** Two approvals of the same project *)
Module ConcurrentApprovals.
Import Model Handlers Concurrency Symbolic ApproveFacts System Scenarios.

(** C10 as stated fails: both requests pass their checks (schedule 0, 1)
    before either transaction runs (schedule 0, 1); both answer 200 and the
    project ends with two APPROVED applications, assigned to the later one. *)
Lemma interleaved_approvals_counterexample :
  let (ts, w') := run [0; 1; 0; 1]
                      [T_start "uc" "p1" "a1"; T_start "uc" "p1" "a2"] w_open in
  ts = [T_done approved_ok; T_done approved_ok] /\
  approved_count w' "p1" = 2 /\
  find_project w' "p1" = Some (mkProject "p1" "c1" (Some "f2") ASSIGNED None).
Proof. vm_compute. repeat split. Qed.

(** A list holding two different elements has at least two. *)
Lemma two_distinct_length {A} (l : list A) (x y : A) :
  In x l -> In y l -> x <> y -> (2 <= length l)%nat.
Proof.
  destruct l as [|a [|b l]]; cbn; intros Hx Hy Hxy; try lia; intuition congruence.
Qed.

Lemma find_application_approved (w : World) projectId aid aid' :
  find_application w aid' <> None ->
  find (fun a => String.eqb (a_id a) aid') (approved_apps projectId aid (applications w))
    <> None.
Proof.
  unfold find_application, approved_apps. rewrite find_map_same.
  - destruct (find _ (applications w)); [discriminate|congruence].
  - intros b. destruct (String.eqb (a_id b) aid); [reflexivity|].
    destruct (String.eqb (a_projectId b) projectId
              && ApplicationStatus_beq (a_status b) PENDING); reflexivity.
Qed.

Lemma find_project_assigned (w : World) projectId fid :
  find_project w projectId <> None ->
  find (fun q => String.eqb (p_id q) projectId) (assigned_projects projectId fid (projects w))
    <> None.
Proof.
  unfold find_project, assigned_projects. rewrite find_map_same.
  - destruct (find _ (projects w)); [discriminate|congruence].
  - intros q. destruct (String.eqb (p_id q) projectId) eqn:E; [|exact E].
    unfold assign_to; cbn [p_id]. rewrite E. reflexivity.
Qed.

(** C10, amended: for two different PENDING applications of the client's
    own OPEN project, when the two requests run one after the other
    (schedule 0, 0, 1, 1), the first approves its application and assigns
    the project to its applicant and the second is refused with 400
    because the project is no longer OPEN; when both pass their checks
    before either transaction runs (schedule 0, 1, 0, 1), both answer 200,
    both applications end APPROVED and the project ends assigned to the
    applicant of the later write. *)
Theorem sequential_approvals_one_wins (w : World)
  (userId projectId aid1 aid2 : string) (u : User) (c : Client) (p : Project)
  (a1 : Application) (f1 : Freelancer) (a2 : Application) (f2 : Freelancer) :
  find_user w userId = Some u -> u_isActive u = true ->
  find_client_by_user w userId = Some c ->
  find (fun q => String.eqb (p_id q) projectId && String.eqb (p_clientId q) (c_id c))
       (projects w) = Some p ->
  p_status p = OPEN ->
  find (fun b => String.eqb (a_id b) aid1 && String.eqb (a_projectId b) projectId)
       (applications w) = Some a1 ->
  a_status a1 = PENDING ->
  find_freelancer w (a_freelancerId a1) = Some f1 ->
  find (fun b => String.eqb (a_id b) aid2 && String.eqb (a_projectId b) projectId)
       (applications w) = Some a2 ->
  a_status a2 = PENDING ->
  find_freelancer w (a_freelancerId a2) = Some f2 ->
  aid1 <> aid2 ->
  (let (ts, w') := run [0; 0; 1; 1]
                       [T_start userId projectId aid1; T_start userId projectId aid2] w in
   ts = [T_done approved_ok; T_done not_open] /\
   projects w' = assigned_projects projectId (a_freelancerId a1) (projects w) /\
   applications w' = approved_apps projectId aid1 (applications w)) /\
  (let (ts, w') := run [0; 1; 0; 1]
                       [T_start userId projectId aid1; T_start userId projectId aid2] w in
   ts = [T_done approved_ok; T_done approved_ok] /\
   projects w' = assigned_projects projectId (a_freelancerId a2)
                   (assigned_projects projectId (a_freelancerId a1) (projects w)) /\
   applications w' = approved_apps projectId aid2
                       (approved_apps projectId aid1 (applications w)) /\
   (2 <= approved_count w' projectId)%nat).
Proof.
  intros Hu Hact Hc Hp Hopen Ha Hpend Hf Ha2 Hpend2 Hf2 Hne.
  pose proof (guard_ok w userId projectId aid1 u c p Hu Hact Hc Hp a1 f1 Hopen Ha Hpend Hf)
    as G1.
  pose proof (guard_ok w userId projectId aid2 u c p Hu Hact Hc Hp a2 f2 Hopen Ha2 Hpend2 Hf2)
    as G1'.
  pose proof (commit_effect w userId projectId aid1 a1 (f_userId f1)
                (found_application_by_id _ _ _ _ Ha) (found_project_by_id _ _ _ _ Hp))
    as C1.
  set (w1 := mkWorld (users w) (freelancers w) (clients w)
               (assigned_projects projectId (a_freelancerId a1) (projects w))
               (approved_apps projectId aid1 (applications w)) (ratings w)
               (Cache.deleteAll (cache w) (approve_keys userId (f_userId f1)))) in C1.
  assert (Hp1 : find (fun q => String.eqb (p_id q) projectId
                               && String.eqb (p_clientId q) (c_id c))
                     (projects w1) = Some (assign_to (a_freelancerId a1) p)).
  { unfold w1, assigned_projects; cbn [projects].
    rewrite find_map_same.
    - rewrite Hp. cbn [option_map].
      pose proof Hp as Hp'. apply find_some_pred, andb_prop in Hp'. destruct Hp' as [Hid _].
      rewrite Hid. reflexivity.
    - intros q. destruct (String.eqb (p_id q) projectId) eqn:E; [|rewrite E; reflexivity].
      unfold assign_to; cbn [p_id p_clientId]. rewrite E. reflexivity. }
  assert (G2 : approveApplication_guard userId projectId aid2 w1 = (Respond not_open, w1)).
  { apply (guard_not_open w1 userId projectId aid2 u c _ Hu Hact Hc Hp1).
    unfold assign_to; cbn [p_status]. discriminate. }
  pose proof (commit_effect w1 userId projectId aid2 a2 (f_userId f2)
                (find_application_approved w projectId aid1 aid2
                   (found_application_by_id _ _ _ _ Ha2))
                (find_project_assigned w projectId (a_freelancerId a1)
                   (found_project_by_id _ _ _ _ Hp)))
    as C2.
  assert (Hw1 : projects w1 = assigned_projects projectId (a_freelancerId a1) (projects w)
                /\ applications w1 = approved_apps projectId aid1 (applications w))
    by (split; reflexivity).
  (* The two APPROVED rows after the interleaved schedule. *)
  pose proof (find_some_in _ _ _ Ha) as Hin1.
  pose proof (find_some_in _ _ _ Ha2) as Hin2.
  apply find_some_pred, andb_prop in Ha as [Hi1 Hq1].
  apply find_some_pred, andb_prop in Ha2 as [Hi2 Hq2].
  assert (Hne' : String.eqb aid1 aid2 = false) by (apply String.eqb_neq; exact Hne).
  assert (Hne'' : String.eqb aid2 aid1 = false)
    by (apply String.eqb_neq; intros E; apply Hne; symmetry; exact E).
  assert (Hcount : (2 <= length (filter (fun a => String.eqb (a_projectId a) projectId
                                        && ApplicationStatus_beq (a_status a) APPROVED)
                     (approved_apps projectId aid2
                        (approved_apps projectId aid1 (applications w)))))%nat).
  { apply (two_distinct_length _ (set_app_status APPROVED a1) (set_app_status APPROVED a2)).
    - apply filter_In. split.
      + unfold approved_apps. rewrite map_map. apply in_map_iff.
        exists a1. split; [|exact Hin1].
        apply String.eqb_eq in Hi1 as E1. rewrite Hi1.
        unfold set_app_status; cbn [a_id a_status a_projectId a_freelancerId].
        rewrite E1, Hne', Hq1. reflexivity.
      + unfold set_app_status; cbn [a_projectId a_status]. rewrite Hq1. reflexivity.
    - apply filter_In. split.
      + unfold approved_apps. rewrite map_map. apply in_map_iff.
        exists a2. split; [|exact Hin2].
        apply String.eqb_eq in Hi2 as E2. rewrite E2, Hne'', Hq2, Hpend2.
        cbn [andb ApplicationStatus_beq].
        unfold set_app_status; cbn [a_id a_status a_projectId a_freelancerId].
        rewrite Hi2. reflexivity.
      + unfold set_app_status; cbn [a_projectId a_status]. rewrite Hq2. reflexivity.
    - intros E. apply (f_equal a_id) in E. unfold set_app_status in E; cbn [a_id] in E.
      apply String.eqb_eq in Hi1, Hi2. apply Hne. rewrite <- Hi1, <- Hi2. exact E. }
  clearbody w1.
  split.
  - cbn -[approveApplication_guard approveApplication_commit].
    rewrite G1. cbn -[approveApplication_guard approveApplication_commit].
    rewrite C1. cbn -[approveApplication_guard approveApplication_commit].
    rewrite G2. cbn -[approveApplication_guard approveApplication_commit].
    split; [reflexivity | exact Hw1].
  - cbn -[approveApplication_guard approveApplication_commit].
    rewrite G1. cbn -[approveApplication_guard approveApplication_commit].
    rewrite G1'. cbn -[approveApplication_guard approveApplication_commit].
    rewrite C1. cbn -[approveApplication_guard approveApplication_commit].
    rewrite C2. cbn -[approveApplication_guard approveApplication_commit approved_apps
                      assigned_projects].
    destruct Hw1 as [Hw1p Hw1a]. rewrite Hw1p, Hw1a.
    split; [reflexivity|]. split; [reflexivity|]. split; [reflexivity|].
    exact Hcount.
Qed.

Lemma sequential_approvals_one_wins_witness :
  (let (ts, w') := run [0; 0; 1; 1] [T_start "uc" "p1" "a1"; T_start "uc" "p1" "a2"] w_open in
   ts = [T_done approved_ok; T_done not_open] /\
   projects w' = assigned_projects "p1" "f1" (projects w_open) /\
   applications w' = approved_apps "p1" "a1" (applications w_open)) /\
  (let (ts, w') := run [0; 1; 0; 1] [T_start "uc" "p1" "a1"; T_start "uc" "p1" "a2"] w_open in
   ts = [T_done approved_ok; T_done approved_ok] /\
   projects w' = assigned_projects "p1" "f2" (assigned_projects "p1" "f1" (projects w_open)) /\
   applications w' = approved_apps "p1" "a2" (approved_apps "p1" "a1" (applications w_open)) /\
   (2 <= approved_count w' "p1")%nat).
Proof.
  apply (sequential_approvals_one_wins w_open "uc" "p1" "a1" "a2" uClient cl1
           (mkProject "p1" "c1" None OPEN None) app1 fl1 app2 fl2);
    try (vm_compute; reflexivity).
  discriminate.
Defined.

End ConcurrentApprovals.

Module LifecycleFacts.
Import Model Handlers System Symbolic.

Ltac leaf_err := eexists; split; [reflexivity | cbn; lia].

Ltac mismatch_contra :=
  find_facts;
  match goal with
  | H : project_status_is_not _ _ _ |- _ =>
      exfalso; eapply H; [eassumption | eassumption | eassumption]
  | H : application_status_is_not _ _ _ |- _ =>
      exfalso; eapply H; [eassumption | eassumption | eassumption]
  end.

(** C2: a lifecycle transition attempted from a status other than the one
    it requires answers with an error (a status code of at least 400) and
    leaves the whole world, tables and cache, exactly as it was. *)
Theorem transition_status_mismatch_no_write (op : Op) (w : World) :
  status_mismatch w op ->
  exists r, exec op w = (Done r, w) /\ 400 <= code r.
Proof.
  intros H. destruct op; cbn [status_mismatch] in H; try contradiction;
    cbn [exec].
  - unfold updateProjectStatus. unfold_monad. explore.
    all: try leaf_err.
    all: mismatch_contra.
  - unfold approveApplication, approveApplication_guard,
      approveApplication_commit. unfold_monad. explore.
    all: try leaf_err.
    all: destruct H as [H|H]; mismatch_contra.
  - unfold requestCompletion. unfold_monad. explore.
    all: try leaf_err.
    all: mismatch_contra.
  - unfold approveCompletion. unfold_monad. explore.
    all: try leaf_err.
    all: mismatch_contra.
  - unfold rejectCompletion. unfold_monad. explore.
    all: try leaf_err.
    all: mismatch_contra.
Qed.

Lemma transition_status_mismatch_no_write_witness :
  exists r, exec (OpApproveCompletion "uc" "p1") Scenarios.w_open
            = (Done r, Scenarios.w_open) /\ 400 <= code r.
Proof.
  apply transition_status_mismatch_no_write.
  cbn. intros q [<-|[]] _. discriminate.
Defined.

End LifecycleFacts.

(** ** The approval invariant under each operation *)
Module InvariantFacts.
Import Model Handlers System Symbolic ApproveFacts Concurrency Scenarios.

Lemma inv_l_world (w : World) :
  approved_inv w /\ db_wf w <-> inv_l (projects w) (applications w).
Proof. unfold approved_inv, db_wf, inv_l, approved_count, count_l. tauto. Qed.

Lemma length_filter_map {A B} (f : B -> bool) (g : A -> B) (l : list A) :
  length (filter f (map g l)) = length (filter (fun x => f (g x)) l).
Proof.
  induction l as [|x l IH]; cbn; [reflexivity|].
  destruct (f (g x)); cbn; auto.
Qed.

Lemma length_filter_ext_in {A} (f g : A -> bool) (l : list A) :
  (forall x, In x l -> f x = g x) -> length (filter f l) = length (filter g l).
Proof.
  intros H. induction l as [|x l IH]; cbn; [reflexivity|].
  rewrite (H x (or_introl eq_refl)).
  destruct (g x); cbn; rewrite IH by (intros y Hy; apply H; right; exact Hy);
    reflexivity.
Qed.

Lemma length_filter_false {A} (f : A -> bool) (l : list A) :
  (forall x, In x l -> f x = false) -> length (filter f l) = 0.
Proof.
  intros H. induction l as [|x l IH]; cbn; [reflexivity|].
  rewrite (H x (or_introl eq_refl)). apply IH. intros y Hy. apply H. right. exact Hy.
Qed.

Lemma length_filter_or {A} (f g : A -> bool) (l : list A) :
  (forall x, In x l -> f x = true -> g x = false) ->
  length (filter (fun x => f x || g x) l) = length (filter f l) + length (filter g l).
Proof.
  intros H. induction l as [|x l IH]; cbn; [reflexivity|].
  assert (IH' : length (filter (fun x => f x || g x) l)
                = length (filter f l) + length (filter g l))
    by (apply IH; intros y Hy; apply H; right; exact Hy).
  destruct (f x) eqn:Ef, (g x) eqn:Eg; cbn.
  - pose proof (H x (or_introl eq_refl) Ef). congruence.
  - rewrite IH'. reflexivity.
  - rewrite IH'. lia.
  - exact IH'.
Qed.

Lemma nodup_key_unique {A} (key : A -> string) (l : list A) (x y : A) :
  NoDup (map key l) -> In x l -> In y l -> key x = key y -> x = y.
Proof.
  induction l as [|z l IH]; cbn; [tauto|].
  intros Hnd Hx Hy Hk. inversion Hnd as [|? ? Hn Hnd']; subst.
  destruct Hx as [<-|Hx], Hy as [<-|Hy]; auto.
  - exfalso. apply Hn. rewrite Hk. apply in_map. exact Hy.
  - exfalso. apply Hn. rewrite <- Hk. apply in_map. exact Hx.
Qed.

Lemma nodup_snoc {A} (l : list A) (x : A) : NoDup l -> ~ In x l -> NoDup (l ++ [x]).
Proof.
  induction l as [|y l IH]; cbn; intros Hnd Hn.
  - constructor; [tauto|constructor].
  - inversion Hnd as [|? ? Hy Hnd']; subst. constructor.
    + rewrite in_app_iff. cbn. intros [H|[H|[]]]; [tauto|]. apply Hn. left. symmetry. exact H.
    + apply IH; [exact Hnd'|tauto].
Qed.

Lemma count_id_once (l : list Application) (a : Application) :
  NoDup (map a_id l) -> In a l ->
  length (filter (fun b => String.eqb (a_id b) (a_id a)) l) = 1.
Proof.
  induction l as [|b l IH]; cbn; [tauto|].
  intros Hnd Hin. inversion Hnd as [|? ? Hn Hnd']; subst.
  destruct Hin as [<-|Hin].
  - rewrite String.eqb_refl. cbn. f_equal. apply length_filter_false.
    intros x Hx. apply String.eqb_neq. intros E. apply Hn. rewrite <- E.
    apply in_map. exact Hx.
  - destruct (String.eqb (a_id b) (a_id a)) eqn:E.
    + apply String.eqb_eq in E. exfalso. apply Hn. rewrite E. apply in_map. exact Hin.
    + apply IH; assumption.
Qed.

(** Rewriting project rows: ids kept, and each row stays on its side of
    ASSIGNED-or-later. *)
Lemma inv_map_projects (g : Project -> Project) (ps : list Project)
  (l : list Application) :
  (forall q, In q ps -> p_id (g q) = p_id q /\
     assigned_or_later (p_status (g q)) = assigned_or_later (p_status q)) ->
  inv_l ps l -> inv_l (map g ps) l.
Proof.
  intros Hg (Hi & Hnp & Hna & Hf).
  assert (Hids : map p_id (map g ps) = map p_id ps).
  { rewrite map_map. apply map_ext_in. intros q Hq. apply Hg, Hq. }
  split; [|split; [rewrite Hids; exact Hnp|split; [exact Hna|rewrite Hids; exact Hf]]].
  intros p' Hp'. apply in_map_iff in Hp' as (q & <- & Hq).
  destruct (Hg q Hq) as [E1 E2]. rewrite E1, E2. apply Hi, Hq.
Qed.

(** Rewriting application rows: ids and projects kept, and no row becomes or
    stops being APPROVED. *)
Lemma inv_map_apps (h : Application -> Application) (ps : list Project)
  (l : list Application) :
  (forall b, In b l -> a_projectId (h b) = a_projectId b /\ a_id (h b) = a_id b /\
     ApplicationStatus_beq (a_status (h b)) APPROVED
     = ApplicationStatus_beq (a_status b) APPROVED) ->
  inv_l ps l -> inv_l ps (map h l).
Proof.
  intros Hh (Hi & Hnp & Hna & Hf).
  assert (Hc : forall pid, count_l (map h l) pid = count_l l pid).
  { intros pid. unfold count_l. rewrite length_filter_map. apply length_filter_ext_in.
    intros b Hb. destruct (Hh b Hb) as (E1 & _ & E3). rewrite E1, E3. reflexivity. }
  split; [intros p Hp; rewrite Hc; apply Hi, Hp|].
  split; [exact Hnp|]. split.
  - rewrite map_map, (map_ext_in (fun x => a_id (h x)) a_id l); [exact Hna|].
    intros b Hb. apply Hh, Hb.
  - apply Forall_map. rewrite Forall_forall in Hf |- *. intros b Hb.
    rewrite (proj1 (Hh b Hb)). apply Hf, Hb.
Qed.

(** A new application row: fresh id, an existing project, not APPROVED. *)
Lemma inv_append_app (ps : list Project) (l : list Application) (a : Application) :
  ApplicationStatus_beq (a_status a) APPROVED = false ->
  In (a_projectId a) (map p_id ps) -> ~ In (a_id a) (map a_id l) ->
  inv_l ps l -> inv_l ps (l ++ [a]).
Proof.
  intros Hs Hp Hfresh (Hi & Hnp & Hna & Hf).
  assert (Hc : forall pid, count_l (l ++ [a]) pid = count_l l pid).
  { intros pid. unfold count_l. rewrite filter_app, length_app. cbn.
    rewrite Hs, andb_false_r. cbn. lia. }
  split; [intros p Hp'; rewrite Hc; apply Hi, Hp'|].
  split; [exact Hnp|]. split.
  - rewrite map_app. apply nodup_snoc; assumption.
  - apply Forall_app. split; [exact Hf|]. constructor; [exact Hp|constructor].
Qed.

(** A new project row: fresh id, not ASSIGNED or later. *)
Lemma inv_append_project (ps : list Project) (l : list Application) (p : Project) :
  assigned_or_later (p_status p) = false -> ~ In (p_id p) (map p_id ps) ->
  inv_l ps l -> inv_l (ps ++ [p]) l.
Proof.
  intros Hs Hfresh (Hi & Hnp & Hna & Hf).
  split; [|split; [rewrite map_app; apply nodup_snoc; assumption|split; [exact Hna|]]].
  - intros q Hq. apply in_app_iff in Hq as [Hq|[<-|[]]]; [apply Hi, Hq|].
    assert (H0 : count_l l (p_id p) = 0).
    { unfold count_l. apply length_filter_false. intros b Hb.
      rewrite Forall_forall in Hf. specialize (Hf b Hb).
      destruct (String.eqb (a_projectId b) (p_id p)) eqn:E; [|reflexivity].
      apply String.eqb_eq in E. rewrite E in Hf. contradiction. }
    rewrite H0, Hs. split; [lia|split; discriminate].
  - rewrite Forall_forall in Hf |- *. intros b Hb. rewrite map_app.
    apply in_or_app. left. apply Hf, Hb.
Qed.

(** The approval: an OPEN project and a PENDING application of it. *)
Lemma inv_approve (ps : list Project) (l : list Application)
  (projectId fid applicationId : string) (p : Project) (a : Application) :
  In p ps -> p_id p = projectId -> p_status p = OPEN ->
  In a l -> a_id a = applicationId -> a_projectId a = projectId ->
  a_status a = PENDING ->
  inv_l ps l ->
  inv_l (assigned_projects projectId fid ps) (approved_apps projectId applicationId l).
Proof.
  intros Hp Hpid Hopen Ha Haid Hapid Hpend (Hi & Hnp & Hna & Hf).
  assert (H0 : count_l l projectId = 0).
  { destruct (Hi p Hp) as [Hle Hiff]. rewrite Hopen in Hiff. rewrite Hpid in Hle, Hiff.
    cbn in Hiff. destruct (count_l l projectId) as [|[|n]]; [reflexivity| |lia].
    destruct Hiff as [H _]. discriminate (H eq_refl). }
  assert (Hc : forall pid, count_l (approved_apps projectId applicationId l) pid
                = count_l l pid + (if String.eqb projectId pid then 1 else 0)).
  { intros pid. unfold count_l, approved_apps. rewrite length_filter_map.
    rewrite (length_filter_ext_in _
      (fun b => (String.eqb (a_projectId b) pid
                 && ApplicationStatus_beq (a_status b) APPROVED)
                || (String.eqb (a_id b) applicationId && String.eqb projectId pid)) l).
    - rewrite length_filter_or.
      + f_equal. destruct (String.eqb projectId pid).
        * rewrite (length_filter_ext_in _ (fun b => String.eqb (a_id b) (a_id a)) l).
          -- apply count_id_once; assumption.
          -- intros b _. rewrite Haid, andb_true_r. reflexivity.
        * apply length_filter_false. intros b _. apply andb_false_r.
      + intros b Hb H1. apply andb_prop in H1 as [_ H2].
        apply internal_ApplicationStatus_dec_bl in H2.
        destruct (String.eqb (a_id b) applicationId) eqn:E; [|reflexivity].
        apply String.eqb_eq in E. rewrite <- Haid in E.
        rewrite (nodup_key_unique a_id l b a Hna Hb Ha E), Hpend in H2. discriminate H2.
    - intros b Hb. unfold set_app_status.
      destruct (String.eqb (a_id b) applicationId) eqn:E.
      + apply String.eqb_eq in E. rewrite <- Haid in E.
        rewrite (nodup_key_unique a_id l b a Hna Hb Ha E).
        cbn [a_projectId a_status a_id]. rewrite Hapid, Hpend.
        destruct (String.eqb projectId pid); reflexivity.
      + destruct (String.eqb (a_projectId b) projectId
                  && ApplicationStatus_beq (a_status b) PENDING) eqn:E2.
        * apply andb_prop in E2 as [_ E2]. apply internal_ApplicationStatus_dec_bl in E2.
          cbn [a_projectId a_status]. rewrite E2.
          destruct (String.eqb (a_projectId b) pid); reflexivity.
        * destruct (String.eqb (a_projectId b) pid
                    && ApplicationStatus_beq (a_status b) APPROVED); reflexivity. }
  assert (Hids : map p_id (assigned_projects projectId fid ps) = map p_id ps).
  { unfold assigned_projects. rewrite map_map. apply map_ext_in. intros q _.
    destruct (String.eqb (p_id q) projectId); reflexivity. }
  split; [|split; [rewrite Hids; exact Hnp|split]].
  - intros q' Hq'. unfold assigned_projects in Hq'.
    apply in_map_iff in Hq' as (q & <- & Hq).
    destruct (String.eqb (p_id q) projectId) eqn:E.
    + apply String.eqb_eq in E. rewrite <- Hpid in E.
      rewrite (nodup_key_unique p_id ps q p Hnp Hq Hp E).
      unfold assign_to. cbn [p_id p_status]. rewrite Hc, Hpid, String.eqb_refl, H0.
      cbn. split; [lia|tauto].
    + rewrite Hc, String.eqb_sym, E, Nat.add_0_r. apply Hi, Hq.
  - unfold approved_apps. rewrite map_map, (map_ext_in _ a_id l); [exact Hna|].
    intros b _. destruct (String.eqb (a_id b) applicationId); [reflexivity|].
    destruct (String.eqb (a_projectId b) projectId
              && ApplicationStatus_beq (a_status b) PENDING); reflexivity.
  - rewrite Hids. unfold approved_apps. apply Forall_map.
    rewrite Forall_forall in Hf |- *. intros b Hb. unfold set_app_status.
    destruct (String.eqb (a_id b) applicationId); [exact (Hf b Hb)|].
    destruct (String.eqb (a_projectId b) projectId
              && ApplicationStatus_beq (a_status b) PENDING); exact (Hf b Hb).
Qed.

Lemma inv_update_row (g : Project -> Project) (ps : list Project)
  (l : list Application) (id : string) (p0 : Project) :
  inv_l ps l -> In p0 ps -> p_id p0 = id -> p_id (g p0) = p_id p0 ->
  assigned_or_later (p_status (g p0)) = assigned_or_later (p_status p0) ->
  inv_l (map (fun q => if String.eqb (p_id q) id then g q else q) ps) l.
Proof.
  intros Hinv Hin Hid Hg1 Hg2. apply inv_map_projects; [|exact Hinv].
  intros q Hq. destruct (String.eqb (p_id q) id) eqn:E; [|split; reflexivity].
  apply String.eqb_eq in E. rewrite <- Hid in E.
  destruct Hinv as (_ & Hnp & _).
  rewrite (nodup_key_unique p_id ps q p0 Hnp Hq Hin E). split; assumption.
Qed.

Lemma inv_update_app (g : Application -> Application) (ps : list Project)
  (l : list Application) (id : string) (a0 : Application) :
  inv_l ps l -> In a0 l -> a_id a0 = id ->
  a_projectId (g a0) = a_projectId a0 -> a_id (g a0) = a_id a0 ->
  ApplicationStatus_beq (a_status (g a0)) APPROVED
  = ApplicationStatus_beq (a_status a0) APPROVED ->
  inv_l ps (map (fun b => if String.eqb (a_id b) id then g b else b) l).
Proof.
  intros Hinv Hin Hid Hg1 Hg2 Hg3. apply inv_map_apps; [|exact Hinv].
  intros b Hb. destruct (String.eqb (a_id b) id) eqn:E; [|repeat split].
  apply String.eqb_eq in E. rewrite <- Hid in E.
  destruct Hinv as (_ & _ & Hna & _).
  rewrite (nodup_key_unique a_id l b a0 Hna Hb Hin E). repeat split; assumption.
Qed.

(** The admin's bulk update: the rows it rewrites are ADMIN_VERIFICATION
    ones, and they become OPEN or CANCELLED. *)
Lemma inv_bulk (g : Project -> Project) (sel : Project -> bool)
  (ps : list Project) (l : list Application) :
  inv_l ps l ->
  (forall q, sel q = true -> assigned_or_later (p_status q) = false) ->
  (forall q, p_id (g q) = p_id q) ->
  (forall q, assigned_or_later (p_status (g q)) = false) ->
  inv_l (map (fun q => if existsb (String.eqb (p_id q)) (map p_id (filter sel ps))
                       then g q else q) ps) l.
Proof.
  intros Hinv Hsel Hg1 Hg2. apply inv_map_projects; [|exact Hinv].
  intros q Hq.
  destruct (existsb (String.eqb (p_id q)) (map p_id (filter sel ps))) eqn:E;
    [|split; reflexivity].
  apply existsb_exists in E as (x & Hx & Hqx). apply String.eqb_eq in Hqx.
  apply in_map_iff in Hx as (q' & <- & Hq'). apply filter_In in Hq' as [Hq' Hs].
  destruct Hinv as (_ & Hnp & _).
  rewrite (nodup_key_unique p_id ps q q' Hnp Hq Hq' Hqx).
  split; [apply Hg1|]. rewrite Hg2, (Hsel q' Hs). reflexivity.
Qed.

Lemma find_none_fresh {A} (key : A -> string) (l : list A) (id : string) :
  find (fun x => String.eqb (key x) id) l = None -> ~ In id (map key l).
Proof.
  intros H Hin. apply in_map_iff in Hin as (x & Hx & Hin).
  pose proof (find_none _ _ H x Hin) as Hf. cbv beta in Hf.
  rewrite Hx, String.eqb_refl in Hf. discriminate Hf.
Qed.

Lemma find_some_key {A} (key : A -> string) (l : list A) (id : string) (x : A) :
  find (fun y => String.eqb (key y) id) l = Some x -> In id (map key l).
Proof.
  intros H. pose proof (find_some_in _ _ _ H) as Hin.
  pose proof (find_some_pred _ _ _ H) as Hx; cbv beta in Hx.
  apply String.eqb_eq in Hx. rewrite <- Hx. apply in_map. exact Hin.
Qed.

Lemma existsb_fresh_id (l : list Application) (id : string)
  (r : Application -> bool) :
  existsb (fun b => String.eqb (a_id b) id || r b) l = false -> ~ In id (map a_id l).
Proof.
  intros H Hin. apply in_map_iff in Hin as (b & Hb & Hin).
  assert (E : existsb (fun b => String.eqb (a_id b) id || r b) l = true).
  { apply existsb_exists. exists b. split; [exact Hin|].
    rewrite Hb, String.eqb_refl. reflexivity. }
  congruence.
Qed.

(** The approval transaction's two application updates, composed. *)
Lemma approve_apps_composed (projectId applicationId : string)
  (l : list Application) :
  map (fun b => if String.eqb (a_projectId b) projectId
                   && negb (String.eqb (a_id b) applicationId)
                   && ApplicationStatus_beq (a_status b) PENDING
                then set_app_status REJECTED b else b)
      (map (fun b => if String.eqb (a_id b) applicationId
                     then set_app_status APPROVED b else b) l)
  = approved_apps projectId applicationId l.
Proof.
  unfold approved_apps. rewrite map_map. apply map_ext. intros b.
  destruct (String.eqb (a_id b) applicationId) eqn:E; simpl.
  - rewrite E. rewrite !andb_false_r. reflexivity.
  - rewrite E. simpl. rewrite andb_true_r. reflexivity.
Qed.

Lemma w_open_inv : approved_inv w_open.
Proof.
  intros p Hp. cbn in Hp. destruct Hp as [<-|[]].
  vm_compute. split; [lia|split; discriminate].
Qed.

Lemma w_open_wf : db_wf w_open.
Proof.
  vm_compute. split; [|split].
  - constructor; [intros []|constructor].
  - constructor; [intros [H|[]]; discriminate H|].
    constructor; [intros []|constructor].
  - constructor; [left; reflexivity|]. constructor; [left; reflexivity|constructor].
Qed.

Ltac row_leaf Hinv :=
  find_facts;
  match goal with
  | Hs : p_status ?p0 = _, Hin : In ?p0 (projects _) |- _ =>
      eapply (inv_update_row _ _ _ _ p0 Hinv Hin);
      [congruence | reflexivity | cbn [p_status]; rewrite Hs; reflexivity]
  end.

Ltac app_leaf Hinv :=
  find_facts;
  match goal with
  | Hs : a_status ?a0 = PENDING, Hin : In ?a0 (applications _) |- _ =>
      eapply (inv_update_app _ _ _ _ a0 Hinv Hin);
      [congruence | reflexivity | reflexivity
      | unfold set_app_status; cbn [a_status]; rewrite Hs; reflexivity]
  end.

(** C4 as stated fails: from p1 OPEN with two PENDING applications, where
    the invariant holds, two approvals whose checks both run before either
    transaction leave p1 with two APPROVED applications. *)
Lemma interleaved_approvals_break_invariant :
  approved_inv w_open /\ db_wf w_open /\
  let (ts, w') := run [0; 1; 0; 1]
                      [T_start "uc" "p1" "a1"; T_start "uc" "p1" "a2"] w_open in
  ts = [T_done approved_ok; T_done approved_ok] /\ ~ approved_inv w'.
Proof.
  split; [exact w_open_inv|split; [exact w_open_wf|]].
  vm_compute. split; [reflexivity|]. intros H.
  destruct (H _ (or_introl eq_refl)) as [H1 _]. vm_compute in H1. lia.
Qed.

(** C4, amended: every operation run on its own (one request at a time)
    keeps the invariant, on a database whose project and application ids
    are unique and whose applications reference existing projects; it
    keeps these database guarantees too. *)
Theorem ops_preserve_approved_inv (op : Op) (w : World) :
  approved_inv w -> db_wf w ->
  approved_inv (snd (exec op w)) /\ db_wf (snd (exec op w)).
Proof.
  intros H1 H2. apply inv_l_world.
  pose proof (proj1 (inv_l_world w) (conj H1 H2)) as Hinv. clear H1 H2.
  destruct op; cbn [exec].
  - unfold createProject. unfold_monad. explore. all: try exact Hinv.
    all: apply inv_append_project; [reflexivity| |exact Hinv].
    all: match goal with
         | H : find _ (projects _) = None |- _ => exact (find_none_fresh _ _ _ H)
         end.
  - unfold updateProjectStatus. unfold_monad. explore. all: try exact Hinv.
    all: row_leaf Hinv.
  - unfold bulkStatus. unfold_monad. explore. all: try exact Hinv.
    all: eapply inv_bulk; [exact Hinv| |intros q; reflexivity|intros q; reflexivity].
    all: intros q Hs; apply andb_prop in Hs as [_ Hs]; unfold is_status in Hs;
         apply internal_ProjectStatus_dec_bl in Hs; rewrite Hs; reflexivity.
  - unfold apply. unfold_monad. explore. all: try exact Hinv.
    apply inv_append_app; [reflexivity| |exact (existsb_fresh_id _ _ _ Heqb4)|exact Hinv].
    exact (find_some_key _ _ _ _ Heqo2).
  - unfold rejectApplication. unfold_monad. explore. all: try exact Hinv.
    app_leaf Hinv.
  - unfold approveApplication, approveApplication_guard, approveApplication_commit.
    unfold_monad. explore. all: try exact Hinv.
    rewrite approve_apps_composed. find_facts.
    match goal with
    | Hs : p_status ?p0 = OPEN, Hp : In ?p0 (projects _),
      Ha : a_status ?a0 = PENDING, Hai : In ?a0 (applications _) |- _ =>
        eapply (inv_approve _ _ _ _ _ p0 a0 Hp); try eassumption; congruence
    end.
  - unfold requestCompletion. unfold_monad. explore. all: try exact Hinv.
    row_leaf Hinv.
  - unfold approveCompletion. unfold_monad. explore. all: try exact Hinv.
    row_leaf Hinv.
  - unfold rejectCompletion. unfold_monad. explore. all: try exact Hinv.
    row_leaf Hinv.
  - unfold rateFreelancer. unfold_monad. explore. all: exact Hinv.
  - unfold updateRatingClient. unfold_monad. explore. all: exact Hinv.
  - unfold rateClient. unfold_monad. explore. all: exact Hinv.
  - unfold updateRatingFreelancer. unfold_monad. explore. all: exact Hinv.
Qed.

Lemma ops_preserve_approved_inv_witness :
  approved_inv w_open /\ db_wf w_open /\
  approved_inv (snd (exec (OpApproveApplication "uc" "p1" "a1") w_open)) /\
  db_wf (snd (exec (OpApproveApplication "uc" "p1" "a1") w_open)).
Proof.
  split; [exact w_open_inv|split; [exact w_open_wf|]].
  apply ops_preserve_approved_inv; [exact w_open_inv|exact w_open_wf].
Defined.

End InvariantFacts.

(** ** Email syntax *)
Module RegexFacts.
Import Regex Helpers.

Lemma plus_then_spec f k s :
  plus_then f k s = true <->
  exists a b, s = a ++ b /\ a <> "" /\ all_chars f a = true /\ k b = true.
Proof.
  induction s as [|c s IH]; simpl.
  - split; [discriminate|]. intros (a & b & E & Ha & _).
    destruct a; [congruence|discriminate].
  - rewrite andb_true_iff, orb_true_iff, IH. split.
    + intros [Hf [Hk | (a & b & E & Ha & Hall & Hk)]].
      * exists (String c ""), s. simpl. rewrite Hf. repeat split; congruence.
      * exists (String c a), b. simpl. rewrite Hf, Hall, E. repeat split; congruence.
    + intros (a & b & E & Ha & Hall & Hk).
      destruct a as [|c0 a]; [congruence|]. simpl in E, Hall.
      injection E as <- ->. apply andb_true_iff in Hall as [Hf Hall].
      split; [exact Hf|].
      destruct a as [|c1 a]; [left; exact Hk|].
      right. exists (String c1 a), b. repeat split; auto; discriminate.
Qed.

Lemma char_then_spec c0 k s :
  char_then c0 k s = true <-> exists b, s = String c0 b /\ k b = true.
Proof.
  destruct s as [|c s]; simpl.
  - split; [discriminate|]. intros (b & E & _). discriminate.
  - rewrite andb_true_iff, Ascii.eqb_eq. split.
    + intros [-> Hk]. exists s. auto.
    + intros (b & E & Hk). injection E as -> ->. auto.
Qed.

Lemma append_empty_r s : s ++ "" = s.
Proof. induction s; simpl; congruence. Qed.

Lemma end_of_input_spec s : end_of_input s = true <-> s = "".
Proof. destruct s; simpl; split; congruence. Qed.

Lemma all_chars_app f a b :
  all_chars f (a ++ b) = all_chars f a && all_chars f b.
Proof. induction a; simpl; [reflexivity|]. rewrite IHa, andb_assoc. reflexivity. Qed.

Lemma count_char_app c a b : count_char c (a ++ b) = count_char c a + count_char c b.
Proof. induction a; simpl; [reflexivity|]. rewrite IHa. lia. Qed.

Lemma all_not_space_at s :
  all_chars not_space_at s = true ->
  count_char "@"%char s = 0 /\ all_chars (fun c => negb (is_space c)) s = true.
Proof.
  induction s as [|c s IH]; simpl; [auto|].
  unfold not_space_at at 1. intros H.
  apply andb_true_iff in H as [H1 H2]. apply andb_true_iff in H1 as [Hs Ha].
  destruct (IH H2) as [E1 E2]. rewrite E1, E2, Hs.
  apply negb_true_iff in Ha. rewrite Ha. auto.
Qed.

(** isValidEmail ([/^[^\s@]+@[^\s@]+\.[^\s@]+$/]): an address is accepted
    exactly when it is a non-empty local part, an [@], a non-empty domain,
    a dot and a non-empty suffix, none of the three parts holding an [@] or
    a white-space character; an accepted address has exactly one [@] and no
    white space. *)
Theorem isValidEmail_spec (email : string) :
  (isValidEmail email = true <->
   exists local domain tld,
     email = local ++ "@" ++ domain ++ "." ++ tld /\
     local <> "" /\ domain <> "" /\ tld <> "" /\
     all_chars not_space_at local = true /\
     all_chars not_space_at domain = true /\
     all_chars not_space_at tld = true) /\
  (isValidEmail email = true ->
   count_char "@"%char email = 1 /\
   all_chars (fun c => negb (is_space c)) email = true).
Proof.
  assert (Hspec : isValidEmail email = true <->
   exists local domain tld,
     email = local ++ "@" ++ domain ++ "." ++ tld /\
     local <> "" /\ domain <> "" /\ tld <> "" /\
     all_chars not_space_at local = true /\
     all_chars not_space_at domain = true /\
     all_chars not_space_at tld = true).
  { unfold isValidEmail. rewrite plus_then_spec. split.
    - intros (l & r & E & Hl & Hal & Hr).
      apply char_then_spec in Hr as (r1 & -> & Hr).
      apply plus_then_spec in Hr as (d & r2 & -> & Hd & Had & Hr).
      apply char_then_spec in Hr as (r3 & -> & Hr).
      apply plus_then_spec in Hr as (t & r4 & -> & Ht & Hat & Hr).
      apply end_of_input_spec in Hr as ->.
      exists l, d, t. rewrite E, append_empty_r. repeat split; auto.
    - intros (l & d & t & E & Hl & Hd & Ht & Hal & Had & Hat).
      exists l, ("@" ++ d ++ "." ++ t). repeat split; auto.
      apply char_then_spec. eexists; split; [reflexivity|].
      apply plus_then_spec. exists d, ("." ++ t). repeat split; auto.
      apply char_then_spec. eexists; split; [reflexivity|].
      apply plus_then_spec. exists t, "". repeat split; auto.
      rewrite append_empty_r. reflexivity. }
  split; [exact Hspec|].
  intros H. apply Hspec in H as (l & d & t & E & _ & _ & _ & Hal & Had & Hat).
  subst email. apply all_not_space_at in Hal as [Cl Sl].
  apply all_not_space_at in Had as [Cd Sd].
  apply all_not_space_at in Hat as [Ct St].
  rewrite count_char_app, all_chars_app. simpl.
  rewrite count_char_app, all_chars_app. simpl.
  rewrite Cl, Cd, Ct, Sl, Sd, St. simpl. auto.
Qed.
End RegexFacts.

(** ** Generated codes *)
Module OtpCodeFacts.
Import Regex OtpCode Helpers.


Lemma digitsZ_more f z acc : (10 <= z)%Z ->
  digitsZ (S f) z acc = digitsZ f (z / 10) (String (dig z) acc).
Proof.
  intros H. simpl. destruct (z <? 10)%Z eqn:E; [apply Z.ltb_lt in E; lia|reflexivity].
Qed.

Lemma digitsZ_last f z acc : (z < 10)%Z ->
  digitsZ (S f) z acc = String (dig z) acc.
Proof.
  intros H. simpl. destruct (z <? 10)%Z eqn:E; [reflexivity|apply Z.ltb_ge in E; lia].
Qed.

Lemma is_digit_dig z : (0 <= z)%Z -> is_digit (dig z) = true.
Proof.
  intros Hz. unfold is_digit, dig.
  pose proof (Z.mod_pos_bound z 10 ltac:(lia)).
  rewrite Ascii.nat_ascii_embedding by lia.
  apply andb_true_iff; split; apply Nat.leb_le; lia.
Qed.

Lemma six_digit_numeral z : (100000 <= z <= 999999)%Z ->
  String.length (string_of_Z z) = 6 /\ six_digits (string_of_Z z) = true.
Proof.
  intros Hz. unfold string_of_Z.
  destruct (z <? 0)%Z eqn:E; [apply Z.ltb_lt in E; lia|].
  assert (Hl : (5 <= Z.log2 z)%Z).
  { change 5%Z with (Z.log2 32). apply Z.log2_le_mono. lia. }
  remember (Z.to_nat (Z.log2 z)) as m eqn:Hm.
  destruct m as [|[|[|[|[|m]]]]]; [lia..|].
  rewrite digitsZ_more by lia.
  rewrite digitsZ_more by (apply Z.div_le_lower_bound; lia).
  rewrite digitsZ_more by (apply Z.div_le_lower_bound; [lia|]; apply Z.div_le_lower_bound; lia).
  rewrite digitsZ_more by (repeat (apply Z.div_le_lower_bound; [lia|]); lia).
  rewrite digitsZ_more by (repeat (apply Z.div_le_lower_bound; [lia|]); lia).
  rewrite digitsZ_last.
  2:{ repeat (rewrite Z.div_div by lia). apply Z.div_lt_upper_bound; lia. }
  split; [cbn [String.length]; reflexivity|].
  unfold six_digits; cbn [times_then end_of_input].
  assert (P : forall k, (0 <= k)%Z -> (0 <= k / 10)%Z) by (intros; apply Z.div_pos; lia).
  repeat rewrite is_digit_dig by (repeat apply P; lia).
  reflexivity.
Qed.

Lemma otp_range rnd : (0 <= rnd < 1)%Q ->
  (100000 <= Qfloor (100000 + rnd * 900000) <= 999999)%Z.
Proof.
  intros [H0 H1]. split.
  - assert (H : (Qfloor (inject_Z 100000) <= Qfloor (100000 + rnd * 900000))%Z)
      by (apply Qfloor_resp_le; unfold inject_Z; lra).
    rewrite Qfloor_Z in H. exact H.
  - pose proof (Qfloor_le (100000 + rnd * 900000)) as Hf.
    assert (H : (inject_Z (Qfloor (100000 + rnd * 900000)) < inject_Z 1000000)%Q).
    { unfold inject_Z at 2. lra. }
    rewrite <- Zlt_Qlt in H. lia.
Qed.

(** generateOTP and generateEmailVerificationOTP: for a random draw in
    [0, 1) the code is a six-character string of decimal digits, so it
    passes the [/^\d{6}$/] check of the verification routes. *)
Theorem generated_otp_passes_check (rnd : Q) :
  (0 <= rnd < 1)%Q ->
  (String.length (generateOTP rnd) = 6 /\ six_digits (generateOTP rnd) = true) /\
  (String.length (generateEmailVerificationOTP rnd) = 6 /\
   six_digits (generateEmailVerificationOTP rnd) = true).
Proof.
  intros H. apply otp_range in H.
  split; apply six_digit_numeral; exact H.
Qed.

Lemma generated_otp_passes_check_witness :
  (0 <= 1 # 2 < 1)%Q /\ generateOTP (1 # 2) = "550000" /\
  (String.length (generateOTP (1 # 2)) = 6 /\ six_digits (generateOTP (1 # 2)) = true) /\
  (String.length (generateEmailVerificationOTP (1 # 2)) = 6 /\
   six_digits (generateEmailVerificationOTP (1 # 2)) = true).
Proof.
  assert (H : (0 <= 1 # 2 < 1)%Q) by (split; [vm_compute; discriminate | reflexivity]).
  split; [exact H|]. split; [vm_compute; reflexivity|].
  exact (generated_otp_passes_check (1 # 2) H).
Defined.
End OtpCodeFacts.

(** ** Signup, login, password reset and email verification *)
Module AccountFacts.
Import Cache Otp Model Regex OtpCode Accounts CacheFacts OtpCodeFacts AuthScenarios.

Lemma valid_not_blank e : isValidEmail e = true -> blank e = false.
Proof. destruct e; [discriminate|reflexivity]. Qed.

Lemma lookup_elapse_none {V} (s : Store V) n k :
  lookup s k = None -> lookup (elapse s n) k = None.
Proof.
  induction s as [|[k0 [v t]] s IH]; simpl; [reflexivity|].
  destruct (String.eqb k k0) eqn:E; [discriminate|]. intros H.
  unfold elapse in *; simpl. destruct (n <? t)%nat; simpl; [rewrite E|]; auto.
Qed.

Lemma lookup_elapse_live {V} (s : Store V) n k v t :
  lookup s k = Some (v, t) -> (n < t)%nat -> lookup (elapse s n) k = Some (v, t - n).
Proof.
  induction s as [|[k0 [v0 t0]] s IH]; simpl; [discriminate|].
  intros H Hn. unfold elapse in *; simpl.
  destruct (String.eqb k k0) eqn:E.
  - injection H as -> ->. apply Nat.ltb_lt in Hn. rewrite Hn. simpl. rewrite E. reflexivity.
  - destruct (n <? t0)%nat; simpl; [rewrite E|]; auto.
Qed.

Lemma lookup_elapse_setCache {V} (s : Store V) k v t n :
  lookup (elapse (setCache s k v t) n) k =
  if (n <? t)%nat then Some (v, t - n) else None.
Proof.
  assert (D : lookup (deleteCache s k) k = None)
    by (rewrite lookup_deleteCache, String.eqb_refl; reflexivity).
  unfold elapse, setCache; simpl. destruct (n <? t)%nat; simpl.
  - rewrite String.eqb_refl. reflexivity.
  - apply (lookup_elapse_none _ n) in D. exact D.
Qed.

Lemma findByEmail_tick w n e : findByEmail (tick w n) e = findByEmail w e.
Proof. reflexivity. Qed.

(** The forgot-password request that stores and mails a code. *)
Lemma forgot_sends side email rnd mailOk w u :
  isValidEmail email = true -> findByEmail w email = Some u ->
  is_role (side_role side) u = true -> ac_isActive u = true ->
  getCache (flags w) (rate_limit_key side email) <> Some true ->
  forgotPassword side (Some email) rnd mailOk w =
  (if mailOk then Resp 200 (side_generic side) else Resp 500 msg_500,
   set_flags (set_otps w (storeOTP (otps w) email (generateOTP rnd) (side_userType side)))
             (setCache (flags w) (rate_limit_key side email) true 120)).
Proof.
  intros Hv Hf Hr Ha Hl. unfold forgotPassword.
  rewrite (valid_not_blank _ Hv), Hv, Hf, Hr, Ha. simpl negb. cbv iota.
  destruct (getCache (flags w) (rate_limit_key side email)) as [[|]|];
    [contradiction|destruct mailOk; reflexivity..].
Qed.

Lemma forgot_limited side email rnd mailOk w u :
  isValidEmail email = true -> findByEmail w email = Some u ->
  is_role (side_role side) u = true -> ac_isActive u = true ->
  getCache (flags w) (rate_limit_key side email) = Some true ->
  forgotPassword side (Some email) rnd mailOk w = (Resp 429 msg_rate, w).
Proof.
  intros Hv Hf Hr Ha Hl. unfold forgotPassword.
  rewrite (valid_not_blank _ Hv), Hv, Hf, Hr, Ha, Hl. reflexivity.
Qed.

(** forgotPassword (client and freelancer): for an active account of the
    route's side that is not rate-limited, the route stores a fresh code
    with no attempts and answers 200 (500 when the mail fails); any new request within the next 120 seconds is refused
    with 429 and changes nothing, and after 120 seconds the flag is gone. *)
Theorem forgot_password_rate_limit (side : Side) (email : string) (rnd : Q)
  (mailOk : bool) (w : AuthWorld) (u : Account) :
  isValidEmail email = true -> findByEmail w email = Some u ->
  is_role (side_role side) u = true -> ac_isActive u = true ->
  getCache (flags w) (rate_limit_key side email) <> Some true ->
  let (r, w1) := forgotPassword side (Some email) rnd mailOk w in
  r = (if mailOk then Resp 200 (side_generic side) else Resp 500 msg_500) /\
  getCache (otps w1) (reset_key email (side_userType side))
    = Some (mkOtp (generateOTP rnd) 0 false) /\
  (forall n rnd' mailOk', (n < 120)%nat ->
     forgotPassword side (Some email) rnd' mailOk' (tick w1 n)
       = (Resp 429 msg_rate, tick w1 n)) /\
  (forall n, (120 <= n)%nat ->
     getCache (flags (tick w1 n)) (rate_limit_key side email) = None).
Proof.
  intros Hv Hf Hr Ha Hl. rewrite (forgot_sends side email rnd mailOk w u Hv Hf Hr Ha Hl).
  split; [reflexivity|]. split.
  { unfold getCache, storeOTP, set_flags, set_otps; cbn [otps flags].
    rewrite lookup_setCache, String.eqb_refl. reflexivity. }
  split.
  - intros n rnd' mailOk' Hn. apply (forgot_limited _ _ _ _ _ u Hv); [exact Hf|exact Hr|exact Ha|].
    unfold getCache, tick, set_flags, set_otps; cbn [otps flags].
    rewrite (lookup_elapse_live _ n _ true 120); [reflexivity| |exact Hn].
    rewrite lookup_setCache, String.eqb_refl. reflexivity.
  - intros n Hn. unfold getCache, tick, set_flags, set_otps; cbn [otps flags].
    rewrite lookup_elapse_setCache.
    destruct (n <? 120)%nat eqn:E; [apply Nat.ltb_lt in E; lia|reflexivity].
Qed.

(** forgotPassword: for a well-formed email with no account of the route's
    side, the route answers the same 200 message as for an existing active
    account whose code was mailed, and changes nothing. *)
Theorem forgot_password_same_answer (side : Side) (email : string) (rnd : Q)
  (w : AuthWorld) :
  isValidEmail email = true ->
  (forall mailOk,
     (forall u, findByEmail w email = Some u -> is_role (side_role side) u = false) ->
     forgotPassword side (Some email) rnd mailOk w = (Resp 200 (side_generic side), w)) /\
  (forall u, findByEmail w email = Some u -> is_role (side_role side) u = true ->
     ac_isActive u = true ->
     getCache (flags w) (rate_limit_key side email) <> Some true ->
     fst (forgotPassword side (Some email) rnd true w) = Resp 200 (side_generic side)).
Proof.
  intros Hv. split.
  - intros mailOk Hno. unfold forgotPassword.
    rewrite (valid_not_blank _ Hv), Hv. simpl negb. cbv iota.
    destruct (findByEmail w email) as [u|] eqn:Hf; [|reflexivity].
    rewrite (Hno u eq_refl). reflexivity.
  - intros u Hf Hr Ha Hl. rewrite (forgot_sends side email rnd true w u Hv Hf Hr Ha Hl).
    reflexivity.
Qed.

Lemma verifyOTP_valid s email code userType d' s' :
  verifyOTP s email code userType = (Valid d', s') ->
  exists d, getCache s (reset_key email userType) = Some d /\ otp d = code /\
    s' = setCache s (reset_key email userType) (mkOtp (otp d) (attempts d) true) 900.
Proof.
  unfold verifyOTP. destruct (getCache s (reset_key email userType)) as [d|]; [|discriminate].
  destruct (String.eqb (otp d) code) eqn:E; cbn beta iota zeta delta [negb].
  - intros H. exists d. apply String.eqb_eq in E. repeat split; auto.
    exact (eq_sym (f_equal snd H)).
  - intros H. match type of H with context [if ?b then _ else _] => destruct b end;
      discriminate H.
Qed.

Lemma verify_success_inv side email otp np cp w r w' :
  verifyOTPEndpoint side (Some email) (Some otp) (Some np) (Some cp) w = (r, w') ->
  r = Resp 200 msg_reset_ok ->
  exists d u,
    (blank email || blank otp || blank np || blank cp) = false /\
    isValidEmail email = true /\
    (negb (String.length otp =? 6)%nat || negb (six_digits otp)) = false /\
    (String.length np <? 6)%nat = false /\
    getCache (otps w) (reset_key email (side_userType side)) = Some d /\ Otp.otp d = otp /\
    findByEmail w email = Some u /\ is_role (side_role side) u = true /\
    ac_isActive u = true /\ np = cp /\
    w' = set_logins
           (set_otps
              (set_accounts
                 (set_otps w (setCache (otps w) (reset_key email (side_userType side))
                                (mkOtp (Otp.otp d) (attempts d) true) 900))
                 (map (fun a => if String.eqb (ac_id a) (ac_id u)
                                then mkAccount (ac_id a) (ac_email a) (ac_role a)
                                               (ac_isActive a) (Hashed np)
                                else a) (accounts w)))
              (invalidateOTP (setCache (otps w) (reset_key email (side_userType side))
                                (mkOtp (Otp.otp d) (attempts d) true) 900)
                             email (side_userType side)))
           (deleteCache (logins w) (side_login_key side email)).
Proof.
  unfold verifyOTPEndpoint.
  destruct (blank email || blank otp || blank np || blank cp) eqn:B1;
    [intros E; injection E as <- _; discriminate|].
  destruct (isValidEmail email) eqn:B2; simpl negb; cbv iota;
    [|intros E; injection E as <- _; discriminate].
  destruct (negb (String.length otp =? 6)%nat || negb (six_digits otp)) eqn:B3;
    [intros E; injection E as <- _; discriminate|].
  destruct (String.eqb np cp) eqn:Hpc; simpl negb; cbv iota;
    [|intros E; injection E as <- _; discriminate].
  apply String.eqb_eq in Hpc.
  destruct (String.length np <? 6)%nat eqn:B4; [intros E; injection E as <- _; discriminate|].
  destruct (verifyOTP (otps w) email otp (side_userType side)) as [[d'|err] s1] eqn:Hver;
    [|intros E; injection E as <- _; discriminate].
  apply verifyOTP_valid in Hver as (d & Hd & Hotp & ->).
  unfold findByEmail at 1; simpl accounts.
  change (find (fun a => String.eqb (ac_email a) email) (accounts w)) with (findByEmail w email).
  destruct (findByEmail w email) as [u|] eqn:Hf; [|intros E; injection E as <- _; discriminate].
  destruct (is_role (side_role side) u) eqn:Hr; simpl negb; cbv iota;
    [|intros E; injection E as <- _; discriminate].
  destruct (ac_isActive u) eqn:Ha; simpl negb; cbv iota;
    [|intros E; injection E as <- _; discriminate].
  intros E _. injection E as _ <-.
  exists d, u. repeat split; auto.
Qed.

(** verifyOTPEndpoint: a 200 answer means a stored code for the email and
    side matched, the account exists, has the side's role and is active, and
    the two passwords agree; the route then sets the password of that account
    by id, deletes the code and the cached login, so replaying the same
    request is refused with 400. *)
Theorem verify_reset_success (side : Side) (email otp np cp : string)
  (w : AuthWorld) :
  fst (verifyOTPEndpoint side (Some email) (Some otp) (Some np) (Some cp) w)
    = Resp 200 msg_reset_ok ->
  let w' := snd (verifyOTPEndpoint side (Some email) (Some otp) (Some np) (Some cp) w) in
  (exists d, getCache (otps w) (reset_key email (side_userType side)) = Some d /\
             Otp.otp d = otp) /\
  (exists u, findByEmail w email = Some u /\ is_role (side_role side) u = true /\
     ac_isActive u = true /\ np = cp /\
     accounts w' = map (fun a => if String.eqb (ac_id a) (ac_id u)
                                 then mkAccount (ac_id a) (ac_email a) (ac_role a)
                                                (ac_isActive a) (Hashed np)
                                 else a) (accounts w)) /\
  getCache (otps w') (reset_key email (side_userType side)) = None /\
  getCache (logins w') (side_login_key side email) = None /\
  fst (verifyOTPEndpoint side (Some email) (Some otp) (Some np) (Some cp) w')
    = Resp 400 err_missing.
Proof.
  intros H w'. subst w'.
  destruct (verifyOTPEndpoint side (Some email) (Some otp) (Some np) (Some cp) w)
    as [r w'] eqn:E. simpl in H |- *.
  destruct (verify_success_inv _ _ _ _ _ _ _ _ E H)
    as (d & u & B1 & B2 & B3 & B4 & Hd & Hotp & Hf & Hr & Ha & Hpc & ->).
  assert (G : getCache (invalidateOTP (setCache (otps w) (reset_key email (side_userType side))
                 (mkOtp (Otp.otp d) (attempts d) true) 900) email (side_userType side))
               (reset_key email (side_userType side)) = None).
  { unfold getCache, invalidateOTP. rewrite lookup_deleteCache, String.eqb_refl. reflexivity. }
  split; [exists d; auto|].
  split; [exists u; auto|].
  split; [exact G|].
  split.
  { unfold getCache; cbn [logins set_logins]. rewrite lookup_deleteCache, String.eqb_refl.
    reflexivity. }
  unfold verifyOTPEndpoint. rewrite B1, B2, B3. simpl negb. cbv iota.
  subst cp. rewrite String.eqb_refl, B4. simpl negb. cbv iota.
  unfold verifyOTP at 1. cbn [otps set_logins set_otps set_accounts].
  rewrite G. reflexivity.
Qed.

(** verifyOTPEndpoint: an answer other than 200 leaves every password and
    the login cache as they were. *)
Theorem verify_reset_writes_only_on_success (side : Side)
  (email otp newPassword confirmPassword : option string) (w : AuthWorld) :
  code (fst (verifyOTPEndpoint side email otp newPassword confirmPassword w)) <> 200 ->
  accounts (snd (verifyOTPEndpoint side email otp newPassword confirmPassword w))
    = accounts w /\
  logins (snd (verifyOTPEndpoint side email otp newPassword confirmPassword w))
    = logins w.
Proof.
  unfold verifyOTPEndpoint.
  destruct email as [email|], otp as [otp|], newPassword as [np|],
    confirmPassword as [cp|]; simpl; auto.
  destruct (blank email || blank otp || blank np || blank cp); simpl; auto.
  destruct (negb (isValidEmail email)); simpl; auto.
  destruct (negb (String.length otp =? 6)%nat || negb (six_digits otp)); simpl; auto.
  destruct (negb (String.eqb np cp)); simpl; auto.
  destruct (String.length np <? 6)%nat; simpl; auto.
  destruct (verifyOTP (otps w) email otp (side_userType side)) as [[d|err] s1]; simpl; auto.
  unfold findByEmail; simpl.
  destruct (find (fun a => String.eqb (ac_email a) email) (accounts w)) as [u|]; simpl; auto.
  destruct (negb (is_role (side_role side) u)); simpl; auto.
  destruct (negb (ac_isActive u)); simpl; auto.
  intros H; contradiction H; reflexivity.
Qed.

Lemma blank_len s : (0 < String.length s)%nat -> blank s = false.
Proof. destruct s; [simpl; lia|reflexivity]. Qed.




(** login: after a successful login, any password logs in for the next 600
    seconds, answering with the cached user id: a cache hit skips the
    password check. *)
Theorem login_cache_skips_password (side : Side) (email pw : string)
  (w : AuthWorld) :
  getCache (logins w) (side_login_key side email) = None ->
  fst (fst (login side email pw w)) = Resp 200 "Login successful" ->
  forall pw' n, (n < 600)%nat ->
    fst (login side email pw' (tick (snd (login side email pw w)) n))
      = (Resp 200 "Login successful", snd (fst (login side email pw w))).
Proof.
  intros Hc H pw' n Hn. unfold login in H |- *. rewrite Hc in H |- *.
  destruct (findByEmail w email) as [u|]; [|discriminate H].
  destruct (negb (is_role (side_role side) u)); [discriminate H|].
  destruct (negb (secret_eqb (Hashed pw) (ac_password u))); [discriminate H|].
  cbn [fst snd].
  unfold getCache at 1, tick, set_logins; cbn [logins].
  rewrite (lookup_elapse_live _ n _ (ac_id u) 600); [reflexivity| |exact Hn].
  rewrite lookup_setCache, String.eqb_refl. reflexivity.
Qed.

(** login: a suspended account of the route's side still logs in with its
    password (the route checks no [isActive]), whereas forgotPassword refuses
    it with 400. *)
Theorem login_ignores_suspension (side : Side) (email pw : string) (rnd : Q)
  (mailOk : bool) (w : AuthWorld) (u : Account) :
  isValidEmail email = true ->
  getCache (logins w) (side_login_key side email) = None ->
  findByEmail w email = Some u -> is_role (side_role side) u = true ->
  ac_password u = Hashed pw -> ac_isActive u = false ->
  fst (login side email pw w) = (Resp 200 "Login successful", Some (ac_id u)) /\
  forgotPassword side (Some email) rnd mailOk w = (Resp 400 msg_suspended, w).
Proof.
  intros Hv Hc Hf Hr Hp Ha. split.
  - unfold login. rewrite Hc, Hf, Hr, Hp. simpl. rewrite String.eqb_refl. reflexivity.
  - unfold forgotPassword. rewrite (valid_not_blank _ Hv), Hv, Hf, Hr, Ha. reflexivity.
Qed.

(** sendVerificationOTP and verifyEmailOTP: for an email that has an
    account, sendVerificationOTP and verifyEmailOTP (given a six-digit code)
    answer 409 with the account's type and change nothing. *)
Theorem registered_email_refused (email : string) (rnd : Q) (mailOk : bool)
  (otp : string) (w : AuthWorld) (u : Account) :
  isValidEmail email = true -> findByEmail w email = Some u ->
  sendVerificationOTP (Some email) rnd mailOk w
    = (Resp 409 (registered_message (registration_userType (ac_role u))), w) /\
  (String.length otp = 6 -> six_digits otp = true ->
   verifyEmailOTP (Some email) (Some otp) w
     = (Resp 409 (registered_message (registration_userType (ac_role u))), w)).
Proof.
  intros Hv Hf. split.
  - unfold sendVerificationOTP, checkEmailRegistration.
    rewrite (valid_not_blank _ Hv), Hv, Hf. reflexivity.
  - intros L S. unfold verifyEmailOTP, checkEmailRegistration.
    rewrite (valid_not_blank _ Hv), (blank_len otp) by lia. rewrite Hv, L, S, Hf.
    reflexivity.
Qed.

Lemma verifyEmail_stored s email code :
  verifyEmailVerificationOTP (storeEmailVerificationOTP s email code) email code =
  (Valid (mkOtp code 0 true),
   setCache (storeEmailVerificationOTP s email code) (email_key email)
            (mkOtp code 0 true) 1800).
Proof.
  unfold verifyEmailVerificationOTP. unfold getCache at 1, storeEmailVerificationOTP at 1.
  rewrite lookup_setCache, String.eqb_refl. simpl.
  rewrite String.eqb_refl. reflexivity.
Qed.

(** sendVerificationOTP then verifyEmailOTP: for an unregistered,
    non-rate-limited email, the code that was sent verifies, and the email is
    then marked verified for 1800 seconds. *)
Theorem email_verification_round_trip (email : string) (rnd : Q) (w : AuthWorld) :
  isValidEmail email = true -> findByEmail w email = None ->
  getCache (flags w) (email_rate_key email) <> Some true ->
  (0 <= rnd < 1)%Q ->
  let (r1, w1) := sendVerificationOTP (Some email) rnd true w in
  let (r2, w2) := verifyEmailOTP (Some email)
                    (Some (generateEmailVerificationOTP rnd)) w1 in
  r1 = Resp 200 "Verification OTP has been sent to your email address." /\
  r2 = Resp 200 "Email verified successfully. You can now proceed with registration." /\
  isEmailOTPVerified (otps w2) email = true /\
  ttl (otps w2) (email_key email) = Some 1800.
Proof.
  intros Hv Hf Hl Hrnd.
  pose proof (otp_range rnd Hrnd) as R.
  assert (L6 : String.length (generateEmailVerificationOTP rnd) = 6)
    by exact (proj1 (six_digit_numeral _ R)).
  assert (S6 : six_digits (generateEmailVerificationOTP rnd) = true)
    by exact (proj2 (six_digit_numeral _ R)).
  unfold sendVerificationOTP, checkEmailRegistration.
  rewrite (valid_not_blank _ Hv), Hv, Hf. cbn beta iota delta [negb option_map].
  destruct (getCache (flags w) (email_rate_key email)) as [[|]|]; [contradiction| |];
  unfold verifyEmailOTP, checkEmailRegistration;
  rewrite (valid_not_blank _ Hv), (blank_len (generateEmailVerificationOTP rnd)) by lia;
  rewrite Hv, L6, S6; cbn [otps set_flags set_otps];
  unfold findByEmail in Hf |- *; cbn [accounts set_flags set_otps]; rewrite Hf;
  cbn beta iota delta [negb orb option_map Nat.eqb];
  rewrite verifyEmail_stored; cbn [otps set_otps];
  (split; [reflexivity|]); (split; [reflexivity|]);
  unfold isEmailOTPVerified, getCache, ttl; rewrite lookup_setCache, String.eqb_refl;
  split; reflexivity.
Qed.

Lemma find_email_app_none l x e :
  find (fun a => String.eqb (ac_email a) e) l = None ->
  String.eqb (ac_email x) e = true ->
  find (fun a => String.eqb (ac_email a) e) (l ++ [x]) = Some x.
Proof.
  intros H Hx. induction l as [|a l IH]; simpl in *; [rewrite Hx; reflexivity|].
  destruct (String.eqb (ac_email a) e); [discriminate|]. exact (IH H).
Qed.

(** signup (client): a 201 answer means the email had no account; from then
    on the email is reported as registered as client, sendVerificationOTP
    refuses it with 409, and a second signup with it answers 400 and changes
    nothing. *)
Theorem signup_registers_email (name email password newId : string)
  (w : AuthWorld) :
  fst (signup (Some name) (Some email) (Some password) newId w)
    = Resp 201 "Client account created successfully" ->
  let w' := snd (signup (Some name) (Some email) (Some password) newId w) in
  findByEmail w email = None /\
  checkEmailRegistration w' email = Some "client" /\
  (forall rnd mailOk, sendVerificationOTP (Some email) rnd mailOk w'
     = (Resp 409 "Email is already registered as client", w')) /\
  (forall name2 password2 newId2,
     code (fst (signup (Some name2) (Some email) (Some password2) newId2 w')) = 400 /\
     snd (signup (Some name2) (Some email) (Some password2) newId2 w') = w').
Proof.
  unfold signup at 1 2.
  destruct (blank name || blank email || blank password) eqn:B; [discriminate|].
  destruct (isValidEmail email) eqn:Hv; [|discriminate].
  destruct (String.length password <? 6)%nat eqn:Hp; [discriminate|].
  cbn beta iota delta [negb].
  destruct (findByEmail w email) eqn:Hf; [discriminate|].
  intros _. cbn [snd]. set (w' := set_clientUsers _ _).
  assert (Hf' : findByEmail w' email = Some (mkAccount newId email CLIENT true (Hashed password))).
  { apply find_email_app_none; [exact Hf|apply String.eqb_refl]. }
  split; [reflexivity|]. split.
  { unfold checkEmailRegistration. rewrite Hf'. reflexivity. }
  split.
  - intros rnd mailOk. unfold sendVerificationOTP, checkEmailRegistration.
    apply orb_false_iff in B as [B _]. apply orb_false_iff in B as [_ Be].
    rewrite Be, Hv, Hf'. reflexivity.
  - intros name2 password2 newId2. unfold signup.
    destruct (blank name2 || blank email || blank password2); [split; reflexivity|].
    rewrite Hv. cbn beta iota delta [negb].
    destruct (String.length password2 <? 6)%nat; [split; reflexivity|].
    rewrite Hf'. split; reflexivity.
Qed.

Lemma forgot_cases side email rnd mailOk w :
  snd (forgotPassword side (Some email) rnd mailOk w) = w \/
  snd (forgotPassword side (Some email) rnd mailOk w) =
    set_flags (set_otps w (storeOTP (otps w) email (generateOTP rnd) (side_userType side)))
              (setCache (flags w) (rate_limit_key side email) true 120).
Proof.
  unfold forgotPassword.
  destruct (blank email); [left; reflexivity|].
  destruct (negb (isValidEmail email)); [left; reflexivity|].
  destruct (findByEmail w email) as [u|]; [|left; reflexivity].
  destruct (negb (is_role (side_role side) u)); [left; reflexivity|].
  destruct (negb (ac_isActive u)); [left; reflexivity|].
  destruct (getCache (flags w) (rate_limit_key side email)) as [[|]|];
    [left; reflexivity|destruct mailOk; right; reflexivity..].
Qed.

Lemma getCache_setCache_other {V} (s : Store V) k v t k' :
  k' <> k -> getCache (setCache s k v t) k' = getCache s k'.
Proof.
  intros H. unfold getCache. rewrite lookup_setCache.
  apply String.eqb_neq in H. rewrite H. reflexivity.
Qed.

(** forgotPassword: a request on one side changes no password, no reset
    code or rate-limit flag of the other side, and no email verification
    code or flag, for any email. *)
Theorem forgot_password_keys_separate (side side' : Side) (email e' : string)
  (rnd : Q) (mailOk : bool) (w : AuthWorld) :
  side <> side' ->
  let w' := snd (forgotPassword side (Some email) rnd mailOk w) in
  accounts w' = accounts w /\
  getCache (otps w') (reset_key e' (side_userType side'))
    = getCache (otps w) (reset_key e' (side_userType side')) /\
  getCache (otps w') (email_key e') = getCache (otps w) (email_key e') /\
  getCache (flags w') (rate_limit_key side' e')
    = getCache (flags w) (rate_limit_key side' e') /\
  getCache (flags w') (email_rate_key e') = getCache (flags w) (email_rate_key e').
Proof.
  intros Hs w'. subst w'.
  destruct (forgot_cases side email rnd mailOk w) as [-> | ->]; [repeat split|].
  cbn [accounts otps flags set_flags set_otps]. unfold storeOTP.
  repeat split; apply getCache_setCache_other;
    destruct side, side'; try congruence;
    unfold reset_key, email_key, rate_limit_key, email_rate_key; simpl;
    discriminate.
Qed.

(** Discharging a hypothesis on concrete worlds by evaluation. *)
Ltac by_eval :=
  first [ vm_compute; reflexivity | vm_compute; discriminate | vm_compute; lia
        | split; [vm_compute; discriminate | reflexivity] ].

Lemma forgot_password_rate_limit_witness :
  let (r, w1) := forgotPassword ClientSide (Some "ann@example.com") (1 # 2) true auth0 in
  r = (if true then Resp 200 (side_generic ClientSide) else Resp 500 msg_500) /\
  getCache (otps w1) (reset_key "ann@example.com" (side_userType ClientSide))
    = Some (mkOtp (generateOTP (1 # 2)) 0 false) /\
  (forall n rnd' mailOk', (n < 120)%nat ->
     forgotPassword ClientSide (Some "ann@example.com") rnd' mailOk' (tick w1 n)
       = (Resp 429 msg_rate, tick w1 n)) /\
  (forall n, (120 <= n)%nat ->
     getCache (flags (tick w1 n)) (rate_limit_key ClientSide "ann@example.com") = None).
Proof.
  apply (forgot_password_rate_limit ClientSide "ann@example.com" (1 # 2) true auth0 acc_ann);
    by_eval.
Defined.

Lemma forgot_password_same_answer_witness :
  (forall mailOk,
     (forall u, findByEmail auth0 "ann@example.com" = Some u ->
                is_role (side_role FreelancerSide) u = false) ->
     forgotPassword FreelancerSide (Some "ann@example.com") (1 # 2) mailOk auth0
       = (Resp 200 (side_generic FreelancerSide), auth0)) /\
  (forall u, findByEmail auth0 "ann@example.com" = Some u ->
     is_role (side_role FreelancerSide) u = true -> ac_isActive u = true ->
     getCache (flags auth0) (rate_limit_key FreelancerSide "ann@example.com") <> Some true ->
     fst (forgotPassword FreelancerSide (Some "ann@example.com") (1 # 2) true auth0)
       = Resp 200 (side_generic FreelancerSide)).
Proof.
  apply (forgot_password_same_answer FreelancerSide "ann@example.com" (1 # 2) auth0); by_eval.
Defined.

Lemma verify_reset_success_witness :
  let w' := snd (verifyOTPEndpoint ClientSide (Some "ann@example.com") (Some "550000")
                   (Some "newpass1") (Some "newpass1") auth_reset) in
  (exists d, getCache (otps auth_reset) (reset_key "ann@example.com" (side_userType ClientSide))
               = Some d /\ Otp.otp d = "550000") /\
  (exists u, findByEmail auth_reset "ann@example.com" = Some u /\
     is_role (side_role ClientSide) u = true /\
     ac_isActive u = true /\ "newpass1" = "newpass1" /\
     accounts w' = map (fun a => if String.eqb (ac_id a) (ac_id u)
                                 then mkAccount (ac_id a) (ac_email a) (ac_role a)
                                                (ac_isActive a) (Hashed "newpass1")
                                 else a) (accounts auth_reset)) /\
  getCache (otps w') (reset_key "ann@example.com" (side_userType ClientSide)) = None /\
  getCache (logins w') (side_login_key ClientSide "ann@example.com") = None /\
  fst (verifyOTPEndpoint ClientSide (Some "ann@example.com") (Some "550000")
         (Some "newpass1") (Some "newpass1") w')
    = Resp 400 err_missing.
Proof.
  apply (verify_reset_success ClientSide "ann@example.com" "550000" "newpass1" "newpass1"
           auth_reset); by_eval.
Defined.

Lemma verify_reset_writes_only_on_success_witness :
  accounts (snd (verifyOTPEndpoint ClientSide (Some "ann@example.com") (Some "123123")
                   (Some "newpass1") (Some "newpass1") auth_reset))
    = accounts auth_reset /\
  logins (snd (verifyOTPEndpoint ClientSide (Some "ann@example.com") (Some "123123")
                 (Some "newpass1") (Some "newpass1") auth_reset))
    = logins auth_reset.
Proof.
  apply (verify_reset_writes_only_on_success ClientSide (Some "ann@example.com")
           (Some "123123") (Some "newpass1") (Some "newpass1") auth_reset); by_eval.
Defined.


Lemma login_cache_skips_password_witness :
  fst (login ClientSide "ann@example.com" "wrong-password"
         (tick (snd (login ClientSide "ann@example.com" "secret1" auth0)) 300))
    = (Resp 200 "Login successful",
       snd (fst (login ClientSide "ann@example.com" "secret1" auth0))).
Proof.
  apply (login_cache_skips_password ClientSide "ann@example.com" "secret1" auth0); by_eval.
Defined.

Lemma login_ignores_suspension_witness :
  fst (login FreelancerSide "eve@example.com" "letmein" auth0)
    = (Resp 200 "Login successful", Some (ac_id acc_eve)) /\
  forgotPassword FreelancerSide (Some "eve@example.com") (1 # 2) true auth0
    = (Resp 400 msg_suspended, auth0).
Proof.
  apply (login_ignores_suspension FreelancerSide "eve@example.com" "letmein" (1 # 2) true
           auth0 acc_eve); by_eval.
Defined.

Lemma registered_email_refused_witness :
  sendVerificationOTP (Some "bob@example.com") (1 # 2) true auth0
    = (Resp 409 (registered_message (registration_userType (ac_role acc_bob))), auth0) /\
  (String.length "123456" = 6 -> six_digits "123456" = true ->
   verifyEmailOTP (Some "bob@example.com") (Some "123456") auth0
     = (Resp 409 (registered_message (registration_userType (ac_role acc_bob))), auth0)).
Proof.
  apply (registered_email_refused "bob@example.com" (1 # 2) true "123456" auth0 acc_bob);
    by_eval.
Defined.

Lemma email_verification_round_trip_witness :
  let (r1, w1) := sendVerificationOTP (Some "dan@example.com") (1 # 2) true auth0 in
  let (r2, w2) := verifyEmailOTP (Some "dan@example.com")
                    (Some (generateEmailVerificationOTP (1 # 2))) w1 in
  r1 = Resp 200 "Verification OTP has been sent to your email address." /\
  r2 = Resp 200 "Email verified successfully. You can now proceed with registration." /\
  isEmailOTPVerified (otps w2) "dan@example.com" = true /\
  ttl (otps w2) (email_key "dan@example.com") = Some 1800.
Proof.
  apply (email_verification_round_trip "dan@example.com" (1 # 2) auth0); by_eval.
Defined.

Lemma signup_registers_email_witness :
  let w' := snd (signup (Some "Carol") (Some "carol@example.com") (Some "s3cret!") "u9" auth0) in
  findByEmail auth0 "carol@example.com" = None /\
  checkEmailRegistration w' "carol@example.com" = Some "client" /\
  (forall rnd mailOk, sendVerificationOTP (Some "carol@example.com") rnd mailOk w'
     = (Resp 409 "Email is already registered as client", w')) /\
  (forall name2 password2 newId2,
     code (fst (signup (Some name2) (Some "carol@example.com") (Some password2) newId2 w')) = 400 /\
     snd (signup (Some name2) (Some "carol@example.com") (Some password2) newId2 w') = w').
Proof.
  apply (signup_registers_email "Carol" "carol@example.com" "s3cret!" "u9" auth0); by_eval.
Defined.

Lemma forgot_password_keys_separate_witness :
  let w' := snd (forgotPassword ClientSide (Some "ann@example.com") (1 # 2) true auth0) in
  accounts w' = accounts auth0 /\
  getCache (otps w') (reset_key "bob@example.com" (side_userType FreelancerSide))
    = getCache (otps auth0) (reset_key "bob@example.com" (side_userType FreelancerSide)) /\
  getCache (otps w') (email_key "bob@example.com")
    = getCache (otps auth0) (email_key "bob@example.com") /\
  getCache (flags w') (rate_limit_key FreelancerSide "bob@example.com")
    = getCache (flags auth0) (rate_limit_key FreelancerSide "bob@example.com") /\
  getCache (flags w') (email_rate_key "bob@example.com")
    = getCache (flags auth0) (email_rate_key "bob@example.com").
Proof.
  apply (forgot_password_keys_separate ClientSide FreelancerSide "ann@example.com"
           "bob@example.com" (1 # 2) true auth0); by_eval.
Defined.

End AccountFacts.

(** ** Profile completeness *)
Module ProfileFacts.
Import Profile Helpers.

Lemma fold_sum (fs : list (string * nat)) : forall acc,
  fold_left (fun s f => s + snd f) fs acc = acc + list_sum (map snd fs).
Proof.
  induction fs as [|f fs IH]; intros acc; simpl; [lia|].
  rewrite IH. lia.
Qed.

Lemma sum_split (fs : list (string * nat)) :
  Forall (fun f => snd f = 0 \/ snd f = field_weight (fst f)) fs ->
  list_sum (map snd fs)
  + list_sum (map field_weight (map fst (filter (fun f => (snd f =? 0)%nat) fs)))
  = list_sum (map (fun f => field_weight (fst f)) fs).
Proof.
  induction 1 as [|f fs Hf _ IH]; simpl; [reflexivity|].
  destruct (snd f =? 0)%nat eqn:E; simpl.
  - apply Nat.eqb_eq in E. rewrite E. lia.
  - apply Nat.eqb_neq in E. destruct Hf as [Hf|Hf]; [lia|]. rewrite Hf. lia.
Qed.

Lemma fields_weighted user client :
  Forall (fun f => snd f = 0 \/ snd f = field_weight (fst f)) (fields user client).
Proof.
  unfold fields.
  repeat apply Forall_cons; try apply Forall_nil; cbn [fst snd];
    repeat match goal with
           | |- context [if ?b then _ else _] => destruct b
           | |- context [match ?x with Some _ => _ | None => _ end] => destruct x
           end; (left; reflexivity) || (right; reflexivity).
Qed.

Lemma fields_total user client :
  list_sum (map (fun f => field_weight (fst f)) (fields user client)) = 110.
Proof. reflexivity. Qed.

Lemma fields_names_weigh user client :
  Forall (fun x => 5 <= field_weight x) (map fst (fields user client)).
Proof. simpl. repeat constructor; vm_compute; lia. Qed.

(** calculateClientProfileCompleteness: the score is out of 110, not 100.
    The percentage plus the weights of the missing fields is always 110;
    no field is missing exactly when the percentage is 110; the completed
    sections are listed exactly when the percentage is at least 80. *)
Theorem profile_completeness_accounting user client :
  let r := calculateClientProfileCompleteness user client in
  percentage r + list_sum (map field_weight (missingFields r)) = 110 /\
  (missingFields r = [] <-> percentage r = 110) /\
  (completedSections r <> [] <-> 80 <= percentage r).
Proof.
  cbv zeta. unfold calculateClientProfileCompleteness. cbn [percentage missingFields completedSections].
  rewrite fold_sum. simpl plus at 1.
  pose proof (sum_split _ (fields_weighted user client)) as Hs.
  rewrite fields_total in Hs.
  assert (Hm : Forall (fun x => 5 <= field_weight x)
                 (map fst (filter (fun f => (snd f =? 0)%nat) (fields user client)))).
  { pose proof (fields_names_weigh user client) as Hw.
    rewrite Forall_forall in *. intros x Hx. apply Hw.
    apply in_map_iff in Hx. destruct Hx as [f [<- Hf]].
    apply filter_In in Hf. apply in_map. tauto. }
  split; [exact Hs|]. split.
  - split.
    + intros E. rewrite E in Hs. cbn [map list_sum fold_right] in Hs. lia.
    + intros E. destruct (map fst (filter _ _)) as [|x xs] eqn:Ex; [reflexivity|].
      inversion Hm; subst. cbn [map list_sum fold_right] in Hs. lia.
  - destruct (80 <=? _)%nat eqn:E.
    + apply Nat.leb_le in E. split; [intros _; exact E | discriminate].
    + apply Nat.leb_gt in E. split; [intros H; exfalso; apply H; reflexivity | lia].
Qed.

End ProfileFacts.

(** ** Admin user status *)
Module AdminFacts.
Import Cache Model Handlers AdminUsers CacheFacts Helpers Scenarios AuthScenarios.


Lemma find_update (l : list User) id f :
  (forall v, u_id (f v) = u_id v) ->
  find (fun u => String.eqb (u_id u) id)
       (map (fun v => if String.eqb (u_id v) id then f v else v) l)
  = option_map f (find (fun u => String.eqb (u_id u) id) l).
Proof.
  intros Hf. induction l as [|v l IH]; simpl; [reflexivity|].
  destruct (String.eqb (u_id v) id) eqn:E; simpl.
  - rewrite Hf, E. reflexivity.
  - rewrite E. exact IH.
Qed.

Lemma toggle_step w isSuperAdmin userId u :
  find_user w userId = Some u ->
  is_admin (u_role u) = false \/ isSuperAdmin = true ->
  toggleUserStatus true isSuperAdmin userId w =
  (Done (Resp 200 ("User " ++ (if negb (u_isActive u) then "activated" else "suspended")
                   ++ " successfully")),
   set_cache (set_users w (map (fun v => if String.eqb (u_id v) userId
                                         then mkUser (u_id v) (u_role v) (negb (u_isActive u))
                                         else v) (users w)))
             (deleteAll (cache w) ["user:" ++ userId])).
Proof.
  intros Hu Hadm.
  unfold toggleUserStatus, route, bind, authenticateAdmin, ret, gets.
  rewrite Hu.
  assert (Hg : is_admin (u_role u) && negb isSuperAdmin = false)
    by (destruct Hadm as [H|H]; rewrite H; [reflexivity | apply andb_false_r]).
  rewrite Hg. unfold updateUser. rewrite Hu. cbn [u_isActive].
  unfold deleteKeys, modify, respond. reflexivity.
Qed.

(** toggle-status (admin.js): on a user it may touch, the route flips the
    user's [isActive], answers which way it went, and drops the cached
    [user:<id>] view; from then on the auth middleware turns a suspended
    user away with 403 and lets an activated one through. *)
Theorem toggle_user_status_flips w isSuperAdmin userId u :
  find_user w userId = Some u ->
  is_admin (u_role u) = false \/ isSuperAdmin = true ->
  let '(o, w') := toggleUserStatus true isSuperAdmin userId w in
  o = Done (Resp 200 ("User " ++ status_word (negb (u_isActive u)) ++ " successfully")) /\
  user_isActive w' userId = Some (negb (u_isActive u)) /\
  Cache.lookup (cache w') ("user:" ++ userId) = None /\
  (u_isActive u = true ->
     exists r, fst (authenticateToken userId w') = Respond r /\ code r = 403) /\
  (u_isActive u = false ->
     fst (authenticateToken userId w') = Done (mkUser (u_id u) (u_role u) true)).
Proof.
  intros Hu Hadm. rewrite (toggle_step w isSuperAdmin userId u Hu Hadm).
  assert (Hf : find_user
     (set_cache (set_users w (map (fun v => if String.eqb (u_id v) userId
           then mkUser (u_id v) (u_role v) (negb (u_isActive u)) else v) (users w)))
        (deleteAll (cache w) ["user:" ++ userId])) userId
     = Some (mkUser (u_id u) (u_role u) (negb (u_isActive u)))).
  { unfold find_user. cbn [users set_cache set_users].
    rewrite find_update by reflexivity. fold (find_user w userId). rewrite Hu. reflexivity. }
  split; [reflexivity|]. split; [|split].
  - unfold user_isActive. rewrite Hf. reflexivity.
  - cbn [cache set_cache]. rewrite lookup_deleteAll. simpl. rewrite String.eqb_refl. reflexivity.
  - unfold authenticateToken, bind, gets. rewrite Hf. cbn [u_isActive].
    split; intros E; rewrite E; [eexists; split; reflexivity | reflexivity].
Qed.

(** toggle-status (admin.js): on a user table with unique ids, toggling
    the same user twice gives back the original table, and the two answers
    name opposite directions. *)
Theorem toggle_user_status_twice w isSuperAdmin userId u :
  NoDup (map u_id (users w)) ->
  find_user w userId = Some u ->
  is_admin (u_role u) = false \/ isSuperAdmin = true ->
  let '(o1, w1) := toggleUserStatus true isSuperAdmin userId w in
  let '(o2, w2) := toggleUserStatus true isSuperAdmin userId w1 in
  users w2 = users w /\
  o1 = Done (Resp 200 ("User " ++ status_word (negb (u_isActive u)) ++ " successfully")) /\
  o2 = Done (Resp 200 ("User " ++ status_word (u_isActive u) ++ " successfully")).
Proof.
  intros Hnd Hu Hadm. rewrite (toggle_step w isSuperAdmin userId u Hu Hadm).
  cbv beta iota.
  match goal with |- context [toggleUserStatus true isSuperAdmin userId ?w1] =>
    assert (Hf : find_user w1 userId
                 = Some (mkUser (u_id u) (u_role u) (negb (u_isActive u))));
    [ unfold find_user; cbn [users set_cache set_users];
      rewrite find_update by reflexivity; fold (find_user w userId);
      rewrite Hu; reflexivity
    | rewrite (toggle_step w1 isSuperAdmin userId _ Hf) by exact Hadm ]
  end.
  set (f := fun a (v : User) => if String.eqb (u_id v) userId
             then mkUser (u_id v) (u_role v) a else v).
  cbn [u_isActive]. rewrite negb_involutive.
  split; [|split; reflexivity].
  cbn [users set_cache set_users]. fold (f (u_isActive u)). fold (f (negb (u_isActive u))).
  rewrite map_map.
  assert (Hin : In u (users w)) by (apply (find_some _ _ Hu)).
  assert (Hid : u_id u = userId)
    by (apply String.eqb_eq; apply (find_some _ _ Hu)).
  transitivity (map (fun v => v) (users w)); [|apply map_id].
  apply map_ext_in. intros v Hv. unfold f.
  destruct (String.eqb (u_id v) userId) eqn:E.
  - cbn [u_id u_role]. rewrite E.
    apply String.eqb_eq in E.
    assert (v = u).
    { clear -Hnd Hv Hin E Hid. revert Hnd Hv Hin.
      induction (users w) as [|x l IH]; simpl; [tauto|].
      intros Hnd Hv Hin. apply NoDup_cons_iff in Hnd. destruct Hnd as [Hx Hnd'].
      destruct Hv as [<-|Hv]; destruct Hin as [<-|Hin]; auto.
      - exfalso. apply Hx. rewrite E, <- Hid. apply in_map. exact Hin.
      - exfalso. apply Hx. rewrite Hid, <- E. apply in_map. exact Hv. }
    subst v. destruct u; reflexivity.
  - rewrite E. reflexivity.
Qed.

(** toggle-status (admin.js): every answer other than 200 leaves the
    world as it was: a refused admin, a missing user or a denied caller
    changes no row and no cache key. *)
Theorem toggle_user_status_no_write authorized isSuperAdmin userId w r :
  fst (toggleUserStatus authorized isSuperAdmin userId w) = Done r ->
  code r <> 200 ->
  snd (toggleUserStatus authorized isSuperAdmin userId w) = w.
Proof.
  unfold toggleUserStatus, route, bind, authenticateAdmin, ret, gets, respond.
  destruct authorized; [|reflexivity].
  destruct (find_user w userId) as [u|] eqn:Hu; [|reflexivity].
  destruct (is_admin (u_role u) && negb isSuperAdmin); [reflexivity|].
  unfold updateUser. rewrite Hu. unfold deleteKeys, modify.
  cbn. intros H Hc. injection H as <-. exfalso. apply Hc. reflexivity.
Qed.

Lemma toggle_user_status_flips_witness :
  let '(o, w') := toggleUserStatus true false "u1" admin_w in
  o = Done (Resp 200 ("User " ++ status_word (negb (u_isActive uF1)) ++ " successfully")) /\
  user_isActive w' "u1" = Some (negb (u_isActive uF1)) /\
  Cache.lookup (cache w') ("user:" ++ "u1") = None /\
  (u_isActive uF1 = true ->
     exists r, fst (authenticateToken "u1" w') = Respond r /\ code r = 403) /\
  (u_isActive uF1 = false ->
     fst (authenticateToken "u1" w') = Done (mkUser (u_id uF1) (u_role uF1) true)).
Proof.
  apply (toggle_user_status_flips admin_w false "u1" uF1);
    [reflexivity | left; reflexivity].
Defined.

Lemma toggle_user_status_twice_witness :
  let '(o1, w1) := toggleUserStatus true true "a1" admin_w in
  let '(o2, w2) := toggleUserStatus true true "a1" w1 in
  users w2 = users admin_w /\
  o1 = Done (Resp 200 ("User " ++ status_word (negb true) ++ " successfully")) /\
  o2 = Done (Resp 200 ("User " ++ status_word true ++ " successfully")).
Proof.
  apply (toggle_user_status_twice admin_w true "a1" (mkUser "a1" ADMIN true)).
  - cbn. apply NoDup_cons; [intros [H|[]]; discriminate H|].
    apply NoDup_cons; [intros []|apply NoDup_nil].
  - reflexivity.
  - right; reflexivity.
Defined.

Lemma toggle_user_status_no_write_witness :
  snd (toggleUserStatus true false "a1" admin_w) = admin_w.
Proof.
  apply (toggle_user_status_no_write true false "a1" admin_w
           (Resp 403 "Cannot suspend admin users")); [reflexivity | cbn; lia].
Defined.

End AdminFacts.
